(** * CanvasRoot: synchronisation and local-cache controller

    A shallow embedding of [src/index.tsx]: the bootstrap read and the
    scene reconciliation effect, the debounced autosave callback with its
    best-effort anti-forgery header, and the asset catalogue with its
    derived view and starred set.

    Modelling conventions.
    - A JavaScript string is the sequence of its UTF-16 code units; the
      development covers code units U+0000..U+00FF, one [ascii] each.  On
      that range [toLowerCase], [trim], [slice] and [includes] below are the
      host's functions.
    - A value decoded from JSON is a [JSON] tree; [undefined] is [None].
      The program never computes with a number: it tests it, converts it
      with [String] and serialises it.  A number is therefore held as the
      text that [String] prints for it ([7], [-2.5], [1e+21], [Infinity]),
      which determines all three.
    - A JavaScript exception is [Throw]; a [try]/[catch] is a [match] on it.
    - Calls made to the collaborators (canvas, network, local storage) are
      recorded, oldest first, in a trace of [Call]s. *)

From Stdlib Require Import ZArith Ascii.
From stdpp Require Import gmap strings list pretty.

Set Warnings "-register-all".
Local Open Scope Z_scope.

(** ** Host values *)

Module JS.

(** Outcome of an expression that may throw. *)
Inductive result (A : Type) : Type :=
| Ok (a : A)
| Throw.
Arguments Ok {A} a.
Arguments Throw {A}.

Definition bind {A B} (r : result A) (k : A -> result B) : result B :=
  match r with
  | Ok a => k a
  | Throw => Throw
  end.

(** [try { r } catch { d }] *)
Definition catch {A} (r : result A) (d : A) : A :=
  match r with
  | Ok a => a
  | Throw => d
  end.

(** A value decoded from JSON.  A number carries the text that [String]
    prints for it; the functions below accept any text there. *)
Inductive JSON : Type :=
| JNull
| JBool (b : bool)
| JNum (text : string)
| JStr (s : string)
| JArr (items : list JSON)
| JObj (fields : list (string * JSON)).

(** *** Strings *)

Definition code (c : ascii) : N := N_of_ascii c.

(** [String.prototype.toLowerCase] on one code unit of the Latin-1 range:
    A-Z and the accented capitals U+00C0..U+00DE (U+00D7 excepted) move
    up by 32.  Up to U+00FF the host's function maps each code unit on its
    own; above, it depends on the context (the final sigma), and such
    strings are outside this development. *)
Definition lowerChar (c : ascii) : ascii :=
  let n := code c in
  if ((65 <=? n) && (n <=? 90))%N then ascii_of_N (n + 32)
  else if ((192 <=? n) && (n <=? 222) && negb (n =? 215))%N then ascii_of_N (n + 32)
  else c.

Fixpoint toLowerCase (s : string) : string :=
  match s with
  | EmptyString => EmptyString
  | String c r => String (lowerChar c) (toLowerCase r)
  end.

(** White space and line terminators of ECMAScript below U+0100:
    TAB, LF, VT, FF, CR, SP and NBSP. *)
Definition isWhite (c : ascii) : bool :=
  let n := code c in
  ((9 <=? n) && (n <=? 13) || (n =? 32) || (n =? 160))%N.

Fixpoint trimStart (s : string) : string :=
  match s with
  | EmptyString => EmptyString
  | String c r => if isWhite c then trimStart r else s
  end.

Fixpoint trimEnd (s : string) : string :=
  match s with
  | EmptyString => EmptyString
  | String c r =>
      match trimEnd r with
      | EmptyString => if isWhite c then EmptyString else String c EmptyString
      | r' => String c r'
      end
  end.

(** [s.trim()] *)
Definition trim (s : string) : string := trimEnd (trimStart s).

(** [s.slice(0, n)] *)
Fixpoint slice0 (n : nat) (s : string) : string :=
  match n, s with
  | S k, String c r => String c (slice0 k r)
  | _, _ => EmptyString
  end.

(** [q] is a prefix of [s] *)
Fixpoint startsWith (s q : string) : bool :=
  match q, s with
  | EmptyString, _ => true
  | String a q', String b s' => if Ascii.eqb a b then startsWith s' q' else false
  | String _ _, EmptyString => false
  end.

(** [s.includes(q)] *)
Fixpoint includes (s q : string) : bool :=
  startsWith s q ||
  match s with
  | EmptyString => false
  | String _ r => includes r q
  end.

Definition isEmpty (s : string) : bool :=
  match s with
  | EmptyString => true
  | String _ _ => false
  end.

(** *** Dynamic values *)

(** The numbers that [ToBoolean] sends to [false]: both zeros print as
    [0]. *)
Definition isZeroOrNaN (text : string) : bool :=
  String.eqb text "0" || String.eqb text "NaN".

(** The numbers that [JSON.stringify] writes as [null]. *)
Definition nonFinite (text : string) : bool :=
  String.eqb text "Infinity" || String.eqb text "-Infinity" || String.eqb text "NaN".

(** [ToBoolean] *)
Definition truthy (v : JSON) : bool :=
  match v with
  | JNull => false
  | JBool b => b
  | JNum text => negb (isZeroOrNaN text)
  | JStr s => negb (isEmpty s)
  | JArr _ | JObj _ => true
  end.

(** ToBoolean of a value that may be [undefined]. *)
Definition truthy' (v : option JSON) : bool :=
  match v with
  | Some x => truthy x
  | None => false
  end.

Fixpoint lookupField (k : string) (fields : list (string * JSON)) : option JSON :=
  match fields with
  | [] => None
  | (k', v) :: rest => if String.eqb k k' then Some v else lookupField k rest
  end.

(** [v.k] for the data properties read by the program ([id], [elements],
    [type], [text], [data], [updatedAt]): reading from [null] throws, a
    primitive or an array has no such property. *)
Definition getProp (v : JSON) (k : string) : result (option JSON) :=
  match v with
  | JNull => Throw
  | JObj fields => Ok (lookupField k fields)
  | _ => Ok None
  end.

(** [v?.k] *)
Definition getOpt (v : JSON) (k : string) : option JSON :=
  match v with
  | JObj fields => lookupField k fields
  | _ => None
  end.

(** [typeof v === "object"] ([null] included, as in the language). *)
Definition isObjectType (v : JSON) : bool :=
  match v with
  | JNull | JArr _ | JObj _ => true
  | _ => false
  end.

(** [String(v)].  An object is converted by the [toString] it finds: a
    decoded object inherits the callable one of [Object.prototype] unless
    it has an own [toString] member, which is never callable; what is left
    is the inherited [valueOf], which returns the object, so the conversion
    ends in a [TypeError].  An array joins the conversions of its elements,
    [null] giving the empty text, and throws when one of them does. *)
Fixpoint toStr (v : JSON) : result string :=
  match v with
  | JNull => Ok "null"
  | JBool true => Ok "true"
  | JBool false => Ok "false"
  | JNum text => Ok text
  | JStr s => Ok s
  | JArr items =>
      (fix join (l : list JSON) : result string :=
         match l with
         | [] => Ok ""
         | x :: r =>
             bind (match x with JNull => Ok "" | _ => toStr x end) (fun sx =>
               match r with
               | [] => Ok sx
               | _ :: _ => bind (join r) (fun sr => Ok (sx +:+ "," +:+ sr))
               end)
         end) items
  | JObj fields =>
      match lookupField "toString" fields with
      | Some _ => Throw
      | None => Ok "[object Object]"
      end
  end.

(** *** [JSON.stringify] *)

Definition hexDigit (n : N) : ascii :=
  if (n <? 10)%N then ascii_of_N (48 + n) else ascii_of_N (87 + n).

Definition dquote : ascii := ascii_of_N 34.
Definition backslash : ascii := ascii_of_N 92.

(** One code unit inside a JSON string literal. *)
Definition escapeChar (c : ascii) : string :=
  let n := code c in
  if (n =? 34)%N then String backslash (String dquote EmptyString)
  else if (n =? 92)%N then String backslash (String backslash EmptyString)
  else if (n =? 8)%N then String backslash "b"
  else if (n =? 9)%N then String backslash "t"
  else if (n =? 10)%N then String backslash "n"
  else if (n =? 12)%N then String backslash "f"
  else if (n =? 13)%N then String backslash "r"
  else if (n <? 32)%N then
    String backslash
      ("u00" +:+ String (hexDigit (n / 16)) (String (hexDigit (n mod 16)) EmptyString))
  else String c EmptyString.

Fixpoint escape (s : string) : string :=
  match s with
  | EmptyString => EmptyString
  | String c r => escapeChar c +:+ escape r
  end.

Definition quote (s : string) : string :=
  String dquote (escape s +:+ String dquote EmptyString).

Fixpoint stringify (v : JSON) : string :=
  match v with
  | JNull => "null"
  | JBool true => "true"
  | JBool false => "false"
  | JNum text => if nonFinite text then "null" else text
  | JStr s => quote s
  | JArr items =>
      "[" +:+
      (fix elems (l : list JSON) : string :=
         match l with
         | [] => ""
         | x :: r =>
             match r with
             | [] => stringify x
             | _ :: _ => stringify x +:+ "," +:+ elems r
             end
         end) items +:+ "]"
  | JObj fields =>
      "{" +:+
      (fix members (l : list (string * JSON)) : string :=
         match l with
         | [] => ""
         | (k, x) :: r =>
             let m := quote k +:+ ":" +:+ stringify x in
             match r with
             | [] => m
             | _ :: _ => m +:+ "," +:+ members r
             end
         end) fields +:+ "}"
  end.

End JS.

Import JS.

(** ** The embedding page *)

(** Functions of the page that the program calls and does not define. *)
Class Host := {
  (** [decodeURIComponent]; [Throw] is its [URIError]. *)
  decodeURIComponent : string -> result string;
  encodeURIComponent : string -> string;
  (** [excalidrawRef.current.updateScene], which may reject the scene. *)
  updateScene : JSON -> result unit;
  (** [excalidrawRef.current.updateLibrary] *)
  updateLibrary : JSON -> result unit;
}.

Record Request := {
  url : string;
  method : string;
  credentials : string;
  headers : gmap string string;
  body : option string;
}.

(** Calls to the collaborators, as they are made. *)
Inductive Call :=
| Fetch (req : Request)
| UpdateScene (scene : JSON)
| UpdateLibrary (libraryItems : JSON)
| GetItem (key : string)
| SetItem (key value : string).

(** What a [fetch] settles to: a rejection, or a response with its [ok] flag
    and the outcome of [res.json()]. *)
Inductive FetchResult :=
| Rejected
| Responded (ok : bool) (json : result JSON).

(** ** Session: the addressing parameters (lines 34-43, 61-74) *)

Record Session := {
  projectId : option string;
  boardId : string;
  apiBase : string;
}.

Definition storageKey (s : Session) : string := "connectedCanvas:" +:+ boardId s.
Definition libraryStorageKey : string := "chirpulBoard:libraries:v1".
Definition libraryMetaStorageKey : string := "chirpulBoard:librariesMeta:v1".

(** The board endpoint of lines 84 and 174. *)
Definition boardUrl `{Host} (s : Session) (pid : string) : string :=
  apiBase s +:+ "/api/projects/" +:+ encodeURIComponent pid
    +:+ "/boards/" +:+ encodeURIComponent (boardId s).

(** ** Cookies (lines 22-31) *)

Module Cookie.

(** The capture group of the pattern: the longest run without a semicolon. *)
Fixpoint untilSemicolon (s : string) : string :=
  match s with
  | EmptyString => EmptyString
  | String c r => if Ascii.eqb c ";" then EmptyString else String c (untilSemicolon r)
  end.

Fixpoint stripPrefix (p s : string) : option string :=
  match p, s with
  | EmptyString, _ => Some s
  | String a p', String b s' => if Ascii.eqb a b then stripPrefix p' s' else None
  | String _ _, EmptyString => None
  end.

(** What follows the leftmost occurrence of [p] in [s]. *)
Fixpoint findAfter (p s : string) : option string :=
  match stripPrefix p s with
  | Some r => Some r
  | None =>
      match s with
      | EmptyString => None
      | String _ r => findAfter p r
      end
  end.

(** Group 1 of [document.cookie.match] on the pattern of line 26: [name]
    at the start of the string or after a semicolon and a space, then the
    equals sign, then the capture.  Line 25 escapes the metacharacters of
    [name], so the pattern matches [name] literally.  The leftmost match
    wins, and at the start of the string the start anchor is tried before
    the separator alternative. *)
Definition matchCookie (name cookie : string) : option string :=
  match stripPrefix (name +:+ "=") cookie with
  | Some r => Some (untilSemicolon r)
  | None => untilSemicolon <$> findAfter ("; " +:+ name +:+ "=") cookie
  end.

(** [getCookie(name)] in a page, where [document] is defined, with
    [document.cookie] either readable or throwing on access.  [None] is
    [null]. *)
Definition getCookie `{Host} (cookie : result string) (name : string) : option string :=
  catch
    (bind cookie (fun c =>
       match matchCookie name c with
       | Some raw => bind (decodeURIComponent raw) (fun v => Ok (Some v))
       | None => Ok None
       end))
    None.

End Cookie.

(** ** Bootstrap read and scene reconciliation (lines 52-54, 76-125, 388-400) *)

Module Reconcile.

Record State := {
  initialData : option JSON;
  lastUpdated : option string;
  libraryItems : JSON;
  excalidrawRef : bool;       (* [excalidrawRef.current] is set *)
  excalidrawReady : bool;
  sceneDepsChanged : bool;    (* a dependency of the scene effect changed
                                 since the effect last ran *)
  calls : list Call;
}.

(** The component after its first commit: nothing loaded, canvas not ready.
    With no Document the scene effect returned on its first guard. *)
Definition mounted (items : JSON) : State :=
  {| initialData := None; lastUpdated := None; libraryItems := items;
     excalidrawRef := false; excalidrawReady := false;
     sceneDepsChanged := false; calls := [] |}.

Definition record (c : Call) (st : State) : State :=
  {| initialData := initialData st; lastUpdated := lastUpdated st;
     libraryItems := libraryItems st;
     excalidrawRef := excalidrawRef st; excalidrawReady := excalidrawReady st;
     sceneDepsChanged := sceneDepsChanged st; calls := calls st ++ [c] |}.

(** [setInitialData(json.data)]: a freshly decoded object is a new
    reference, so the dependency always changes. *)
Definition setInitialData (d : JSON) (st : State) : State :=
  {| initialData := Some d; lastUpdated := lastUpdated st;
     libraryItems := libraryItems st;
     excalidrawRef := excalidrawRef st; excalidrawReady := excalidrawReady st;
     sceneDepsChanged := true; calls := calls st |}.

Definition setLastUpdated (s : string) (st : State) : State :=
  {| initialData := initialData st; lastUpdated := Some s;
     libraryItems := libraryItems st;
     excalidrawRef := excalidrawRef st; excalidrawReady := excalidrawReady st;
     sceneDepsChanged := sceneDepsChanged st; calls := calls st |}.

Definition setExcalidrawRef (st : State) : State :=
  {| initialData := initialData st; lastUpdated := lastUpdated st;
     libraryItems := libraryItems st;
     excalidrawRef := true; excalidrawReady := excalidrawReady st;
     sceneDepsChanged := sceneDepsChanged st; calls := calls st |}.

(** [setExcalidrawReady(true)]: setting the value it already has changes
    nothing. *)
Definition setExcalidrawReady (st : State) : State :=
  if excalidrawReady st then st
  else
    {| initialData := initialData st; lastUpdated := lastUpdated st;
       libraryItems := libraryItems st;
       excalidrawRef := excalidrawRef st; excalidrawReady := true;
       sceneDepsChanged := true; calls := calls st |}.

Definition clearSceneDeps (st : State) : State :=
  {| initialData := initialData st; lastUpdated := lastUpdated st;
     libraryItems := libraryItems st;
     excalidrawRef := excalidrawRef st; excalidrawReady := excalidrawReady st;
     sceneDepsChanged := false; calls := calls st |}.

(** The read issued by the bootstrap effect (lines 84-85). *)
Definition startBootstrap `{Host} (s : Session) (st : State) : State :=
  let pid := match projectId s with
             | Some p => if isEmpty p then "" else p
             | None => ""
             end in
  record (Fetch {| url := boardUrl s pid; method := "GET";
                   credentials := "include"; headers := ∅; body := None |}) st.

(** The rest of the bootstrap effect, run when the read settles
    (lines 85-107).  [cancelled] is the flag set by the effect's cleanup. *)
Definition bootstrapSettled (cancelled : bool) (r : FetchResult) (st : State) : State :=
  match r with
  | Rejected => st
  | Responded ok decoded =>
      if cancelled then st
      else if ok then
        let json := catch decoded JNull in
        let st1 :=
          match getOpt json "data" with
          | Some d => if truthy d && isObjectType d then setInitialData d st else st
          | None => st
          end in
        match getOpt json "updatedAt" with
        | Some u =>
            if truthy u then
              (* a throwing [String] is caught at line 105, after the
                 Document was set *)
              catch (bind (toStr u) (fun s => Ok (setLastUpdated s st1))) st1
            else st1
        | None => st1
        end
      else st
  end.

(** The scene effect (lines 116-125). *)
Definition sceneEffect `{Host} (st : State) : State :=
  match initialData st with
  | None => st
  | Some d =>
      if negb (excalidrawReady st) then st
      else if negb (excalidrawRef st) then st
      else
        let st' := record (UpdateScene d) st in
        catch (bind (updateScene d) (fun _ => Ok st')) st'
  end.

(** The [excalidrawAPI] callback (lines 389-399). *)
Definition onExcalidrawAPI `{Host} (st : State) : State :=
  let st1 := setExcalidrawReady (setExcalidrawRef st) in
  if truthy (libraryItems st) then
    let st2 := record (UpdateLibrary (libraryItems st)) st1 in
    catch (bind (updateLibrary (libraryItems st)) (fun _ => Ok st2)) st2
  else st1.

(** A commit: the scene effect runs when one of its dependencies
    [initialData], [excalidrawReady] changed since its last run. *)
Definition commit `{Host} (st : State) : State :=
  if sceneDepsChanged st then sceneEffect (clearSceneDeps st) else st.

Inductive Event :=
| BootstrapSettled (cancelled : bool) (r : FetchResult)
| CanvasReady
| Rerender.                     (* a render caused by other state *)

Definition step `{Host} (st : State) (e : Event) : State :=
  commit
    match e with
    | BootstrapSettled c r => bootstrapSettled c r st
    | CanvasReady => onExcalidrawAPI st
    | Rerender => st
    end.

Definition run `{Host} (st : State) (es : list Event) : State :=
  fold_left step es st.

(** The scenes handed to the scene-load command, in order. *)
Definition sceneLoads (st : State) : list JSON :=
  omap (fun c => match c with UpdateScene d => Some d | _ => None end) (calls st).

Definition storageReads (st : State) : list string :=
  omap (fun c => match c with GetItem k => Some k | _ => None end) (calls st).

End Reconcile.

(** ** Debounced autosave (lines 45, 76, 162-221) *)

Module Autosave.

Local Open Scope N_scope.

(** The arguments of a change notification, taken to be serialisable:
    [JSON.stringify] at line 195 does not throw on them. *)
Record Args := {
  elements : JSON;
  appState : JSON;
  files : JSON;
}.

(** A pending [window.setTimeout] callback; [payload] is what the closure
    created at line 170 captured. *)
Record Timer := {
  handle : nat;
  due : N;                      (* milliseconds *)
  payload : Args;
}.

Record Env := {
  session : Session;
  cookie : result string;       (* [document.cookie], or a throwing getter *)
}.

Record State := {
  viewModeEnabled : bool;
  isSaving : bool;
  lastUpdated : option string;
  saveTimer : option nat;       (* [saveTimer.current] *)
  now : N;
  nextHandle : nat;
  timers : list Timer;
  calls : list Call;
}.

Definition idle (viewMode : bool) : State :=
  {| viewModeEnabled := viewMode; isSaving := false; lastUpdated := None;
     saveTimer := None; now := 0; nextHandle := 1%nat; timers := [];
     calls := [] |}.

Definition quietPeriod : N := 1000.

Definition setSaveTimer (h : option nat) (st : State) : State :=
  {| viewModeEnabled := viewModeEnabled st; isSaving := isSaving st;
     lastUpdated := lastUpdated st; saveTimer := h; now := now st;
     nextHandle := nextHandle st; timers := timers st; calls := calls st |}.

Definition setIsSaving (b : bool) (st : State) : State :=
  {| viewModeEnabled := viewModeEnabled st; isSaving := b;
     lastUpdated := lastUpdated st; saveTimer := saveTimer st; now := now st;
     nextHandle := nextHandle st; timers := timers st; calls := calls st |}.

Definition setLastUpdated (s : string) (st : State) : State :=
  {| viewModeEnabled := viewModeEnabled st; isSaving := isSaving st;
     lastUpdated := Some s; saveTimer := saveTimer st; now := now st;
     nextHandle := nextHandle st; timers := timers st; calls := calls st |}.

Definition setViewModeEnabled (b : bool) (st : State) : State :=
  {| viewModeEnabled := b; isSaving := isSaving st;
     lastUpdated := lastUpdated st; saveTimer := saveTimer st; now := now st;
     nextHandle := nextHandle st; timers := timers st; calls := calls st |}.

Definition record (c : Call) (st : State) : State :=
  {| viewModeEnabled := viewModeEnabled st; isSaving := isSaving st;
     lastUpdated := lastUpdated st; saveTimer := saveTimer st; now := now st;
     nextHandle := nextHandle st; timers := timers st;
     calls := calls st ++ [c] |}.

(** [window.clearTimeout(h)] *)
Definition clearTimeout (h : nat) (st : State) : State :=
  {| viewModeEnabled := viewModeEnabled st; isSaving := isSaving st;
     lastUpdated := lastUpdated st; saveTimer := saveTimer st; now := now st;
     nextHandle := nextHandle st;
     timers := List.filter (fun t => negb (Nat.eqb (handle t) h)) (timers st);
     calls := calls st |}.

(** [window.setTimeout(callback, delay)]: the new handle and the state. *)
Definition setTimeout (a : Args) (delay : N) (st : State) : nat * State :=
  let h := nextHandle st in
  (h,
   {| viewModeEnabled := viewModeEnabled st; isSaving := isSaving st;
      lastUpdated := lastUpdated st; saveTimer := saveTimer st; now := now st;
      nextHandle := S h;
      timers := timers st ++ [{| handle := h; due := now st + delay; payload := a |}];
      calls := calls st |}).

(** [a || b] on values that are a string or [null]. *)
Definition orElse (a b : option string) : option string :=
  match a with
  | Some s => if isEmpty s then b else a
  | None => b
  end.

(** Lines 179-182. *)
Definition csrfToken `{Host} (env : Env) : option string :=
  orElse (Cookie.getCookie (cookie env) "csrfToken")
    (orElse (Cookie.getCookie (cookie env) "csrf-token")
       (Cookie.getCookie (cookie env) "csrf_token")).

(** Lines 175-188. *)
Definition buildHeaders `{Host} (env : Env) : gmap string string :=
  let headers : gmap string string := {[ "Content-Type" := "application/json" ]} in
  match csrfToken env with
  | Some tok => if isEmpty tok then headers else <[ "X-CSRF-Token" := tok ]> headers
  | None => headers
  end.

Definition bodyOf (a : Args) : string :=
  stringify (JObj [("elements", elements a); ("appState", appState a);
                   ("files", files a)]).

Definition writeRequest `{Host} (env : Env) (pid : string) (a : Args) : Request :=
  {| url := boardUrl (session env) pid; method := "POST";
     credentials := "include"; headers := buildHeaders env;
     body := Some (bodyOf a) |}.

(** The timer callback up to the point where [fetch] is called
    (lines 171-196). *)
Definition fire `{Host} (env : Env) (a : Args) (st : State) : State :=
  let st := setSaveTimer None st in
  match projectId (session env) with
  | None => st
  | Some pid =>
      if isEmpty pid then st
      else record (Fetch (writeRequest env pid a)) (setIsSaving true st)
  end.

(** The continuation of the write (lines 197-210); [clock] is
    [new Date().toISOString()] at that moment.  A [String] that throws
    rejects the promise of [then], which line 207 absorbs. *)
Definition saveSettled (r : FetchResult) (clock : string) (st : State) : State :=
  let st1 :=
    match r with
    | Responded true decoded =>
        match getOpt (catch decoded JNull) "updatedAt" with
        | Some u => if truthy u
                    then catch (bind (toStr u) (fun s => Ok (setLastUpdated s st))) st
                    else setLastUpdated clock st
        | None => setLastUpdated clock st
        end
    | _ => st
    end in
  setIsSaving false st1.

(** [handleChange] (lines 163-219). *)
Definition handleChange (a : Args) (st : State) : State :=
  if viewModeEnabled st then st
  else
    let st1 := match saveTimer st with
               | Some h => clearTimeout h st
               | None => st
               end in
    let '(h, st2) := setTimeout a quietPeriod st1 in
    setSaveTimer (Some h) st2.

(** Time passes: the callbacks that fall due run, earliest first.  Every
    timer of this program is set with the same delay, so [timers] is in
    order of [due]. *)
Definition elapse `{Host} (env : Env) (dt : N) (st : State) : State :=
  let t := now st + dt in
  let ready := List.filter (fun x => due x <=? t) (timers st) in
  let later := List.filter (fun x => negb (due x <=? t)) (timers st) in
  fold_left (fun s x => fire env (payload x) s) ready
    {| viewModeEnabled := viewModeEnabled st; isSaving := isSaving st;
       lastUpdated := lastUpdated st; saveTimer := saveTimer st; now := t;
       nextHandle := nextHandle st; timers := later; calls := calls st |}.

Inductive Event :=
| Change (a : Args)
| Elapse (dt : N)
| ToggleViewMode                                  (* line 359 *)
| SaveSettled (r : FetchResult) (clock : string).

Definition step `{Host} (env : Env) (st : State) (e : Event) : State :=
  match e with
  | Change a => handleChange a st
  | Elapse dt => elapse env dt st
  | ToggleViewMode => setViewModeEnabled (negb (viewModeEnabled st)) st
  | SaveSettled r clock => saveSettled r clock st
  end.

Definition run `{Host} (env : Env) (st : State) (es : list Event) : State :=
  fold_left (step env) es st.

(** The write requests issued so far. *)
Definition writes (st : State) : list Request :=
  omap (fun c => match c with Fetch r => Some r | _ => None end) (calls st).

(** A burst: the first notification, then each further one after its gap. *)
Definition burst (first : Args) (more : list (N * Args)) : list Event :=
  Change first :: flat_map (fun '(gap, a) => [Elapse gap; Change a]) more.

Definition lastArgs (first : Args) (more : list (N * Args)) : Args :=
  List.last (map snd more) first.

End Autosave.

(** ** Asset catalogue and starred set (lines 56-59, 127-160, 223-266) *)

Module Catalog.

Record Entry := {
  id : string;
  label : string;
  haystack : string;
  isStarred : bool;
}.

(** [`Item ${index + 1}`] *)
Definition placeholder (index : nat) : string := "Item " +:+ pretty (index + 1)%nat.

(** The predicate given to [find] (line 231).  [el] is tested first, so
    the property reads are never on [null]. *)
Definition isTextEl (el : JSON) : bool :=
  truthy el
  && match getOpt el "type" with
     | Some (JStr t) => String.eqb t "text"
     | _ => false
     end
  && match getOpt el "text" with
     | Some (JStr t) => negb (isEmpty (trim t))
     | _ => false
     end.

(** [(anyItem.elements || []).find(...)] (lines 230-232): reading from a
    [null] item throws, and so does calling [find] on a truthy value that
    is not an array. *)
Definition findTextEl (anyItem : JSON) : result (option JSON) :=
  bind (getProp anyItem "elements") (fun els =>
    match (if truthy' els then els else Some (JArr [])) with
    | Some (JArr l) => Ok (List.find isTextEl l)
    | _ => Throw
    end).

(** Lines 228-238. *)
Definition deriveLabel (index : nat) (anyItem : JSON) : string :=
  let label := placeholder index in
  catch
    (bind (findTextEl anyItem) (fun textEl =>
       match textEl with
       | Some el =>
           match getOpt el "text" with
           | Some t => if truthy t then bind (toStr t) (fun s => Ok (slice0 60 s))
                       else Ok label
           | None => Ok label
           end
       | None => Ok label
       end))
    label.

(** [starredLibraryIds.includes(id)] *)
Definition starred (ids : list string) (i : string) : bool :=
  existsb (String.eqb i) ids.

(** The callback of [libraryItems.map] (lines 225-242).  Line 227 reads
    [anyItem.id] and converts it outside the [try]. *)
Definition normalizeItem (starredLibraryIds : list string) (index : nat)
    (anyItem : JSON) : result Entry :=
  bind (getProp anyItem "id") (fun idv =>
  bind (match idv with
        | None | Some JNull => Ok (pretty index)
        | Some v => toStr v
        end) (fun i =>
    let l := deriveLabel index anyItem in
    Ok {| id := i; label := l; haystack := toLowerCase l;
          isStarred := starred starredLibraryIds i |})).

Fixpoint mapItems (starredLibraryIds : list string) (index : nat)
    (items : list JSON) : result (list Entry) :=
  match items with
  | [] => Ok []
  | item :: rest =>
      bind (normalizeItem starredLibraryIds index item) (fun e =>
      bind (mapItems starredLibraryIds (S index) rest) (fun es =>
      Ok (e :: es)))
  end.

(** [Number(b)] *)
Definition number (b : bool) : Z := if b then 1 else 0.

(** The comparator of line 245. *)
Definition compareFn (a b : Entry) : Z := number (isStarred b) - number (isStarred a).

(** [Array.prototype.sort] is a stable sort; insertion sort from the right
    is one.  [x] precedes everything in [l] in the input, so it stays in
    front of what it does not have to follow. *)
Fixpoint insertSorted {A} (cmp : A -> A -> Z) (x : A) (l : list A) : list A :=
  match l with
  | [] => [x]
  | y :: r => if cmp x y <=? 0 then x :: l else y :: insertSorted cmp x r
  end.

Definition sort {A} (cmp : A -> A -> Z) (l : list A) : list A :=
  fold_right (insertSorted cmp) [] l.

(** [normalizedLibraries] (lines 223-247). *)
Definition normalizedLibraries (libraryItems : JSON) (libraryQuery : string)
    (starredLibraryIds : list string) : result (list Entry) :=
  if negb (truthy libraryItems) then Ok []
  else
    match libraryItems with
    | JArr l =>
        bind (mapItems starredLibraryIds 0 l) (fun items =>
          let q := toLowerCase (trim libraryQuery) in
          let filtered :=
            if isEmpty q then items
            else List.filter (fun i => includes (haystack i) q) items in
          Ok (sort compareFn filtered))
    | _ => Throw
    end.

(** *** Local storage *)

Record Storage := {
  area : gmap string string;
  readable : bool;              (* [getItem] does not throw *)
  writable : bool;              (* [setItem] does not throw *)
}.

Definition getItem (k : string) (s : Storage) : result (option string) :=
  if readable s then Ok (area s !! k) else Throw.

Definition setItem (k v : string) (s : Storage) : result Storage :=
  if writable s
  then Ok {| area := <[ k := v ]> (area s); readable := readable s;
             writable := writable s |}
  else Throw.

Record State := {
  libraryItems : JSON;
  starredLibraryIds : list string;
  excalidrawRef : bool;
  localStorage : Storage;
  calls : list Call;
}.

Definition record (c : Call) (st : State) : State :=
  {| libraryItems := libraryItems st; starredLibraryIds := starredLibraryIds st;
     excalidrawRef := excalidrawRef st; localStorage := localStorage st;
     calls := calls st ++ [c] |}.

Definition setLibraryItems (v : JSON) (st : State) : State :=
  {| libraryItems := v; starredLibraryIds := starredLibraryIds st;
     excalidrawRef := excalidrawRef st; localStorage := localStorage st;
     calls := calls st |}.

Definition setStarredLibraryIds (ids : list string) (st : State) : State :=
  {| libraryItems := libraryItems st; starredLibraryIds := ids;
     excalidrawRef := excalidrawRef st; localStorage := localStorage st;
     calls := calls st |}.

Definition setLocalStorage (s : Storage) (st : State) : State :=
  {| libraryItems := libraryItems st; starredLibraryIds := starredLibraryIds st;
     excalidrawRef := excalidrawRef st; localStorage := s;
     calls := calls st |}.

(** The value persisted at line 257. *)
Definition metaRecord (ids : list string) : string :=
  stringify (JObj [("starredIds", JArr (map JStr ids))]).

(** The updater of line 251. *)
Definition toggled (i : string) (prev : list string) : list string :=
  if starred prev i
  then List.filter (fun x => negb (String.eqb x i)) prev
  else prev ++ [i].

(** [toggleStar] (lines 249-266). *)
Definition toggleStar (i : string) (st : State) : State :=
  let next := toggled i (starredLibraryIds st) in
  let v := metaRecord next in
  let st1 := record (SetItem libraryMetaStorageKey v) st in
  let st2 :=
    catch
      (bind (setItem libraryMetaStorageKey v (localStorage st1)) (fun s =>
         Ok (setLocalStorage s st1)))
      st1 in
  setStarredLibraryIds next st2.

(** [meta.starredIds.map((id) => String(id))] (line 145) *)
Fixpoint coerceIds (l : list JSON) : result (list string) :=
  match l with
  | [] => Ok []
  | x :: r =>
      bind (toStr x) (fun s =>
      bind (coerceIds r) (fun ss =>
      Ok (s :: ss)))
  end.

(** The start-up read of both caches (lines 127-151); [JSON_parse] is the
    page's [JSON.parse], [Throw] its [SyntaxError]. *)
Definition loadLibraryCache `{Host} (JSON_parse : string -> result JSON)
    (st : State) : State :=
  let st1 := record (GetItem libraryStorageKey) st in
  let st2 :=
    catch
      (bind (getItem libraryStorageKey (localStorage st1)) (fun raw =>
         match raw with
         | Some r =>
             if isEmpty r then Ok st1
             else
               bind (JSON_parse r) (fun parsed =>
                 let s := setLibraryItems parsed st1 in
                 if excalidrawRef s then
                   let s' := record (UpdateLibrary parsed) s in
                   Ok (catch (bind (updateLibrary parsed) (fun _ => Ok s')) s')
                 else Ok s)
         | None => Ok st1
         end))
      st1 in
  let st3 := record (GetItem libraryMetaStorageKey) st2 in
  catch
    (bind (getItem libraryMetaStorageKey (localStorage st3)) (fun raw =>
       match raw with
       | Some r =>
           if isEmpty r then Ok st3
           else
             bind (JSON_parse r) (fun meta =>
             bind (getProp meta "starredIds") (fun ids =>
               match ids with
               | Some (JArr l) =>
                   bind (coerceIds l) (fun ids' =>
                   Ok (setStarredLibraryIds ids' st3))
               | _ => Ok st3
               end))
       | None => Ok st3
       end))
    st3.

(** The keys read from local storage so far. *)
Definition storageReads (st : State) : list string :=
  omap (fun c => match c with GetItem k => Some k | _ => None end) (calls st).

End Catalog.

(** ** Reading back the starred record *)

Module Reader.

(** The value of a hexadecimal digit. *)
Definition hexValue (c : ascii) : option N :=
  let n := code c in
  if ((48 <=? n) && (n <=? 57))%N then Some (n - 48)%N
  else if ((97 <=? n) && (n <=? 102))%N then Some (n - 87)%N
  else if ((65 <=? n) && (n <=? 70))%N then Some (n - 55)%N
  else None.

(** The character that a two-character escape of the JSON grammar stands
    for, given the character after the backslash. *)
Definition unescape (e : ascii) : option ascii :=
  let n := code e in
  if (n =? 34)%N then Some dquote
  else if (n =? 92)%N then Some backslash
  else if (n =? 47)%N then Some e
  else if (n =? 98)%N then Some (ascii_of_N 8)
  else if (n =? 116)%N then Some (ascii_of_N 9)
  else if (n =? 110)%N then Some (ascii_of_N 10)
  else if (n =? 102)%N then Some (ascii_of_N 12)
  else if (n =? 114)%N then Some (ascii_of_N 13)
  else None.

Definition push (c : ascii) (r : option (string * string)) : option (string * string) :=
  match r with
  | Some (t, rest) => Some (String c t, rest)
  | None => None
  end.

(** A string literal of the JSON grammar after its opening quote: the
    string it denotes and the text after its closing quote.  A control
    character has to be escaped; an escape for a code unit above U+00FF is
    outside this development. *)
Fixpoint readString (s : string) : option (string * string) :=
  match s with
  | EmptyString => None
  | String c r =>
      if Ascii.eqb c dquote then Some (EmptyString, r)
      else if Ascii.eqb c backslash then
        match r with
        | String e r1 =>
            if Ascii.eqb e "u" then
              match r1 with
              | String h1 (String h2 (String h3 (String h4 r2))) =>
                  match hexValue h1, hexValue h2, hexValue h3, hexValue h4 with
                  | Some d1, Some d2, Some d3, Some d4 =>
                      let n := (((d1 * 16 + d2) * 16 + d3) * 16 + d4)%N in
                      if (n <? 256)%N then push (ascii_of_N n) (readString r2)
                      else None
                  | _, _, _, _ => None
                  end
              | _ => None
              end
            else
              match unescape e with
              | Some c' => push c' (readString r1)
              | None => None
              end
        | EmptyString => None
        end
      else if (code c <? 32)%N then None
      else push c (readString r)
  end.

(** The elements of a non-empty array of string literals, up to its
    closing bracket. *)
Fixpoint readStrings (fuel : nat) (s : string) : option (list string * string) :=
  match fuel, s with
  | S k, String c r =>
      if Ascii.eqb c dquote then
        match readString r with
        | Some (t, String c' rest) =>
            if Ascii.eqb c' "," then
              match readStrings k rest with
              | Some (ts, rest') => Some (t :: ts, rest')
              | None => None
              end
            else if Ascii.eqb c' "]" then Some ([t], rest)
            else None
        | _ => None
        end
      else None
  | _, _ => None
  end.

(** The elements of an array of strings, as [JSON.stringify] writes
    them. *)
Fixpoint elemsText (ids : list string) : string :=
  match ids with
  | [] => ""
  | x :: r =>
      match r with
      | [] => quote x
      | _ :: _ => quote x +:+ "," +:+ elemsText r
      end
  end.

(** The identifiers held by a text of the form written at line 257: an
    object whose one member [starredIds] is an array of string literals,
    without white space.  [None] is any other text. *)
Definition readStarredRecord (s : string) : option (list string) :=
  match Cookie.stripPrefix ("{" +:+ quote "starredIds" +:+ ":[") s with
  | Some rest =>
      if String.eqb rest "]}" then Some []
      else
        match readStrings (String.length rest) rest with
        | Some (ts, rest') => if String.eqb rest' "}" then Some ts else None
        | None => None
        end
  | None => None
  end.

End Reader.

(** ** Statements of the specification, in its own words *)

Module Spec.

Import Catalog.

(** The constituent sub-elements of a library entry. *)
Definition subElements (item : JSON) : list JSON :=
  match getOpt item "elements" with
  | Some (JArr l) => l
  | _ => []
  end.

(** The content of a sub-element flagged as textual with non-blank
    content. *)
Definition textOf (el : JSON) : option string :=
  match getOpt el "type", getOpt el "text" with
  | Some (JStr ty), Some (JStr t) =>
      if String.eqb ty "text" && negb (isEmpty (trim t)) then Some t else None
  | _, _ => None
  end.

Fixpoint firstText (els : list JSON) : option string :=
  match els with
  | [] => None
  | el :: rest =>
      match textOf el with
      | Some t => Some t
      | None => firstText rest
      end
  end.

(** The derived label: the first such text cut to 60 characters, or the
    positional placeholder. *)
Definition derivedLabel (index : nat) (item : JSON) : string :=
  match firstText (subElements item) with
  | Some t => slice0 60 t
  | None => placeholder index
  end.

(** The entries whose lowercase label contains the lowercase query. *)
Definition matching (query : string) (entries : list Entry) : list Entry :=
  List.filter (fun e => includes (toLowerCase (label e)) (toLowerCase query)) entries.

(** Starred first, catalogue order otherwise. *)
Definition starredFirst (entries : list Entry) : list Entry :=
  List.filter isStarred entries ++ List.filter (fun e => negb (isStarred e)) entries.

Definition presentationView (entries : list Entry) (query : string) : list Entry :=
  starredFirst (matching query entries).

(** The cookies that may carry the token, in priority order. *)
Definition tokenCookies : list string := ["csrfToken"; "csrf-token"; "csrf_token"].

Fixpoint firstNonEmpty (vs : list (option string)) : option string :=
  match vs with
  | [] => None
  | Some s :: rest => if isEmpty s then firstNonEmpty rest else Some s
  | None :: rest => firstNonEmpty rest
  end.

Definition jsonHeaders : gmap string string :=
  {[ "Content-Type" := "application/json" ]}.

(** The headers of a write: the token, when one is found, on top of the
    content type. *)
Definition writeHeaders `{Host} (cookie : result string) : gmap string string :=
  match firstNonEmpty (map (Cookie.getCookie cookie) tokenCookies) with
  | Some tok => <[ "X-CSRF-Token" := tok ]> jsonHeaders
  | None => jsonHeaders
  end.

(** A bootstrap read that fails: rejected, not OK, or undecodable. *)
Definition failed (r : FetchResult) : bool :=
  match r with
  | Rejected => true
  | Responded false _ => true
  | Responded true Throw => true
  | Responded true (Ok _) => false
  end.

(** The Document that a settled bootstrap read delivers, if any. *)
Definition delivered (e : Reconcile.Event) : option JSON :=
  match e with
  | Reconcile.BootstrapSettled false (Responded true (Ok body)) =>
      match getOpt body "data" with
      | Some d => if truthy d && isObjectType d then Some d else None
      | None => None
      end
  | _ => None
  end.

Fixpoint allWhite (s : string) : bool :=
  match s with
  | EmptyString => true
  | String c r => isWhite c && allWhite r
  end.

(** The values that [String] converts without throwing: those that are
    not an object with a member called [toString], nor an array holding
    such an object at any depth. *)
Fixpoint printable (v : JSON) : bool :=
  match v with
  | JArr items =>
      (fix all (l : list JSON) : bool :=
         match l with
         | [] => true
         | x :: r => printable x && all r
         end) items
  | JObj fields =>
      match lookupField "toString" fields with
      | Some _ => false
      | None => true
      end
  | _ => true
  end.

(** The record of a starred set, as the page's [JSON.stringify] writes
    it. *)
Definition starredRecord (ids : list string) : string :=
  stringify (JObj [("starredIds", JArr (map JStr ids))]).

End Spec.

(** ** A sample page, for evaluating the model *)

Module Sample.

(** Unreserved characters of [encodeURIComponent]. *)
Definition unreserved (c : ascii) : bool :=
  let n := code c in
  ((48 <=? n) && (n <=? 57) || (65 <=? n) && (n <=? 90) || (97 <=? n) && (n <=? 122)
   || (n =? 45) || (n =? 95) || (n =? 46) || (n =? 33) || (n =? 126) || (n =? 42)
   || (n =? 39) || (n =? 40) || (n =? 41))%N.

Definition upperHex (n : N) : ascii :=
  if (n <? 10)%N then ascii_of_N (48 + n) else ascii_of_N (55 + n).

Definition percent (n : N) : string :=
  String "%" (String (upperHex (n / 16)) (String (upperHex (n mod 16)) EmptyString)).

(** [encodeURIComponent] on code units below U+0100: the UTF-8 bytes of
    every character that is not unreserved, percent-escaped. *)
Fixpoint encode (s : string) : string :=
  match s with
  | EmptyString => EmptyString
  | String c r =>
      let n := code c in
      (if unreserved c then String c EmptyString
       else if (n <? 128)%N then percent n
       else percent (192 + n / 64) +:+ percent (128 + n mod 64)) +:+ encode r
  end.

(** [decodeURIComponent] on the texts that decode to code units below
    U+0100: an escaped byte below 128, or the two bytes that [encode]
    writes for a character from U+0080; any other character stands for
    itself.  A stray percent sign and a malformed sequence throw, as in the
    page.  The escape of a character above U+00FF, which the page decodes,
    has no value in this development and is rejected here. *)
Fixpoint decode (s : string) : result string :=
  match s with
  | EmptyString => Ok EmptyString
  | String c r =>
      if Ascii.eqb c "%" then
        match r with
        | String h1 (String h2 r1) =>
            match Reader.hexValue h1, Reader.hexValue h2 with
            | Some d1, Some d2 =>
                let n := (d1 * 16 + d2)%N in
                if (n <? 128)%N then
                  bind (decode r1) (fun t => Ok (String (ascii_of_N n) t))
                else if ((n =? 194) || (n =? 195))%N then
                  match r1 with
                  | String p (String k1 (String k2 r2)) =>
                      if Ascii.eqb p "%" then
                        match Reader.hexValue k1, Reader.hexValue k2 with
                        | Some e1, Some e2 =>
                            let m := (e1 * 16 + e2)%N in
                            if ((128 <=? m) && (m <=? 191))%N then
                              bind (decode r2) (fun t =>
                                Ok (String (ascii_of_N ((n - 192) * 64 + (m - 128))) t))
                            else Throw
                        | _, _ => Throw
                        end
                      else Throw
                  | _ => Throw
                  end
                else Throw
            | _, _ => Throw
            end
        | _ => Throw
        end
      else bind (decode r) (fun t => Ok (String c t))
  end.

(** A page whose canvas accepts every command. *)
Definition page : Host :=
  {| decodeURIComponent := decode; encodeURIComponent := encode;
     updateScene := fun _ => Ok tt; updateLibrary := fun _ => Ok tt |}.

(** A page whose canvas rejects every command. *)
Definition rejectingPage : Host :=
  {| decodeURIComponent := decode; encodeURIComponent := encode;
     updateScene := fun _ => Throw; updateLibrary := fun _ => Throw |}.

Definition text (t : string) : JSON :=
  JObj [("type", JStr "text"); ("text", JStr t)].

Definition item (i t : string) : JSON :=
  JObj [("id", JStr i); ("elements", JArr [text t])].

(** The catalogue [a("Cat"), b("Dog")]. *)
Definition catDog : JSON := JArr [item "a" "Cat"; item "b" "Dog"].

Definition scene (n : Z) : JSON :=
  JObj [("elements", JArr [JNum (pretty n)]); ("appState", JObj []); ("files", JObj [])].

Definition args (n : Z) : Autosave.Args :=
  {| Autosave.elements := JArr [JNum (pretty n)]; Autosave.appState := JObj [];
     Autosave.files := JObj [] |}.

Fixpoint repeatStr (n : nat) (s : string) : string :=
  match n with
  | O => EmptyString
  | S k => s +:+ repeatStr k s
  end.

(** Two entries that mention a needle: one after sixty other characters,
    one at once. *)
Definition haystacks : list JSON :=
  [item "long" (repeatStr 60 "a" +:+ "needle"); item "short" "Needle"].

Definition entryCat : Catalog.Entry :=
  {| Catalog.id := "a"; Catalog.label := "Cat"; Catalog.haystack := "cat";
     Catalog.isStarred := false |}.

Definition entryDog : Catalog.Entry :=
  {| Catalog.id := "b"; Catalog.label := "Dog"; Catalog.haystack := "dog";
     Catalog.isStarred := true |}.

Definition entryLong : Catalog.Entry :=
  {| Catalog.id := "long"; Catalog.label := repeatStr 60 "a";
     Catalog.haystack := repeatStr 60 "a"; Catalog.isStarred := false |}.

Definition entryShort : Catalog.Entry :=
  {| Catalog.id := "short"; Catalog.label := "Needle";
     Catalog.haystack := "needle"; Catalog.isStarred := false |}.

Definition shelf (ids : list string) (canWrite : bool) : Catalog.State :=
  {| Catalog.libraryItems := catDog; Catalog.starredLibraryIds := ids;
     Catalog.excalidrawRef := true;
     Catalog.localStorage :=
       {| Catalog.area := ∅; Catalog.readable := true;
          Catalog.writable := canWrite |};
     Catalog.calls := [] |}.

(** [JSON.parse] on the records written at line 257; this parser rejects
    every other text. *)
Definition parseMeta (s : string) : result JSON :=
  match Reader.readStarredRecord s with
  | Some ids => Ok (JObj [("starredIds", JArr (map JStr ids))])
  | None => Throw
  end.

Definition session : Session :=
  {| projectId := Some "p 1"; boardId := "default"; apiBase := "https://api.example" |}.

Definition env (cookie : result string) : Autosave.Env :=
  {| Autosave.session := session; Autosave.cookie := cookie |}.

End Sample.

(** ** Invariants of the two state machines *)

Module Inv.

(** Between events the scene effect is up to date: with the canvas
    [ready] or not and the Document [doc] loaded or not, the scene-load
    command was issued once if both hold and never otherwise. *)
Definition reconciled (ready : bool) (doc : option JSON) (st : Reconcile.State) : Prop :=
  Reconcile.initialData st = doc
  /\ Reconcile.sceneDepsChanged st = false
  /\ Reconcile.excalidrawReady st = ready
  /\ Reconcile.excalidrawRef st = ready
  /\ Reconcile.sceneLoads st
     = match doc with
       | Some d => if ready then [d] else []
       | None => []
       end.

Definition isReady (e : Reconcile.Event) : bool :=
  match e with
  | Reconcile.CanvasReady => true
  | _ => false
  end.

(** Every pending timer is the ticket that [saveTimer] refers to. *)
Definition ticketed (st : Autosave.State) : Prop :=
  forall t, In t (Autosave.timers st) ->
            Autosave.saveTimer st = Some (Autosave.handle t).

(** Right after a notification with arguments [a]: one ticket, a full
    quiet period away, and the writes issued so far are [w]. *)
Definition armed (a : Autosave.Args) (w : list Request) (st : Autosave.State) : Prop :=
  exists h,
    Autosave.timers st
    = [{| Autosave.handle := h;
          Autosave.due := (Autosave.now st + Autosave.quietPeriod)%N;
          Autosave.payload := a |}]
    /\ Autosave.saveTimer st = Some h
    /\ Autosave.viewModeEnabled st = false
    /\ Autosave.writes st = w.

End Inv.

(** ** Notions used for the catalogue *)

Module View.

(** The catalogue state when a page view starts (lines 56-59). *)
Definition opened (ref : bool) (storage : Catalog.Storage) : Catalog.State :=
  {| Catalog.libraryItems := JNull; Catalog.starredLibraryIds := [];
     Catalog.excalidrawRef := ref; Catalog.localStorage := storage;
     Catalog.calls := [] |}.

(** An entry with its flag taken from another starred set. *)
Definition restar (ids : list string) (e : Catalog.Entry) : Catalog.Entry :=
  {| Catalog.id := Catalog.id e; Catalog.label := Catalog.label e;
     Catalog.haystack := Catalog.haystack e;
     Catalog.isStarred := Catalog.starred ids (Catalog.id e) |}.

(** What the panel shows of an entry besides its star. *)
Definition shown (e : Catalog.Entry) : string * string :=
  (Catalog.id e, Catalog.label e).

(** An entry that the view cannot take: [null], or one whose id is a
    value that [String] does not convert. *)
Definition unusable (item : JSON) : Prop :=
  item = JNull
  \/ exists v, getOpt item "id" = Some v /\ Spec.printable v = false.

(** The raw item carries no id: the property is absent, or [null]. *)
Definition noId (item : JSON) : Prop :=
  getProp item "id" = Ok None \/ getProp item "id" = Ok (Some JNull).

(** The writes to local storage so far. *)
Definition storageWrites (st : Catalog.State) : list (string * string) :=
  omap (fun c => match c with SetItem k v => Some (k, v) | _ => None end)
    (Catalog.calls st).





End View.

(** ** Notions used for whole runs *)

Module Trace.

(** The project a write goes to: the identifier, when it is not empty. *)
Definition bound (env : Autosave.Env) : option string :=
  match projectId (Autosave.session env) with
  | Some pid => if isEmpty pid then None else Some pid
  | None => None
  end.

(** The writes of a list of tickets that fire. *)
Definition firedWrites `{Host} (env : Autosave.Env) (ready : list Autosave.Timer) :
    list Request :=
  match bound env with
  | Some pid => map (fun t => Autosave.writeRequest env pid (Autosave.payload t)) ready
  | None => []
  end.

(** The arguments of the notifications of a run, in order. *)
Definition notified (es : list Autosave.Event) : list Autosave.Args :=
  omap (fun e => match e with Autosave.Change a => Some a | _ => None end) es.

(** Notifications, each followed by a wait. *)
Definition spaced (l : list (Autosave.Args * N)) : list Autosave.Event :=
  flat_map (fun p => [Autosave.Change (fst p); Autosave.Elapse (snd p)]) l.

(** No ticket, or the one that [saveTimer] refers to. *)
Definition singleTicket (st : Autosave.State) : Prop :=
  Autosave.timers st = []
  \/ exists t, Autosave.timers st = [t]
               /\ Autosave.saveTimer st = Some (Autosave.handle t).

(** What is pending and what was written comes from the notifications
    [seen], and there is at most one of either per notification. *)
Definition accounted (seen : list Autosave.Args) (st : Autosave.State) : Prop :=
  Forall (fun t => In (Autosave.payload t) seen) (Autosave.timers st)
  /\ Forall (fun r => exists a, In a seen
                               /\ method r = "POST"
                               /\ credentials r = "include"
                               /\ body r = Some (Autosave.bodyOf a))
       (Autosave.writes st)
  /\ (length (Autosave.writes st) + length (Autosave.timers st) <= length seen)%nat.

(** The catalogues handed to the canvas by the readiness callback. *)
Definition libraryPushes (st : Reconcile.State) : list JSON :=
  omap (fun c => match c with UpdateLibrary l => Some l | _ => None end)
    (Reconcile.calls st).

(** How often the canvas reported ready. *)
Definition readyCount (es : list Reconcile.Event) : nat :=
  length (List.filter Inv.isReady es).

(** The Documents that the events of a run deliver, in order. *)
Definition documents (es : list Reconcile.Event) : list JSON :=
  omap Spec.delivered es.

(** After a run that delivered [docs], with the canvas [ready] or not: the
    Document held is the latest, the scenes loaded were delivered, in that
    order and each delivery at most once, the latest is the last one loaded
    once the canvas is ready, and nothing is loaded before. *)
Definition following (ready : bool) (docs : list JSON) (st : Reconcile.State) : Prop :=
  Reconcile.initialData st = last docs
  /\ Reconcile.sceneDepsChanged st = false
  /\ Reconcile.excalidrawReady st = ready
  /\ Reconcile.excalidrawRef st = ready
  /\ Reconcile.sceneLoads st `sublist_of` docs
  /\ (ready = true -> last (Reconcile.sceneLoads st) = last docs)
  /\ (ready = false -> Reconcile.sceneLoads st = []).

End Trace.

(** * Properties *)

(** ** Host values *)

Section HostFacts.

Lemma includes_empty (s : string) : includes s "" = true.
Proof. destruct s; reflexivity. Qed.

Lemma trim_empty_inv (t : string) : isEmpty (trim t) = false -> isEmpty t = false.
Proof. destruct t; [discriminate | reflexivity]. Qed.

Lemma trimStart_allWhite (s : string) : Spec.allWhite s = true -> trimStart s = "".
Proof.
  induction s as [|c r IH]; simpl; [reflexivity|].
  intros [Hc Hr]%andb_prop. rewrite Hc. auto.
Qed.

Lemma trim_allWhite (s : string) : Spec.allWhite s = true -> trim s = "".
Proof. intros Hs. unfold trim. rewrite trimStart_allWhite by assumption. reflexivity. Qed.

Lemma isEmpty_true (s : string) : isEmpty s = true -> s = "".
Proof. destruct s; [reflexivity | discriminate]. Qed.

Lemma slice0_length (n : nat) (s : string) :
  String.length (slice0 n s) = Nat.min n (String.length s).
Proof.
  revert s. induction n as [|n IH]; intros [|c r]; simpl; try reflexivity.
  rewrite IH. reflexivity.
Qed.

Lemma catch_same {A B} (r : result A) (x : B) : catch (bind r (fun _ => Ok x)) x = x.
Proof. destruct r; reflexivity. Qed.

(** [String] throws exactly on the values that are not printable. *)
Lemma toStr_printable :
  forall v : JSON,
    if Spec.printable v then exists s, toStr v = Ok s else toStr v = Throw.
Proof.
  fix IH 1. intros [| [] | n | s | items | fields]; simpl; eauto.
  - revert items. fix IHl 1. intros [|x r]; [simpl; eauto|].
    pose proof (IH x) as Hx. pose proof (IHl r) as Hr. clear IH IHl.
    cbv beta iota in Hr |- *.
    destruct (Spec.printable x).
    + destruct Hx as [sx Hx].
      assert (Hel : exists sx', match x with JNull => Ok "" | _ => toStr x end = Ok sx').
      { destruct x; eauto. }
      destruct Hel as [sx' ->]. simpl.
      destruct r as [|y r]; [eauto|].
      destruct ((fix all (l : list JSON) : bool :=
                   match l with
                   | [] => true
                   | x0 :: r0 => Spec.printable x0 && all r0
                   end) (y :: r)).
      * destruct Hr as [sr ->]. simpl. eauto.
      * rewrite Hr. reflexivity.
    + assert (Hel : match x with JNull => Ok "" | _ => toStr x end = Throw).
      { destruct x; try exact Hx; discriminate. }
      simpl. rewrite Hel. reflexivity.
  - destruct (lookupField "toString" fields); eauto.
Qed.

Lemma toStr_throws (v : JSON) : toStr v = Throw <-> Spec.printable v = false.
Proof.
  pose proof (toStr_printable v) as H. destruct (Spec.printable v).
  - destruct H as [s ->]. split; discriminate.
  - tauto.
Qed.

Lemma toStr_prints (v : JSON) : (exists s, toStr v = Ok s) <-> Spec.printable v = true.
Proof.
  pose proof (toStr_printable v) as H. destruct (Spec.printable v).
  - tauto.
  - rewrite H. split; [intros [s Hs]|]; discriminate.
Qed.

(** The sample decoder undoes the sample encoder. *)
Lemma decode_encode (s : string) : Sample.decode (Sample.encode s) = Ok s.
Proof.
  induction s as [|c s IH]; [reflexivity|].
  transitivity (bind (Sample.decode (Sample.encode s)) (fun t => Ok (String c t)));
    [|rewrite IH; reflexivity].
  destruct c as [[] [] [] [] [] [] [] []]; reflexivity.
Qed.

End HostFacts.

(** ** The text of a starred record *)

Section ReaderFacts.
Import Reader.

Lemma string_app_assoc (a b c : string) : (a +:+ b) +:+ c = a +:+ (b +:+ c).
Proof. induction a as [|x a IH]; [reflexivity|]. change (String x ((a +:+ b) +:+ c) = String x (a +:+ (b +:+ c))). rewrite IH. reflexivity. Qed.

Lemma readString_escapeChar (c : ascii) (rest : string) :
  readString (escapeChar c +:+ rest) = push c (readString rest).
Proof.
  destruct c as [[] [] [] [] [] [] [] []]; reflexivity.
Qed.

Lemma readString_escape (s rest : string) :
  readString (escape s +:+ String dquote rest) = Some (s, rest).
Proof.
  induction s as [|c s IH].
  - reflexivity.
  - change (escape (String c s)) with (escapeChar c +:+ escape s).
    rewrite string_app_assoc, readString_escapeChar, IH. reflexivity.
Qed.

Lemma stringify_strings (ids : list string) :
  stringify (JArr (map JStr ids)) = "[" +:+ elemsText ids +:+ "]".
Proof.
  unfold stringify. f_equal. f_equal.
  induction ids as [|x [|y r] IH]; try reflexivity.
  change (quote x +:+ "," +:+
          (fix elems (l : list JSON) : string :=
             match l with
             | [] => ""
             | x0 :: r0 =>
                 match r0 with
                 | [] => stringify x0
                 | _ :: _ => stringify x0 +:+ "," +:+ elems r0
                 end
             end) (map JStr (y :: r))
          = quote x +:+ "," +:+ elemsText (y :: r)).
  rewrite <- IH. reflexivity.
Qed.

Lemma starredRecord_text (ids : list string) :
  Spec.starredRecord ids
  = ("{" +:+ quote "starredIds" +:+ ":[") +:+ elemsText ids +:+ "]}".
Proof.
  unfold Spec.starredRecord.
  change (stringify (JObj [("starredIds", JArr (map JStr ids))]))
    with ("{" +:+ (quote "starredIds" +:+ ":" +:+ stringify (JArr (map JStr ids))) +:+ "}").
  rewrite stringify_strings. rewrite !string_app_assoc. reflexivity.
Qed.

Lemma stripPrefix_app (p s : string) : Cookie.stripPrefix p (p +:+ s) = Some s.
Proof.
  induction p as [|c p IH]; [destruct s; reflexivity|].
  change (String c p +:+ s) with (String c (p +:+ s)). simpl.
  rewrite Ascii.eqb_refl. exact IH.
Qed.

Lemma string_length_app (a b : string) :
  String.length (a +:+ b) = (String.length a + String.length b)%nat.
Proof.
  induction a as [|c a IH]; [reflexivity|].
  change (String c a +:+ b) with (String c (a +:+ b)). simpl. rewrite IH. reflexivity.
Qed.

Lemma elemsText_length (ids : list string) :
  (length ids <= String.length (elemsText ids))%nat.
Proof.
  induction ids as [|x [|y r] IH]; [simpl; lia | simpl; lia |].
  change (elemsText (x :: y :: r)) with (quote x +:+ "," +:+ elemsText (y :: r)).
  rewrite !string_length_app.
  change (String.length (quote x)) with (S (String.length (escape x +:+ String dquote ""))).
  simpl length in *. lia.
Qed.

Lemma readStrings_elems (ids : list string) :
  ids <> [] ->
  forall (fuel : nat) (rest : string),
    (length ids <= fuel)%nat ->
    readStrings fuel (elemsText ids +:+ String "]" rest) = Some (ids, rest).
Proof.
  induction ids as [|x [|y r] IH]; intros Hne fuel rest Hfuel; [contradiction | |].
  - destruct fuel as [|k]; [simpl in Hfuel; lia|].
    change (elemsText [x] +:+ String "]" rest)
      with (String dquote ((escape x +:+ String dquote "") +:+ String "]" rest)).
    rewrite string_app_assoc.
    change (String dquote "" +:+ String "]" rest) with (String dquote (String "]" rest)).
    simpl. rewrite readString_escape. reflexivity.
  - destruct fuel as [|k]; [simpl in Hfuel; lia|].
    change (elemsText (x :: y :: r) +:+ String "]" rest)
      with (String dquote ((escape x +:+ String dquote "") +:+ "," +:+ elemsText (y :: r))
            +:+ String "]" rest).
    change (String dquote ((escape x +:+ String dquote "") +:+ "," +:+ elemsText (y :: r))
            +:+ String "]" rest)
      with (String dquote (((escape x +:+ String dquote "") +:+ "," +:+ elemsText (y :: r))
            +:+ String "]" rest)).
    rewrite !string_app_assoc.
    change (String dquote "" +:+ "," +:+ elemsText (y :: r) +:+ String "]" rest)
      with (String dquote (String "," (elemsText (y :: r) +:+ String "]" rest))).
    simpl readStrings. rewrite readString_escape. simpl.
    rewrite IH; [reflexivity | discriminate | simpl in *; lia].
Qed.

(** What was written is read back: the text of a starred record holds
    exactly its identifiers, in order. *)
Lemma readStarredRecord_written (ids : list string) :
  readStarredRecord (Spec.starredRecord ids) = Some ids.
Proof.
  rewrite starredRecord_text. unfold readStarredRecord.
  rewrite stripPrefix_app.
  destruct ids as [|x r]; [reflexivity|].
  assert (Hne : String.eqb (elemsText (x :: r) +:+ "]}") "]}" = false).
  { destruct r; reflexivity. }
  rewrite Hne.
  change "]}" with (String "]" "}").
  rewrite readStrings_elems; [reflexivity | discriminate |].
  rewrite string_length_app. pose proof (elemsText_length (x :: r)). lia.
Qed.

Lemma parseMeta_written (ids : list string) :
  Sample.parseMeta (Spec.starredRecord ids) = Ok (JObj [("starredIds", JArr (map JStr ids))]).
Proof. unfold Sample.parseMeta. rewrite readStarredRecord_written. reflexivity. Qed.

End ReaderFacts.

(** ** The catalogue view *)

Section CatalogFacts.

Import Catalog.

Lemma starred_In (ids : list string) (i : string) : starred ids i = true <-> In i ids.
Proof.
  unfold starred. rewrite existsb_exists. split.
  - intros (x & Hx & Heq). apply String.eqb_eq in Heq. congruence.
  - intros Hi. exists i. split; [assumption | apply String.eqb_refl].
Qed.

(** A starred entry goes to the front. *)
Lemma insertSorted_starred (x : Entry) (l : list Entry) :
  isStarred x = true -> insertSorted compareFn x l = x :: l.
Proof.
  intros Hx. destruct l as [|y r]; simpl; [reflexivity|].
  unfold compareFn. rewrite Hx. destruct (isStarred y); reflexivity.
Qed.

(** An entry that is not starred passes the starred block and stops. *)
Lemma insertSorted_unstarred (x : Entry) (a b : list Entry) :
  isStarred x = false ->
  Forall (fun e => isStarred e = true) a ->
  Forall (fun e => isStarred e = false) b ->
  insertSorted compareFn x (a ++ b) = a ++ x :: b.
Proof.
  intros Hx Ha Hb. induction Ha as [|y a Hy Ha IH]; simpl.
  - destruct Hb as [|z b Hz Hb]; simpl; [reflexivity|].
    unfold compareFn. rewrite Hx, Hz. reflexivity.
  - unfold compareFn at 1. rewrite Hx, Hy. simpl. f_equal. exact IH.
Qed.

Lemma filter_starred_all (l : list Entry) :
  Forall (fun e => isStarred e = true) (List.filter isStarred l).
Proof.
  apply List.Forall_forall. intros e He. apply List.filter_In in He. tauto.
Qed.

Lemma filter_unstarred_all (l : list Entry) :
  Forall (fun e => isStarred e = false) (List.filter (fun e => negb (isStarred e)) l).
Proof.
  apply List.Forall_forall. intros e He. apply List.filter_In in He.
  destruct He as [_ He]. apply negb_true_iff in He. exact He.
Qed.

(** The host's stable sort under the comparator of line 245 is the stable
    partition by the starred flag. *)
Lemma sort_starredFirst (l : list Entry) : sort compareFn l = Spec.starredFirst l.
Proof.
  unfold sort, Spec.starredFirst. induction l as [|x l IH]; simpl; [reflexivity|].
  rewrite IH. destruct (isStarred x) eqn:Hx; simpl.
  - apply insertSorted_starred. exact Hx.
  - apply insertSorted_unstarred;
      [exact Hx | apply filter_starred_all | apply filter_unstarred_all].
Qed.

(** *** Labels *)

(** The predicate of line 231 accepts exactly the sub-elements that carry
    a non-blank text. *)
Lemma isTextEl_textOf (el : JSON) :
  match Spec.textOf el with
  | Some t => isTextEl el = true /\ getOpt el "text" = Some (JStr t) /\ isEmpty t = false
  | None => isTextEl el = false
  end.
Proof.
  unfold Spec.textOf, isTextEl.
  destruct el as [| b | n | s | l | fields]; simpl;
    try (rewrite ?andb_false_r; reflexivity).
  destruct (lookupField "type" fields) as [[| | | ty | |]|]; try reflexivity.
  destruct (lookupField "text" fields) as [[| | | t | |]|];
    try (rewrite ?andb_false_r; reflexivity).
  destruct (String.eqb ty "text"); simpl; [|reflexivity].
  destruct (isEmpty (trim t)) eqn:Ht; simpl; [reflexivity|].
  repeat split. apply trim_empty_inv. exact Ht.
Qed.

Lemma find_firstText (label : string) (l : list JSON) :
  match List.find isTextEl l with
  | Some el =>
      match getOpt el "text" with
      | Some t => if truthy t then bind (toStr t) (fun s => Ok (slice0 60 s))
                  else Ok label
      | None => Ok label
      end
  | None => Ok label
  end
  = Ok match Spec.firstText l with
       | Some t => slice0 60 t
       | None => label
       end.
Proof.
  induction l as [|el l IH]; simpl; [reflexivity|].
  pose proof (isTextEl_textOf el) as Hel.
  destruct (Spec.textOf el) as [t|].
  - destruct Hel as (-> & -> & Ht). simpl. rewrite Ht. reflexivity.
  - rewrite Hel. exact IH.
Qed.

Lemma deriveLabel_derivedLabel (index : nat) (item : JSON) :
  deriveLabel index item = Spec.derivedLabel index item.
Proof.
  unfold deriveLabel, Spec.derivedLabel, Spec.subElements, findTextEl.
  destruct item as [| b | n | s | l | fields]; try reflexivity.
  simpl getProp. simpl getOpt. simpl bind.
  destruct (lookupField "elements" fields) as [v|]; [|reflexivity].
  destruct v as [| b | n | s | l | fs]; simpl;
    try reflexivity;
    try (destruct b; reflexivity);
    try (destruct (isZeroOrNaN n); reflexivity);
    try (destruct (isEmpty s); reflexivity).
  rewrite find_firstText. reflexivity.
Qed.

(** *** The mapped entries *)

Lemma mapItems_lookup (ids : list string) (items : list JSON) :
  forall (start : nat) (entries : list Entry),
    mapItems ids start items = Ok entries ->
    forall (k : nat) (item : JSON),
      items !! k = Some item ->
      exists e, entries !! k = Some e
                /\ normalizeItem ids (start + k) item = Ok e.
Proof.
  induction items as [|x items IH]; intros start entries Hmap k item Hk.
  - destruct k; discriminate.
  - simpl in Hmap.
    destruct (normalizeItem ids start x) as [e|] eqn:He; [|discriminate].
    simpl in Hmap.
    destruct (mapItems ids (S start) items) as [es|] eqn:Hes; [|discriminate].
    simpl in Hmap. injection Hmap as <-.
    destruct k as [|k]; simpl in Hk.
    + injection Hk as <-. exists e. rewrite Nat.add_0_r. split; [reflexivity | exact He].
    + destruct (IH _ _ Hes k item Hk) as (e' & Hl & Hn).
      exists e'. split; [exact Hl|].
      replace (start + S k)%nat with (S start + k)%nat by lia. exact Hn.
Qed.

Lemma normalizeItem_fields (ids : list string) (index : nat) (item : JSON) (e : Entry) :
  normalizeItem ids index item = Ok e ->
  label e = deriveLabel index item
  /\ haystack e = toLowerCase (label e)
  /\ isStarred e = starred ids (id e).
Proof.
  unfold normalizeItem. destruct (getProp item "id") as [idv|]; simpl; [|discriminate].
  destruct (match idv with
            | Some JNull | None => Ok (pretty index)
            | Some v => toStr v
            end) as [i|]; simpl; [|discriminate].
  intros [= <-]. simpl. auto.
Qed.

Lemma mapItems_fields (ids : list string) (items : list JSON) :
  forall (start : nat) (entries : list Entry),
    mapItems ids start items = Ok entries ->
    Forall (fun e => haystack e = toLowerCase (label e)
                     /\ isStarred e = starred ids (id e)) entries.
Proof.
  induction items as [|x items IH]; intros start entries Hmap; simpl in Hmap.
  - injection Hmap as <-. constructor.
  - destruct (normalizeItem ids start x) as [e|] eqn:He; [|discriminate].
    simpl in Hmap.
    destruct (mapItems ids (S start) items) as [es|] eqn:Hes; [|discriminate].
    simpl in Hmap. injection Hmap as <-.
    constructor; [|eapply IH; exact Hes].
    apply normalizeItem_fields in He. tauto.
Qed.

(** The filter of line 244, on entries whose haystack is their lowercase
    label, keeps the entries that match the trimmed query. *)
Lemma filtered_matching (entries : list Entry) (query : string) :
  Forall (fun e => haystack e = toLowerCase (label e)) entries ->
  (let q := toLowerCase (trim query) in
   if isEmpty q then entries
   else List.filter (fun i => includes (haystack i) q) entries)
  = Spec.matching (trim query) entries.
Proof.
  intros Hall. unfold Spec.matching. cbv zeta.
  destruct (isEmpty (toLowerCase (trim query))) eqn:Hq.
  - apply isEmpty_true in Hq. rewrite Hq.
    induction Hall as [|e es He Hes IH]; simpl; [reflexivity|].
    rewrite includes_empty. f_equal. exact IH.
  - induction Hall as [|e es He Hes IH]; simpl; [reflexivity|].
    rewrite He, IH. reflexivity.
Qed.

Lemma normalizedLibraries_view (items : list JSON) (query : string) (ids : list string) :
  normalizedLibraries (JArr items) query ids
  = bind (mapItems ids 0 items) (fun entries =>
      Ok (Spec.presentationView entries (trim query))).
Proof.
  unfold normalizedLibraries. simpl truthy. simpl negb. cbv iota.
  destruct (mapItems ids 0 items) as [entries|] eqn:Hmap; [|reflexivity].
  simpl bind. f_equal. rewrite sort_starredFirst. unfold Spec.presentationView.
  f_equal. apply filtered_matching.
  eapply List.Forall_impl; [|eapply mapItems_fields; exact Hmap].
  simpl. tauto.
Qed.

Lemma view_members (entries : list Entry) (query : string) (e : Entry) :
  In e (Spec.presentationView entries query) ->
  In e entries /\ includes (toLowerCase (label e)) (toLowerCase query) = true.
Proof.
  unfold Spec.presentationView, Spec.starredFirst, Spec.matching.
  intros He. apply List.in_app_or in He.
  destruct He as [He | He]; apply List.filter_In in He; destruct He as [He _];
    apply List.filter_In in He; exact He.
Qed.

(** *** The starred set *)

Lemma toggled_self (i : string) (l : list string) : In i (toggled i l) <-> ~ In i l.
Proof.
  unfold toggled. destruct (starred l i) eqn:Hs.
  - apply starred_In in Hs. split.
    + intros Hi. apply List.filter_In in Hi. destruct Hi as [_ Hi].
      rewrite String.eqb_refl in Hi. discriminate.
    + intros Hn. contradiction.
  - assert (Hn : ~ In i l) by (rewrite <- starred_In, Hs; discriminate).
    split; [intros _; exact Hn|]. intros _. apply List.in_or_app. right. left. reflexivity.
Qed.

Lemma toggled_other (i j : string) (l : list string) :
  j <> i -> (In j (toggled i l) <-> In j l).
Proof.
  intros Hji. unfold toggled. destruct (starred l i).
  - rewrite List.filter_In. apply String.eqb_neq in Hji. rewrite Hji. simpl. tauto.
  - rewrite List.in_app_iff. simpl. split; [|tauto].
    intros [H | [H | []]]; [exact H | congruence].
Qed.

Lemma toggled_twice_members (i : string) (l : list string) (j : string) :
  In j (toggled i (toggled i l)) <-> In j l.
Proof.
  destruct (String.eqb_spec j i) as [-> | Hji].
  - rewrite toggled_self, toggled_self. destruct (starred l i) eqn:Hs.
    + apply starred_In in Hs. tauto.
    + assert (Hn : ~ In i l) by (rewrite <- starred_In, Hs; discriminate). tauto.
  - rewrite !toggled_other by exact Hji. reflexivity.
Qed.

Lemma filter_absent (i : string) (l : list string) :
  ~ In i l -> List.filter (fun x => negb (String.eqb x i)) l = l.
Proof.
  induction l as [|x l IH]; simpl; [reflexivity|]. intros Hn.
  destruct (String.eqb_spec x i) as [-> | Hx]; simpl.
  - exfalso. apply Hn. left. reflexivity.
  - f_equal. apply IH. tauto.
Qed.

(** A toggle on an id that is absent is undone exactly by the next one. *)
Lemma toggled_twice_absent (i : string) (l : list string) :
  ~ In i l -> toggled i (toggled i l) = l.
Proof.
  intros Hn.
  assert (Hs : starred l i = false).
  { destruct (starred l i) eqn:Hs; [|reflexivity]. apply starred_In in Hs. contradiction. }
  unfold toggled. rewrite Hs.
  assert (Hs' : starred (l ++ [i]) i = true).
  { apply starred_In. apply List.in_or_app. right. left. reflexivity. }
  rewrite Hs'. rewrite List.filter_app. simpl. rewrite String.eqb_refl. simpl.
  rewrite filter_absent by exact Hn. apply List.app_nil_r.
Qed.

(** On an id that is present the two toggles move it to the end. *)
Lemma toggled_twice_present (i : string) (l : list string) :
  In i l ->
  toggled i (toggled i l) = List.filter (fun x => negb (String.eqb x i)) l ++ [i].
Proof.
  intros Hi. apply starred_In in Hi. unfold toggled. rewrite Hi.
  destruct (starred (List.filter _ l) i) eqn:Hs; [|reflexivity].
  apply starred_In in Hs. apply List.filter_In in Hs. destruct Hs as [_ Hs].
  rewrite String.eqb_refl in Hs. discriminate.
Qed.

Lemma toggleStar_ids (i : string) (st : State) :
  starredLibraryIds (toggleStar i st) = toggled i (starredLibraryIds st).
Proof. unfold toggleStar, setItem. simpl. destruct (writable (localStorage st)); reflexivity. Qed.

Lemma toggleStar_calls (i : string) (st : State) :
  calls (toggleStar i st)
  = calls st ++ [SetItem libraryMetaStorageKey (metaRecord (toggled i (starredLibraryIds st)))].
Proof. unfold toggleStar, setItem. simpl. destruct (writable (localStorage st)); reflexivity. Qed.

Lemma toggleStar_stored (i : string) (st : State) :
  writable (localStorage st) = true ->
  area (localStorage (toggleStar i st)) !! libraryMetaStorageKey
  = Some (metaRecord (toggled i (starredLibraryIds st)))
  /\ writable (localStorage (toggleStar i st)) = true.
Proof.
  intros Hw. unfold toggleStar, setItem. simpl. rewrite Hw. simpl.
  split; [apply lookup_insert_eq | reflexivity].
Qed.

Lemma toggleStar_storage_failure (i : string) (st : State) :
  writable (localStorage st) = false ->
  localStorage (toggleStar i st) = localStorage st.
Proof. intros Hw. unfold toggleStar, setItem. simpl. rewrite Hw. reflexivity. Qed.

(** *** The start-up read *)

Lemma shelf_reads_record (c : Call) (st : State) :
  storageReads (record c st)
  = storageReads st ++ match c with GetItem k => [k] | _ => [] end.
Proof. unfold storageReads. simpl. rewrite omap_app. destruct c; reflexivity. Qed.

(** At start-up the two catalogue keys are read, once each, whatever the
    storage holds and whatever the parser and the canvas do. *)
Lemma loadLibraryCache_reads `{Host} (parse : string -> result JSON) (st : State) :
  storageReads (loadLibraryCache parse st)
  = storageReads st ++ [libraryStorageKey; libraryMetaStorageKey].
Proof.
  unfold loadLibraryCache.
  set (st1 := record (GetItem libraryStorageKey) st).
  set (st2 := catch _ st1).
  assert (H2 : storageReads st2 = storageReads st ++ [libraryStorageKey]).
  { assert (H1 : storageReads st1 = storageReads st ++ [libraryStorageKey])
      by apply shelf_reads_record.
    subst st2. destruct (getItem libraryStorageKey (localStorage st1)) as [[r|]|];
      simpl; try exact H1.
    destruct (isEmpty r); simpl; [exact H1|].
    destruct (parse r) as [parsed|]; simpl; [|exact H1].
    destruct (excalidrawRef st); simpl; [|exact H1].
    rewrite catch_same, shelf_reads_record, app_nil_r. exact H1. }
  set (st3 := record (GetItem libraryMetaStorageKey) st2).
  assert (H3 : storageReads st3 = storageReads st ++ [libraryStorageKey; libraryMetaStorageKey]).
  { subst st3. rewrite shelf_reads_record, H2, <- app_assoc. reflexivity. }
  destruct (getItem libraryMetaStorageKey (localStorage st3)) as [[r|]|];
    simpl; try exact H3.
  destruct (isEmpty r); simpl; [exact H3|].
  destruct (parse r) as [meta|]; simpl; [|exact H3].
  destruct (getProp meta "starredIds") as [[[| | | | l |]|]|]; simpl; try exact H3.
  destruct (coerceIds l); simpl; exact H3.
Qed.

(** The key of the board's own cache is not one of them. *)
Lemma storageKey_not_catalogue (s : Session) :
  storageKey s <> libraryStorageKey /\ storageKey s <> libraryMetaStorageKey.
Proof. split; discriminate. Qed.

End CatalogFacts.

Section CatalogClaims.

Import Catalog.

(** C4, as stated, fails on a query with surrounding white space: for the
  catalogue [a("Cat")] and the query made of one space the program shows
  [a], while no lowercase label contains a space. *)
Lemma view_blank_query_counterexample :
  mapItems [] 0 [Sample.item "a" "Cat"] = Ok [Sample.entryCat]
  /\ normalizedLibraries (JArr [Sample.item "a" "Cat"]) " " [] = Ok [Sample.entryCat]
  /\ Spec.presentationView [Sample.entryCat] " " = []
  /\ normalizedLibraries (JArr [Sample.item "a" "Cat"]) " " []
     <> Ok (Spec.presentationView [Sample.entryCat] " ").
Proof. repeat split; try reflexivity. discriminate. Qed.

(** C4, amended: for every catalogue, starred set and query string the view
  consists of the entries whose lowercase label contains the lowercase
  TRIMMED query, starred entries first and catalogue order otherwise (a
  stable partition by the starred flag, an entry being starred when its
  id is in the starred set); the catalogue [a("Cat"), b("Dog")] with
  starred set {b} yields [b, a] on the empty query and [a] on the query
  "at". *)
Theorem presentation_view_trimmed_query
    (items : list JSON) (query : string) (ids : list string) :
  normalizedLibraries (JArr items) query ids
  = bind (mapItems ids 0 items) (fun entries =>
      Ok (Spec.presentationView entries (trim query)))
  /\ (forall entries, mapItems ids 0 items = Ok entries ->
      Forall (fun e => isStarred e = true <-> In (id e) ids) entries)
  /\ normalizedLibraries Sample.catDog "" ["b"] = Ok [Sample.entryDog; Sample.entryCat]
  /\ normalizedLibraries Sample.catDog "at" ["b"] = Ok [Sample.entryCat].
Proof.
  split; [apply normalizedLibraries_view|].
  split; [|split; reflexivity].
  intros entries Hmap. apply mapItems_fields in Hmap.
  eapply List.Forall_impl; [|exact Hmap].
  intros e [_ He]. simpl. rewrite He. apply starred_In.
Qed.

Lemma presentation_view_trimmed_query_witness :
  mapItems ["b"] 0 [Sample.item "a" "Cat"; Sample.item "b" "Dog"]
  = Ok [Sample.entryCat; Sample.entryDog]
  /\ Forall (fun e => isStarred e = true <-> In (id e) ["b"]) [Sample.entryCat; Sample.entryDog].
Proof.
  split; [reflexivity|].
  apply (proj1 (proj2 (presentation_view_trimmed_query
                         [Sample.item "a" "Cat"; Sample.item "b" "Dog"] "" ["b"]))).
  reflexivity.
Defined.

(** C9: the derived label of a library entry is the text of its first
  sub-element flagged as textual with non-blank content, cut to 60
  characters; when there is none, or when looking for it throws on a
  malformed entry, it is the placeholder "Item N" with N the position
  counted from one. *)
Theorem label_derivation (index : nat) (item : JSON) :
  deriveLabel index item = Spec.derivedLabel index item
  /\ (forall t, Spec.firstText (Spec.subElements item) = Some t ->
      deriveLabel index item = slice0 60 t
      /\ String.length (deriveLabel index item) = Nat.min 60 (String.length t))
  /\ (Spec.firstText (Spec.subElements item) = None ->
      deriveLabel index item = "Item " +:+ pretty (index + 1)%nat)
  /\ (findTextEl item = Throw ->
      deriveLabel index item = "Item " +:+ pretty (index + 1)%nat)
  /\ (forall ids e, normalizeItem ids index item = Ok e ->
      label e = Spec.derivedLabel index item).
Proof.
  split; [apply deriveLabel_derivedLabel|].
  split; [|split; [|split]].
  - intros t Ht. rewrite deriveLabel_derivedLabel. unfold Spec.derivedLabel.
    rewrite Ht. split; [reflexivity | apply slice0_length].
  - intros Hnone. rewrite deriveLabel_derivedLabel. unfold Spec.derivedLabel.
    rewrite Hnone. reflexivity.
  - intros Hthrow. unfold deriveLabel. rewrite Hthrow. reflexivity.
  - intros ids e He. apply normalizeItem_fields in He.
    destruct He as (-> & _). apply deriveLabel_derivedLabel.
Qed.

Lemma label_derivation_witness :
  deriveLabel 0 (Sample.item "long" (Sample.repeatStr 60 "a" +:+ "needle"))
  = Sample.repeatStr 60 "a"
  /\ deriveLabel 2 (JObj [("elements", JArr [JNum "7"; Sample.text "  "])]) = "Item 3"
  /\ deriveLabel 4 (JObj [("elements", JStr "oops")]) = "Item 5"
  /\ label Sample.entryCat = "Cat".
Proof.
  split; [|split; [|split]].
  - apply (proj1 (proj2 (label_derivation 0
             (Sample.item "long" (Sample.repeatStr 60 "a" +:+ "needle"))))
             (Sample.repeatStr 60 "a" +:+ "needle") eq_refl).
  - apply (proj1 (proj2 (proj2 (label_derivation 2
             (JObj [("elements", JArr [JNum "7"; Sample.text "  "])])))) eq_refl).
  - apply (proj1 (proj2 (proj2 (proj2 (label_derivation 4
             (JObj [("elements", JStr "oops")]))))) eq_refl).
  - apply (proj2 (proj2 (proj2 (proj2 (label_derivation 0 (Sample.item "a" "Cat")))))
             [] Sample.entryCat eq_refl).
Defined.

(** C10: the search matches the derived label only, after it was cut and
  lowercased: every entry shown has the lowercase trimmed query in its
  lowercase label, and an entry whose first textual sub-element is longer
  than 60 characters is not shown for a query that occurs in the text but
  not within its first 60 characters.  The query is trimmed first, so a
  query of white space alone gives the view of the empty query. *)
Theorem search_matches_truncated_label
    (items : list JSON) (query : string) (ids : list string)
    (entries view : list Entry) :
  mapItems ids 0 items = Ok entries ->
  normalizedLibraries (JArr items) query ids = Ok view ->
  (forall e, In e view ->
     includes (toLowerCase (label e)) (toLowerCase (trim query)) = true)
  /\ (forall k item e t,
        items !! k = Some item ->
        entries !! k = Some e ->
        Spec.firstText (Spec.subElements item) = Some t ->
        (60 < String.length t)%nat ->
        includes (toLowerCase t) (toLowerCase (trim query)) = true ->
        includes (toLowerCase (slice0 60 t)) (toLowerCase (trim query)) = false ->
        ~ In e view)
  /\ (forall libraryItems blank,
        Spec.allWhite blank = true ->
        normalizedLibraries libraryItems blank ids
        = normalizedLibraries libraryItems "" ids).
Proof.
  intros Hmap Hview. rewrite normalizedLibraries_view, Hmap in Hview.
  simpl in Hview. injection Hview as <-.
  split; [|split].
  - intros e He. apply view_members in He. tauto.
  - intros k item e t Hk He Ht _ _ Hcut Hin.
    apply view_members in Hin. destruct Hin as [_ Hin].
    destruct (mapItems_lookup _ _ _ _ Hmap k item Hk) as (e' & He' & Hn).
    assert (e' = e) by congruence. subst e'.
    apply normalizeItem_fields in Hn. destruct Hn as (Hl & _).
    rewrite Hl, deriveLabel_derivedLabel in Hin. unfold Spec.derivedLabel in Hin.
    rewrite Ht in Hin. congruence.
  - intros li blank Hblank. unfold normalizedLibraries.
    rewrite (trim_allWhite _ Hblank). reflexivity.
Qed.

Lemma search_matches_truncated_label_witness :
  normalizedLibraries (JArr Sample.haystacks) " Needle " [] = Ok [Sample.entryShort]
  /\ ~ In Sample.entryLong [Sample.entryShort]
  /\ normalizedLibraries Sample.catDog "    " [] = normalizedLibraries Sample.catDog "" [].
Proof.
  assert (Hmap : mapItems [] 0 Sample.haystacks = Ok [Sample.entryLong; Sample.entryShort])
    by (vm_compute; reflexivity).
  assert (Hview : normalizedLibraries (JArr Sample.haystacks) " Needle " []
                  = Ok [Sample.entryShort]) by (vm_compute; reflexivity).
  pose proof (search_matches_truncated_label
                Sample.haystacks " Needle " [] [Sample.entryLong; Sample.entryShort] [Sample.entryShort]
                Hmap Hview) as (_ & Hcut & Hblank).
  split; [exact Hview|]. split.
  - apply (Hcut 0%nat (Sample.item "long" (Sample.repeatStr 60 "a" +:+ "needle"))
             Sample.entryLong (Sample.repeatStr 60 "a" +:+ "needle"));
      try (vm_compute; reflexivity).
    vm_compute. lia.
  - apply Hblank. reflexivity.
Defined.

(** C7: toggling an id flips its membership in the starred set and leaves
  every other id as it was, and the whole resulting set is written to
  local storage in the same step: the text stored under the starred key
  is [JSON.stringify] of the object whose member [starredIds] is the
  resulting list, a text from which exactly that list is read back.  A
  second toggle of the same id restores the original membership and
  stores, in the same way, a list of exactly the original members.  Two
  lists with the same stored text are the same list, and the key is the
  fixed one of line 74.  A write that throws is swallowed and the set in
  memory is the toggled one all the same. *)
Theorem toggle_star_round_trip (i : string) (st : State) :
  let st1 := toggleStar i st in
  let st2 := toggleStar i st1 in
  let written (l : list string) := stringify (JObj [("starredIds", JArr (map JStr l))]) in
  (In i (starredLibraryIds st1) <-> ~ In i (starredLibraryIds st))
  /\ (forall j, j <> i ->
        (In j (starredLibraryIds st1) <-> In j (starredLibraryIds st)))
  /\ calls st1
     = calls st ++ [SetItem libraryMetaStorageKey (written (starredLibraryIds st1))]
  /\ (writable (localStorage st) = true ->
      area (localStorage st1) !! libraryMetaStorageKey
      = Some (written (starredLibraryIds st1)))
  /\ (forall j, In j (starredLibraryIds st2) <-> In j (starredLibraryIds st))
  /\ calls st2
     = calls st1 ++ [SetItem libraryMetaStorageKey (written (starredLibraryIds st2))]
  /\ (writable (localStorage st) = true ->
      area (localStorage st2) !! libraryMetaStorageKey
      = Some (written (starredLibraryIds st2)))
  /\ (~ In i (starredLibraryIds st) -> starredLibraryIds st2 = starredLibraryIds st)
  /\ (In i (starredLibraryIds st) ->
      starredLibraryIds st2
      = List.filter (fun x => negb (String.eqb x i)) (starredLibraryIds st) ++ [i])
  /\ (writable (localStorage st) = false ->
      starredLibraryIds st1 = toggled i (starredLibraryIds st)
      /\ localStorage st1 = localStorage st)
  /\ (forall l, Reader.readStarredRecord (written l) = Some l)
  /\ (forall l l', written l = written l' -> l = l')
  /\ libraryMetaStorageKey = "chirpulBoard:librariesMeta:v1".
Proof.
  cbv zeta. rewrite !toggleStar_calls, !toggleStar_ids.
  repeat split.
  - apply toggled_self.
  - apply toggled_self.
  - apply toggled_other. assumption.
  - apply toggled_other. assumption.
  - intros Hw. apply toggleStar_stored. exact Hw.
  - apply toggled_twice_members.
  - apply toggled_twice_members.
  - intros Hw. destruct (toggleStar_stored i st Hw) as [_ Hw1].
    destruct (toggleStar_stored i _ Hw1) as [Hs _].
    rewrite toggleStar_ids in Hs. exact Hs.
  - apply toggled_twice_absent.
  - apply toggled_twice_present.
  - apply toggleStar_storage_failure. assumption.
  - intros l. apply readStarredRecord_written.
  - intros l l' Heq.
    pose proof (readStarredRecord_written l) as Hl.
    pose proof (readStarredRecord_written l') as Hl'.
    unfold Spec.starredRecord in Hl, Hl'. rewrite Heq in Hl. congruence.
Qed.

Lemma toggle_star_round_trip_witness :
  starredLibraryIds (toggleStar "a" (toggleStar "a" (Sample.shelf ["b"] true))) = ["b"]
  /\ area (localStorage (toggleStar "a" (toggleStar "a" (Sample.shelf ["b"] true))))
       !! libraryMetaStorageKey
     = Some ("{" +:+ String dquote "starredIds" +:+ String dquote ":["
             +:+ String dquote "b" +:+ String dquote "]}")
  /\ area (localStorage (toggleStar "a" (Sample.shelf ["b"] true)))
       !! libraryMetaStorageKey
     = Some ("{" +:+ String dquote "starredIds" +:+ String dquote ":["
             +:+ String dquote "b" +:+ String dquote ","
             +:+ String dquote "a" +:+ String dquote "]}")
  /\ starredLibraryIds (toggleStar "b" (toggleStar "b" (Sample.shelf ["b"; "c"] true)))
     = ["c"; "b"]
  /\ starredLibraryIds (toggleStar "a" (Sample.shelf ["b"] false)) = ["b"; "a"]
  /\ localStorage (toggleStar "a" (Sample.shelf ["b"] false))
     = localStorage (Sample.shelf ["b"] false).
Proof.
  pose proof (toggle_star_round_trip "a" (Sample.shelf ["b"] true)) as Ha.
  pose proof (toggle_star_round_trip "b" (Sample.shelf ["b"; "c"] true)) as Hb.
  pose proof (toggle_star_round_trip "a" (Sample.shelf ["b"] false)) as Hc.
  cbv zeta in Ha, Hb, Hc.
  destruct Ha as (_ & _ & _ & Hfirst & _ & _ & Hstored & Habsent & _).
  destruct Hb as (_ & _ & _ & _ & _ & _ & _ & _ & Hpresent & _).
  destruct Hc as (_ & _ & _ & _ & _ & _ & _ & _ & _ & Hfail & _).
  assert (Hnot : ~ In "a" ["b"]) by (intros [H | []]; discriminate).
  split; [exact (Habsent Hnot)|].
  split; [rewrite (Hstored eq_refl), (Habsent Hnot); reflexivity|].
  split; [rewrite (Hfirst eq_refl); reflexivity|].
  split; [exact (Hpresent (or_introl eq_refl))|].
  exact (Hfail eq_refl).
Defined.

End CatalogClaims.

(** ** Bootstrap and scene reconciliation *)

Section ReconcileFacts.

Import Reconcile.
Context `{Host}.

Lemma sceneLoads_record (c : Call) (st : State) :
  sceneLoads (record c st)
  = sceneLoads st ++ match c with UpdateScene d => [d] | _ => [] end.
Proof.
  unfold sceneLoads. simpl. rewrite omap_app. destruct c; reflexivity.
Qed.

Lemma storageReads_record (c : Call) (st : State) :
  storageReads (record c st)
  = storageReads st ++ match c with GetItem k => [k] | _ => [] end.
Proof.
  unfold storageReads. simpl. rewrite omap_app. destruct c; reflexivity.
Qed.

(** A read that delivers no Document changes at most the timestamp. *)
Lemma bootstrapSettled_quiet (c : bool) (r : FetchResult) (st : State) :
  Spec.delivered (BootstrapSettled c r) = None ->
  bootstrapSettled c r st = st
  \/ exists s, bootstrapSettled c r st = setLastUpdated s st.
Proof.
  intros Hd. destruct r as [|ok [body|]]; simpl.
  - left. reflexivity.
  - destruct c; [left; reflexivity|]. destruct ok; [|left; reflexivity].
    simpl in Hd.
    assert (Hdata : match getOpt body "data" with
                    | Some d => if truthy d && isObjectType d
                                then setInitialData d st else st
                    | None => st
                    end = st).
    { destruct (getOpt body "data") as [d|]; [|reflexivity].
      destruct (truthy d && isObjectType d); [discriminate | reflexivity]. }
    rewrite Hdata.
    destruct (getOpt body "updatedAt") as [u|]; [|left; reflexivity].
    destruct (truthy u); [|left; reflexivity].
    destruct (toStr u) as [s|]; simpl; [right; eexists; reflexivity | left; reflexivity].
  - destruct c; [left; reflexivity|]. destruct ok; left; reflexivity.
Qed.

Lemma bootstrapSettled_failed (c : bool) (r : FetchResult) (st : State) :
  Spec.failed r = true -> bootstrapSettled c r st = st.
Proof.
  destruct r as [|[|] [body|]]; simpl; try discriminate; intros _;
    destruct c; reflexivity.
Qed.

Lemma failed_delivers_nothing (c : bool) (r : FetchResult) :
  Spec.failed r = true -> Spec.delivered (BootstrapSettled c r) = None.
Proof.
  destruct r as [|[|] [body|]]; simpl; try discriminate; intros _;
    destruct c; reflexivity.
Qed.

Lemma commit_clean (st : State) : sceneDepsChanged st = false -> commit st = st.
Proof. intros Hc. unfold commit. rewrite Hc. reflexivity. Qed.

Lemma onExcalidrawAPI_fields (st : State) :
  let st' := onExcalidrawAPI st in
  initialData st' = initialData st
  /\ lastUpdated st' = lastUpdated st
  /\ excalidrawRef st' = true
  /\ excalidrawReady st' = true
  /\ sceneDepsChanged st' = sceneDepsChanged st || negb (excalidrawReady st)
  /\ sceneLoads st' = sceneLoads st
  /\ storageReads st' = storageReads st.
Proof.
  unfold onExcalidrawAPI. destruct st as [idata lu li ref rdy dirty cs].
  cbn [libraryItems setExcalidrawRef]. rewrite catch_same.
  unfold setExcalidrawReady. cbn [excalidrawReady initialData lastUpdated
    libraryItems excalidrawRef sceneDepsChanged calls].
  destruct (truthy li); destruct rdy; unfold sceneLoads, storageReads; cbn;
    rewrite ?omap_app, ?orb_false_r, ?orb_true_r; cbn; rewrite ?app_nil_r;
    repeat split; reflexivity.
Qed.

Lemma sceneEffect_fields (st : State) :
  let st' := sceneEffect st in
  initialData st' = initialData st
  /\ lastUpdated st' = lastUpdated st
  /\ excalidrawRef st' = excalidrawRef st
  /\ excalidrawReady st' = excalidrawReady st
  /\ sceneDepsChanged st' = sceneDepsChanged st
  /\ storageReads st' = storageReads st
  /\ sceneLoads st'
     = sceneLoads st
       ++ match initialData st with
          | Some d => if excalidrawReady st && excalidrawRef st then [d] else []
          | None => []
          end.
Proof.
  unfold sceneEffect. destruct st as [idata lu li ref rdy dirty cs].
  cbn [excalidrawReady initialData excalidrawRef].
  destruct idata as [d|]; [|cbn; rewrite app_nil_r; repeat split; reflexivity].
  rewrite catch_same.
  destruct rdy, ref; unfold sceneLoads, storageReads; cbn;
    rewrite ?omap_app; cbn; rewrite ?app_nil_r;
    repeat split; reflexivity.
Qed.

Lemma commit_fields (st : State) :
  let st' := commit st in
  initialData st' = initialData st
  /\ lastUpdated st' = lastUpdated st
  /\ excalidrawRef st' = excalidrawRef st
  /\ excalidrawReady st' = excalidrawReady st
  /\ sceneDepsChanged st' = false
  /\ storageReads st' = storageReads st
  /\ sceneLoads st'
     = sceneLoads st
       ++ match initialData st with
          | Some d =>
              if sceneDepsChanged st && excalidrawReady st && excalidrawRef st
              then [d] else []
          | None => []
          end.
Proof.
  unfold commit. destruct (sceneDepsChanged st) eqn:Hdirty.
  - pose proof (sceneEffect_fields (clearSceneDeps st)) as Heff.
    cbv zeta in Heff. destruct st; exact Heff.
  - cbn. rewrite Hdirty. destruct (initialData st); rewrite app_nil_r;
      repeat split; reflexivity.
Qed.

(** An event that delivers no Document keeps the invariant; the canvas
    is ready afterwards if it was or if this was its readiness callback. *)
Lemma step_quiet (ready : bool) (doc : option JSON) (st : State) (e : Event) :
  Inv.reconciled ready doc st ->
  Spec.delivered e = None ->
  Inv.reconciled (ready || Inv.isReady e) doc (step st e).
Proof.
  intros Hst Hd. destruct e as [c r | |]; simpl Inv.isReady;
    rewrite ?orb_false_r, ?orb_true_r; unfold step.
  - destruct (bootstrapSettled_quiet c r st Hd) as [-> | [s ->]].
    + rewrite commit_clean; [exact Hst | apply Hst].
    + rewrite commit_clean; [exact Hst | apply Hst].
  - destruct Hst as (Hdoc & Hclean & Hready & Href & Hloads).
    pose proof (onExcalidrawAPI_fields st) as Hapi. cbv zeta in Hapi.
    destruct Hapi as (Hi & _ & Hr & Hy & Hc & Hl & _).
    pose proof (commit_fields (onExcalidrawAPI st)) as Hcom. cbv zeta in Hcom.
    destruct Hcom as (Hi' & _ & Hr' & Hy' & Hc' & _ & Hl').
    unfold Inv.reconciled.
    rewrite Hi', Hi, Hr', Hr, Hy', Hy, Hc', Hl', Hl, Hi, Hr, Hy, Hc, Hdoc, Hclean,
      Hready, Hloads.
    repeat split; try reflexivity.
    destruct doc as [d|]; destruct ready; reflexivity.
  - rewrite commit_clean; [|apply Hst]. exact Hst.
Qed.

(** The event that delivers the Document [d] loads it into the canvas at
    once when the canvas is ready, and otherwise leaves it for later. *)
Lemma step_delivers (ready : bool) (d : JSON) (st : State) (e : Event) :
  Inv.reconciled ready None st ->
  Spec.delivered e = Some d ->
  Inv.reconciled ready (Some d) (step st e).
Proof.
  intros Hst Hd.
  destruct e as [[|] [|[|] [body|]] | |]; try discriminate.
  simpl in Hd. unfold step, bootstrapSettled. simpl catch.
  destruct (getOpt body "data") as [d'|]; [|discriminate].
  destruct (truthy d' && isObjectType d'); [|discriminate].
  injection Hd as ->.
  destruct Hst as (Hdoc & Hclean & Hready & Href & Hloads).
  assert (Hgoal : forall st', (st' = setInitialData d st
                               \/ exists s, st' = setLastUpdated s (setInitialData d st)) ->
                              Inv.reconciled ready (Some d) (commit st')).
  { intros st' Hst'.
    pose proof (commit_fields st') as Hcom. cbv zeta in Hcom.
    destruct Hcom as (Hi' & _ & Hr' & Hy' & Hc' & _ & Hl').
    unfold Inv.reconciled. rewrite Hi', Hr', Hy', Hc', Hl'.
    destruct Hst' as [-> | [s ->]]; cbn;
      fold (sceneLoads st); rewrite Hready, Href, Hloads;
      repeat split; destruct ready; reflexivity. }
  destruct (getOpt body "updatedAt") as [u|];
    [destruct (truthy u); [destruct (toStr u) as [s|]; simpl|]|];
    apply Hgoal; eauto.
Qed.

Lemma run_quiet (es : list Event) :
  forall (ready : bool) (doc : option JSON) (st : State),
    Inv.reconciled ready doc st ->
    Forall (fun e => Spec.delivered e = None) es ->
    Inv.reconciled (ready || existsb Inv.isReady es) doc (run st es).
Proof.
  induction es as [|e es IH]; intros ready doc st Hst Hes; simpl.
  - rewrite orb_false_r. exact Hst.
  - inversion Hes as [|? ? He Hes']; subst.
    rewrite orb_assoc. apply IH; [|exact Hes'].
    apply step_quiet; assumption.
Qed.

Lemma mounted_reconciled (items : JSON) : Inv.reconciled false None (mounted items).
Proof. repeat split. Qed.

Lemma existsb_isReady (es : list Event) :
  In CanvasReady es -> existsb Inv.isReady es = true.
Proof.
  intros Hin. apply existsb_exists. exists CanvasReady. split; [exact Hin | reflexivity].
Qed.

Lemma storageReads_step (st : State) (e : Event) :
  storageReads (step st e) = storageReads st.
Proof.
  unfold step.
  pose proof (commit_fields
    match e with
    | BootstrapSettled c r => bootstrapSettled c r st
    | CanvasReady => onExcalidrawAPI st
    | Rerender => st
    end) as Hcom. cbv zeta in Hcom.
  destruct Hcom as (_ & _ & _ & _ & _ & -> & _).
  destruct e as [c r | |]; [| apply onExcalidrawAPI_fields | reflexivity].
  destruct r as [|ok [body|]]; simpl; try reflexivity;
    destruct c; try reflexivity; destruct ok; try reflexivity.
  destruct (getOpt body "data") as [d|]; [destruct (truthy d && isObjectType d)|];
    (destruct (getOpt body "updatedAt") as [u|];
       [destruct (truthy u); [destruct (toStr u)|]|]); reflexivity.
Qed.

Lemma storageReads_run (es : list Event) (st : State) :
  storageReads (run st es) = storageReads st.
Proof.
  revert st. induction es as [|e es IH]; intros st; [reflexivity|].
  change (run st (e :: es)) with (run (step st e) es).
  rewrite IH. apply storageReads_step.
Qed.

End ReconcileFacts.

Section ReconcileClaims.

Import Reconcile.

(** C2: when a Document is loaded and the canvas becomes ready, in either
  order and with any other renders or readiness callbacks around them, the
  scene-load command is invoked exactly once, with that Document.  The
  page is arbitrary, so this holds as well when the canvas throws on the
  command: the failure is swallowed and nothing retries. *)
Theorem scene_loaded_exactly_once `{Host}
    (items d : JSON) (loaded : Event) (before after : list Event) :
  Spec.delivered loaded = Some d ->
  Forall (fun e => Spec.delivered e = None) before ->
  Forall (fun e => Spec.delivered e = None) after ->
  In CanvasReady (before ++ after) ->
  sceneLoads (run (mounted items) (before ++ loaded :: after)) = [d]
  /\ sceneLoads (run (mounted items) [loaded; CanvasReady]) = [d]
  /\ sceneLoads (run (mounted items) [CanvasReady; loaded]) = [d]
  /\ sceneLoads (run (mounted items) [loaded]) = [].
Proof.
  intros Hd Hbefore Hafter Hready.
  assert (Hgen : forall b a,
             Forall (fun e => Spec.delivered e = None) b ->
             Forall (fun e => Spec.delivered e = None) a ->
             Inv.reconciled (existsb Inv.isReady b || existsb Inv.isReady a)
               (Some d) (run (mounted items) (b ++ loaded :: a))).
  { intros b a Hb Ha.
    pose proof (run_quiet b false None _ (mounted_reconciled items) Hb) as Hfirst.
    pose proof (step_delivers _ d _ loaded Hfirst Hd) as Hdoc.
    pose proof (run_quiet a _ _ _ Hdoc Ha) as Hlast.
    unfold run in *. rewrite fold_left_app. exact Hlast. }
  split; [|split; [|split]].
  - destruct (Hgen before after Hbefore Hafter) as (_ & _ & _ & _ & Hloads).
    rewrite Hloads.
    rewrite <- existsb_app, (existsb_isReady _ Hready). reflexivity.
  - destruct (Hgen [] [CanvasReady]) as (_ & _ & _ & _ & Hloads);
      [constructor | repeat constructor | exact Hloads].
  - destruct (Hgen [CanvasReady] []) as (_ & _ & _ & _ & Hloads);
      [repeat constructor | constructor | exact Hloads].
  - destruct (Hgen [] []) as (_ & _ & _ & _ & Hloads);
      [constructor | constructor | exact Hloads].
Qed.

Lemma scene_loaded_exactly_once_witness :
  let loaded :=
    BootstrapSettled false (Responded true (Ok (JObj [("data", Sample.scene 1)]))) in
  sceneLoads (@run Sample.rejectingPage (mounted JNull)
                ([Rerender; CanvasReady] ++ loaded :: [CanvasReady; Rerender]))
  = [Sample.scene 1].
Proof.
  cbv zeta.
  apply (@scene_loaded_exactly_once Sample.rejectingPage JNull (Sample.scene 1)).
  - reflexivity.
  - repeat constructor.
  - repeat constructor.
  - right. left. reflexivity.
Defined.

(** C5: a bootstrap read that fails (rejected, not OK, or undecodable)
  changes nothing: the Document stays unset, and whatever the canvas does
  before or after, no scene is ever loaded and local storage is never
  read. *)
Theorem failed_bootstrap_starts_empty `{Host}
    (cancelled : bool) (r : FetchResult) (items : JSON) (before after : list Event) :
  Spec.failed r = true ->
  Forall (fun e => e = CanvasReady \/ e = Rerender) before ->
  Forall (fun e => e = CanvasReady \/ e = Rerender) after ->
  (forall st, bootstrapSettled cancelled r st = st)
  /\ (let st := run (mounted items) (before ++ BootstrapSettled cancelled r :: after) in
      initialData st = None
      /\ sceneLoads st = []
      /\ storageReads st = []).
Proof.
  intros Hfail Hbefore Hafter.
  split; [intros st; apply bootstrapSettled_failed; exact Hfail|].
  cbv zeta.
  assert (Hquiet : Forall (fun e => Spec.delivered e = None)
                     (before ++ BootstrapSettled cancelled r :: after)).
  { apply List.Forall_app. split; [|constructor].
    - eapply List.Forall_impl; [|exact Hbefore]. intros e [-> | ->]; reflexivity.
    - apply failed_delivers_nothing. exact Hfail.
    - eapply List.Forall_impl; [|exact Hafter]. intros e [-> | ->]; reflexivity. }
  destruct (run_quiet _ false None (mounted items) (mounted_reconciled items) Hquiet)
    as (Hdoc & _ & _ & _ & Hloads).
  split; [exact Hdoc|]. split; [exact Hloads|].
  rewrite storageReads_run. reflexivity.
Qed.

Lemma failed_bootstrap_starts_empty_witness :
  let st := @run Sample.page (mounted Sample.catDog)
              ([CanvasReady] ++ BootstrapSettled false (Responded true Throw)
                 :: [Rerender; CanvasReady]) in
  initialData st = None /\ sceneLoads st = [] /\ storageReads st = [].
Proof.
  apply (@failed_bootstrap_starts_empty Sample.page false (Responded true Throw)
           Sample.catDog [CanvasReady] [Rerender; CanvasReady]).
  - reflexivity.
  - repeat constructor.
  - constructor; [right; reflexivity|]. repeat constructor.
Defined.

(** C8, as stated, fails on an [updatedAt] field that is present and falsy:
  for the OK response with body {"updatedAt": ""} the last-saved timestamp
  stays unset. *)
Lemma updatedAt_empty_counterexample :
  let body := JObj [("updatedAt", JStr "")] in
  let st := bootstrapSettled false (Responded true (Ok body)) (mounted JNull) in
  getOpt body "updatedAt" = Some (JStr "")
  /\ toStr (JStr "") = Ok ""
  /\ lastUpdated st = None
  /\ lastUpdated st <> Some "".
Proof. repeat split. discriminate. Qed.

(** It fails as well on a truthy [updatedAt] that [String] cannot convert:
  for the OK response with body {"data": {}, "updatedAt": {"toString": 1}}
  the conversion throws, line 105 swallows the error, the Document is
  set and the timestamp stays unset. *)
Lemma updatedAt_unprintable_example :
  let u := JObj [("toString", JNum "1")] in
  let body := JObj [("data", JObj []); ("updatedAt", u)] in
  let st := bootstrapSettled false (Responded true (Ok body)) (mounted JNull) in
  getOpt body "updatedAt" = Some u
  /\ truthy u = true
  /\ toStr u = Throw
  /\ initialData st = Some (JObj [])
  /\ lastUpdated st = None.
Proof. repeat split. Qed.

(** C8, amended: for every OK bootstrap response, not cancelled, whose
  decoded body has an [updatedAt] field that is truthy (not null, false,
  0, NaN or the empty string) and that [String] converts, the converted
  value becomes the last-saved timestamp, whether or not the body also
  has a data object.  A falsy [updatedAt] leaves the timestamp as it was,
  and so does one on which [String] throws, the error being swallowed:
  that is an object with a member called [toString], or an array holding
  such an object.  A string is converted to itself and a number to the
  text that [String] prints for it.  The Document is set from the data
  object in every case. *)
Theorem updatedAt_truthy_becomes_last_saved `{Host} (body u : JSON) (st : State) :
  getOpt body "updatedAt" = Some u ->
  let r := Responded true (Ok body) in
  let timestamp :=
    if truthy u then
      match toStr u with
      | Ok s => Some s
      | Throw => lastUpdated st
      end
    else lastUpdated st in
  lastUpdated (bootstrapSettled false r st) = timestamp
  /\ lastUpdated (step st (BootstrapSettled false r)) = timestamp
  /\ (toStr u = Throw <-> Spec.printable u = false)
  /\ (forall s, u = JStr s -> toStr u = Ok s)
  /\ (forall text, u = JNum text -> toStr u = Ok text)
  /\ initialData (bootstrapSettled false r st)
     = match Spec.delivered (BootstrapSettled false r) with
       | Some d => Some d
       | None => initialData st
       end.
Proof.
  intros Hu. cbv zeta.
  assert (Hset : lastUpdated (bootstrapSettled false (Responded true (Ok body)) st)
                 = (if truthy u then
                      match toStr u with
                      | Ok s => Some s
                      | Throw => lastUpdated st
                      end
                    else lastUpdated st)).
  { unfold bootstrapSettled. simpl catch. rewrite Hu.
    destruct (getOpt body "data") as [d|];
      [destruct (truthy d && isObjectType d)|];
      destruct (truthy u); try reflexivity;
      destruct (toStr u); reflexivity. }
  split; [exact Hset|]. split; [|split; [|split; [|split]]].
  - unfold step.
    pose proof (commit_fields (bootstrapSettled false (Responded true (Ok body)) st)) as Hcom.
    cbv zeta in Hcom. destruct Hcom as (_ & -> & _). exact Hset.
  - apply toStr_throws.
  - intros s ->. reflexivity.
  - intros text ->. reflexivity.
  - unfold bootstrapSettled, Spec.delivered. simpl catch. rewrite Hu.
    destruct (getOpt body "data") as [d|];
      [destruct (truthy d && isObjectType d)|];
      destruct (truthy u); try reflexivity;
      destruct (toStr u); reflexivity.
Qed.

Lemma updatedAt_truthy_becomes_last_saved_witness :
  lastUpdated
    (@step Sample.page (mounted JNull)
       (BootstrapSettled false
          (Responded true (Ok (JObj [("updatedAt", JStr "2024-05-01T10:00:00Z")])))))
  = Some "2024-05-01T10:00:00Z"
  /\ lastUpdated
       (@step Sample.page (mounted JNull)
          (BootstrapSettled false
             (Responded true (Ok (JObj [("updatedAt", JArr [JNum "1e+21"; JNull; JStr "x"])])))))
     = Some "1e+21,,x"
  /\ lastUpdated
       (@step Sample.page (mounted JNull)
          (BootstrapSettled false
             (Responded true
                (Ok (JObj [("updatedAt", JArr [JObj [("toString", JNull)]])])))))
     = None.
Proof.
  split; [|split].
  - apply (proj1 (proj2 (@updatedAt_truthy_becomes_last_saved Sample.page
                    (JObj [("updatedAt", JStr "2024-05-01T10:00:00Z")])
                    (JStr "2024-05-01T10:00:00Z") (mounted JNull) eq_refl))).
  - apply (proj1 (proj2 (@updatedAt_truthy_becomes_last_saved Sample.page
                    (JObj [("updatedAt", JArr [JNum "1e+21"; JNull; JStr "x"])])
                    (JArr [JNum "1e+21"; JNull; JStr "x"]) (mounted JNull) eq_refl))).
  - apply (proj1 (proj2 (@updatedAt_truthy_becomes_last_saved Sample.page
                    (JObj [("updatedAt", JArr [JObj [("toString", JNull)]])])
                    (JArr [JObj [("toString", JNull)]]) (mounted JNull) eq_refl))).
Defined.

End ReconcileClaims.

(** ** Debounced autosave *)

Section AutosaveFacts.

Import Autosave.
Context `{Host}.
Local Open Scope N_scope.

Lemma writes_record (c : Call) (st : State) :
  writes (record c st)
  = writes st ++ match c with Fetch r => [r] | _ => [] end.
Proof. unfold writes. simpl. rewrite omap_app. destruct c; reflexivity. Qed.

Lemma filter_nothing {A} (f : A -> bool) (l : list A) :
  (forall x, In x l -> f x = false) -> List.filter f l = [].
Proof.
  induction l as [|x l IH]; intros Hall; simpl; [reflexivity|].
  rewrite (Hall x) by (left; reflexivity). apply IH.
  intros y Hy. apply Hall. right. exact Hy.
Qed.

(** In edit mode a notification leaves exactly one ticket, its own. *)
Lemma handleChange_arms (a : Args) (st : State) :
  viewModeEnabled st = false ->
  Inv.ticketed st ->
  Inv.armed a (writes st) (handleChange a st).
Proof.
  intros Hview Hticket. unfold handleChange. rewrite Hview.
  assert (Hcleared :
    timers match saveTimer st with Some h => clearTimeout h st | None => st end = []).
  { destruct (saveTimer st) as [h|] eqn:Hsave.
    - simpl. apply filter_nothing. intros t Ht.
      specialize (Hticket t Ht). rewrite Hsave in Hticket.
      injection Hticket as ->. rewrite Nat.eqb_refl. reflexivity.
    - destruct (timers st) as [|t ts] eqn:Hts; [reflexivity|].
      specialize (Hticket t). rewrite Hts, Hsave in Hticket.
      discriminate Hticket. left. reflexivity. }
  unfold Inv.armed, setTimeout, setSaveTimer. cbn. rewrite Hcleared.
  eexists. split; [reflexivity|]. split; [reflexivity|].
  split; [|unfold writes]; destruct (saveTimer st); assumption || reflexivity.
Qed.

Lemma armed_ticketed (a : Args) (w : list Request) (st : State) :
  Inv.armed a w st -> Inv.ticketed st.
Proof.
  intros (h & Ht & Hs & _) t Hin. rewrite Ht in Hin.
  destruct Hin as [<- | []]. exact Hs.
Qed.

(** Time that stays within the quiet period fires nothing. *)
Lemma elapse_within (env : Env) (a : Args) (w : list Request) (dt : N) (st : State) :
  Inv.armed a w st ->
  dt < quietPeriod ->
  let st' := elapse env dt st in
  timers st' = timers st
  /\ saveTimer st' = saveTimer st
  /\ viewModeEnabled st' = viewModeEnabled st
  /\ writes st' = w.
Proof.
  intros (h & Ht & Hs & Hv & Hw) Hdt. unfold elapse. rewrite Ht. simpl.
  assert (Hlate : (now st + quietPeriod <=? now st + dt) = false)
    by (apply N.leb_gt; lia).
  rewrite Hlate. simpl. repeat split. exact Hw.
Qed.

(** Once the quiet period is over the ticket fires: with a project bound,
    one write with the arguments the ticket captured. *)
Lemma elapse_fires (env : Env) (pid : string) (a : Args) (w : list Request)
    (dt : N) (st : State) :
  projectId (session env) = Some pid ->
  isEmpty pid = false ->
  Inv.armed a w st ->
  quietPeriod <= dt ->
  let st' := elapse env dt st in
  timers st' = []
  /\ saveTimer st' = None
  /\ isSaving st' = true
  /\ writes st' = w ++ [writeRequest env pid a].
Proof.
  intros Hpid Hne (h & Ht & Hs & Hv & Hw) Hdt. unfold elapse. rewrite Ht. simpl.
  assert (Hdue : (now st + quietPeriod <=? now st + dt) = true)
    by (apply N.leb_le; lia).
  rewrite Hdue. simpl. unfold fire. rewrite Hpid, Hne.
  rewrite writes_record. repeat split. unfold writes in *. simpl. rewrite Hw.
  reflexivity.
Qed.

Lemma run_app (env : Env) (st : State) (es1 es2 : list Event) :
  run env st (es1 ++ es2) = run env (run env st es1) es2.
Proof. unfold run. apply fold_left_app. Qed.

Lemma last_cons {A} (l : list A) :
  forall a d, List.last (a :: l) d = List.last l a.
Proof.
  induction l as [|b l IH]; intros a d; [reflexivity|].
  change (List.last (a :: b :: l) d) with (List.last (b :: l) d).
  rewrite (IH b d), (IH b a). reflexivity.
Qed.

(** A burst ends armed with the arguments of its last notification. *)
Lemma burst_armed (env : Env) (more : list (N * Args)) :
  forall (first : Args) (st : State),
    viewModeEnabled st = false ->
    Inv.ticketed st ->
    Forall (fun p => fst p < quietPeriod) more ->
    Inv.armed (lastArgs first more) (writes st) (run env st (burst first more)).
Proof.
  induction more as [|[gap a] more IH]; intros first st Hview Hticket Hgaps.
  - simpl. apply handleChange_arms; assumption.
  - inversion Hgaps as [|? ? Hgap Hgaps']; subst. simpl in Hgap.
    change (run env st (burst first ((gap, a) :: more)))
      with (run env (elapse env gap (handleChange first st)) (burst a more)).
    pose proof (handleChange_arms first st Hview Hticket) as Harmed.
    destruct (elapse_within env _ _ gap _ Harmed Hgap) as (Ht & Hs & Hv & Hw).
    assert (Hlast : lastArgs first ((gap, a) :: more) = lastArgs a more).
    { unfold lastArgs. simpl map. apply last_cons. }
    rewrite Hlast, <- Hw. apply IH; [| |exact Hgaps'].
    + rewrite Hv. destruct Harmed as (h & _ & _ & Hv' & _). exact Hv'.
    + intros t Hin. rewrite Ht in Hin. rewrite Hs.
      apply (armed_ticketed _ _ _ Harmed). exact Hin.
Qed.

(** *** View-only mode *)

Lemma handleChange_view_only (a : Args) (st : State) :
  viewModeEnabled st = true -> handleChange a st = st.
Proof. intros Hview. unfold handleChange. rewrite Hview. reflexivity. Qed.

Lemma step_view_only (env : Env) (st : State) (e : Event) :
  viewModeEnabled st = true ->
  timers st = [] ->
  e <> ToggleViewMode ->
  viewModeEnabled (step env st e) = true
  /\ timers (step env st e) = []
  /\ writes (step env st e) = writes st.
Proof.
  intros Hview Htimers Hne. destruct e as [a | dt | | r clock]; simpl.
  - rewrite handleChange_view_only by exact Hview. auto.
  - unfold elapse. rewrite Htimers. simpl. auto.
  - contradiction.
  - unfold saveSettled.
    destruct r as [|[|] decoded]; simpl; auto.
    destruct (getOpt (catch decoded JNull) "updatedAt") as [u|];
      [destruct (truthy u); [destruct (toStr u)|]|]; simpl; auto.
Qed.

Lemma run_view_only (env : Env) (es : list Event) :
  forall st,
    viewModeEnabled st = true ->
    timers st = [] ->
    Forall (fun e => e <> ToggleViewMode) es ->
    writes (run env st es) = writes st.
Proof.
  induction es as [|e es IH]; intros st Hview Htimers Hes; [reflexivity|].
  inversion Hes as [|? ? He Hes']; subst.
  destruct (step_view_only env st e Hview Htimers He) as (Hv & Ht & Hw).
  change (run env st (e :: es)) with (run env (step env st e) es).
  rewrite IH by assumption. exact Hw.
Qed.

(** *** The anti-forgery header *)

Lemma buildHeaders_writeHeaders (env : Env) :
  buildHeaders env = Spec.writeHeaders (cookie env).
Proof.
  unfold buildHeaders, csrfToken, Spec.writeHeaders, Spec.tokenCookies, Spec.jsonHeaders.
  simpl map. simpl Spec.firstNonEmpty. unfold orElse.
  destruct (Cookie.getCookie (cookie env) "csrfToken") as [[|c1 s1]|];
    destruct (Cookie.getCookie (cookie env) "csrf-token") as [[|c2 s2]|];
    destruct (Cookie.getCookie (cookie env) "csrf_token") as [[|c3 s3]|];
    reflexivity.
Qed.

End AutosaveFacts.

Section AutosaveClaims.

Import Autosave.
Local Open Scope N_scope.

(** C1: in edit mode with a project bound, a burst of notifications, each
  less than the quiet period after the one before, issues no write while
  it lasts and leaves one ticket, due 1000 ms after the last notification;
  that ticket issues exactly one write, whose body is built from the
  arguments of the last notification, once 1000 ms have passed and not
  before.  Every further notification replaces the pending ticket by its
  own. *)
Theorem debounce_single_write `{Host} (env : Env) (pid : string) (st : State)
    (first : Args) (more : list (N * Args)) :
  viewModeEnabled st = false ->
  projectId (session env) = Some pid ->
  isEmpty pid = false ->
  Inv.ticketed st ->
  Forall (fun p => fst p < quietPeriod) more ->
  let st' := run env st (burst first more) in
  let last := lastArgs first more in
  quietPeriod = 1000
  /\ Inv.armed last (writes st) st'
  /\ (forall dt, dt < quietPeriod -> writes (run env st' [Elapse dt]) = writes st)
  /\ (forall dt, quietPeriod <= dt ->
        writes (run env st' [Elapse dt]) = writes st ++ [writeRequest env pid last]
        /\ timers (run env st' [Elapse dt]) = []
        /\ saveTimer (run env st' [Elapse dt]) = None)
  /\ body (writeRequest env pid last)
     = Some (stringify (JObj [("elements", elements last);
                              ("appState", appState last);
                              ("files", files last)]))
  /\ (forall a, Inv.armed a (writes st) (handleChange a st')).
Proof.
  intros Hview Hpid Hne Hticket Hgaps. cbv zeta.
  pose proof (burst_armed env more first st Hview Hticket Hgaps) as Harmed.
  split; [reflexivity|]. split; [exact Harmed|].
  split; [|split; [|split]].
  - intros dt Hdt. apply (elapse_within env _ _ dt _ Harmed Hdt).
  - intros dt Hdt.
    destruct (elapse_fires env pid _ _ dt _ Hpid Hne Harmed Hdt) as (Ht & Hs & _ & Hw).
    auto.
  - reflexivity.
  - intros a.
    assert (Hw : writes (run env st (burst first more)) = writes st)
      by (destruct Harmed as (h & _ & _ & _ & Hw); exact Hw).
    rewrite <- Hw. apply handleChange_arms.
    + destruct Harmed as (h & _ & _ & Hv & _). exact Hv.
    + apply (armed_ticketed _ _ _ Harmed).
Qed.

Lemma debounce_single_write_witness :
  let env := Sample.env (Ok "csrfToken=tok") in
  let st' := @run Sample.page env (idle false)
               (burst (Sample.args 1) [(10, Sample.args 2); (999, Sample.args 3)]) in
  writes (@run Sample.page env st' [Elapse 999]) = []
  /\ writes (@run Sample.page env st' [Elapse 1000])
     = [@writeRequest Sample.page env "p 1" (Sample.args 3)].
Proof.
  cbv zeta.
  pose proof (@debounce_single_write Sample.page (Sample.env (Ok "csrfToken=tok"))
                "p 1" (idle false) (Sample.args 1)
                [(10, Sample.args 2); (999, Sample.args 3)]) as Hthm.
  cbv zeta in Hthm.
  destruct Hthm as (_ & _ & Hbefore & Hafter & _).
  - reflexivity.
  - reflexivity.
  - reflexivity.
  - intros t [].
  - repeat constructor.
  - split.
    + apply (Hbefore 999). reflexivity.
    + apply (Hafter 1000). discriminate.
Defined.

(** C3: a change notification received in view-only mode does nothing at
  all: the state is the same afterwards, so no write is issued, no ticket
  is scheduled and a pending ticket stays in place; and starting without a
  pending ticket, no amount of notifications and waiting in view-only mode
  issues a write. *)
Theorem view_only_change_is_noop `{Host} (env : Env) (a : Args) (st : State) :
  viewModeEnabled st = true ->
  handleChange a st = st
  /\ writes (handleChange a st) = writes st
  /\ timers (handleChange a st) = timers st
  /\ saveTimer (handleChange a st) = saveTimer st
  /\ (forall es,
        timers st = [] ->
        Forall (fun e => e <> ToggleViewMode) es ->
        writes (run env st es) = writes st).
Proof.
  intros Hview. rewrite (handleChange_view_only a st Hview).
  repeat split. intros es Htimers Hes. apply run_view_only; assumption.
Qed.

Lemma view_only_change_is_noop_witness :
  let pending := setViewModeEnabled true (handleChange (Sample.args 1) (idle false)) in
  handleChange (Sample.args 2) pending = pending
  /\ timers (handleChange (Sample.args 2) pending)
     = [{| handle := 1; due := 1000; payload := Sample.args 1 |}]
  /\ writes (@run Sample.page (Sample.env (Ok "")) (idle true)
               [Change (Sample.args 1); Elapse 5000; Change (Sample.args 2);
                Elapse 5000]) = [].
Proof.
  cbv zeta.
  pose proof (@view_only_change_is_noop Sample.page (Sample.env (Ok ""))
                (Sample.args 2)
                (setViewModeEnabled true (handleChange (Sample.args 1) (idle false)))
                eq_refl) as (Hsame & _ & Htimers & _).
  pose proof (@view_only_change_is_noop Sample.page (Sample.env (Ok ""))
                (Sample.args 1) (idle true) eq_refl) as (_ & _ & _ & _ & Hrun).
  split; [exact Hsame|]. split; [rewrite Htimers; reflexivity|].
  apply Hrun; [reflexivity|]. repeat constructor; discriminate.
Defined.

(** C6: when a ticket fires with a project bound, the write goes out with
  the JSON content type and, when the cookies csrfToken, csrf-token,
  csrf_token, read in that order, hold a non-empty value, with the first
  such value as its X-CSRF-Token header; when none does, and in particular
  when the cookies cannot be read, the write goes out all the same,
  without that header. *)
Theorem csrf_header_best_effort `{Host} (env : Env) (pid : string) (a : Args)
    (st : State) :
  projectId (session env) = Some pid ->
  isEmpty pid = false ->
  let found :=
    Spec.firstNonEmpty
      (map (Cookie.getCookie (cookie env)) ["csrfToken"; "csrf-token"; "csrf_token"]) in
  writes (fire env a st)
  = writes st ++ [{| url := boardUrl (session env) pid; method := "POST";
                     credentials := "include";
                     headers := Spec.writeHeaders (cookie env);
                     body := Some (bodyOf a) |}]
  /\ Spec.writeHeaders (cookie env) !! "Content-Type" = Some "application/json"
  /\ Spec.writeHeaders (cookie env) !! "X-CSRF-Token" = found
  /\ (found = None -> Spec.writeHeaders (cookie env) = Spec.jsonHeaders)
  /\ (cookie env = Throw -> found = None).
Proof.
  intros Hpid Hne. cbv zeta.
  split; [|split; [|split; [|split]]].
  - unfold fire. rewrite Hpid, Hne, writes_record. unfold writeRequest.
    rewrite buildHeaders_writeHeaders. reflexivity.
  - unfold Spec.writeHeaders, Spec.tokenCookies.
    destruct (Spec.firstNonEmpty _) as [tok|]; [|reflexivity].
    rewrite lookup_insert_ne by discriminate. reflexivity.
  - unfold Spec.writeHeaders, Spec.tokenCookies.
    destruct (Spec.firstNonEmpty _) as [tok|]; [|reflexivity].
    apply lookup_insert_eq.
  - intros Hnone. unfold Spec.writeHeaders, Spec.tokenCookies.
    rewrite Hnone. reflexivity.
  - intros ->. reflexivity.
Qed.

Lemma csrf_header_best_effort_witness :
  let env := Sample.env (Ok "theme=dark; csrfToken=; csrf-token=abc; csrf_token=zz") in
  headers (@writeRequest Sample.page env "p 1" (Sample.args 1)) !! "X-CSRF-Token"
  = Some "abc"
  /\ @writes (@fire Sample.page (Sample.env Throw) (Sample.args 1) (idle false))
     = [{| url := "https://api.example/api/projects/p%201/boards/default";
           method := "POST"; credentials := "include";
           headers := Spec.jsonHeaders;
           body := Some (bodyOf (Sample.args 1)) |}].
Proof.
  cbv zeta.
  pose proof (@csrf_header_best_effort Sample.page
                (Sample.env (Ok "theme=dark; csrfToken=; csrf-token=abc; csrf_token=zz"))
                "p 1" (Sample.args 1) (idle false) eq_refl eq_refl) as Hfound.
  pose proof (@csrf_header_best_effort Sample.page (Sample.env Throw)
                "p 1" (Sample.args 1) (idle false) eq_refl eq_refl) as Hthrow.
  cbv zeta in Hfound, Hthrow.
  destruct Hfound as (_ & _ & Htok & _).
  destruct Hthrow as (Hwrite & _ & _ & Hplain & Hnone).
  split.
  - unfold writeRequest, headers. rewrite buildHeaders_writeHeaders. exact Htok.
  - rewrite Hwrite. rewrite (Hplain (Hnone eq_refl)). reflexivity.
Defined.

End AutosaveClaims.

(** ** The model on concrete inputs *)

Section Examples.

Example trim_strips_both_ends : trim "  at " = "at" /\ trim "a b" = "a b" /\ trim "   " = "".
Proof. repeat split. Qed.

Example toLowerCase_basic : toLowerCase "Cat 7 DOG" = "cat 7 dog".
Proof. reflexivity. Qed.

Example includes_substring :
  includes "cat" "at" = true /\ includes "dog" "at" = false /\ includes "" "" = true.
Proof. repeat split. Qed.

Example toStr_array :
  toStr (JArr [JNum "1"; JNull; JArr [JNum "-2.5"; JStr "x"]; JBool true; JObj []])
  = Ok "1,,-2.5,x,true,[object Object]".
Proof. reflexivity. Qed.

Example toStr_own_toString :
  toStr (JObj [("toString", JStr "x")]) = Throw
  /\ toStr (JArr [JStr "a"; JArr [JObj [("toString", JNull)]]]) = Throw
  /\ toStr (JObj [("id", JObj [("toString", JNull)])]) = Ok "[object Object]".
Proof. repeat split. Qed.

Example truthy_numbers :
  truthy (JNum "0") = false /\ truthy (JNum "NaN") = false
  /\ truthy (JNum "0.5") = true /\ truthy (JNum "-Infinity") = true.
Proof. repeat split. Qed.

Example stringify_plain :
  stringify (JArr [JNum "1"; JNull; JBool false; JArr []; JNum "1e+21"; JNum "Infinity"])
  = "[1,null,false,[],1e+21,null]".
Proof. reflexivity. Qed.

Example decode_escapes :
  Sample.decode "a%20b%3D" = Ok "a b="
  /\ Sample.decode (Sample.encode "p 1/x_y") = Ok "p 1/x_y"
  /\ Sample.decode "%" = Throw
  /\ Sample.decode "%zz" = Throw
  /\ Sample.decode "%C3" = Throw.
Proof. repeat split. Qed.

Example readStarredRecord_escapes :
  Reader.readStarredRecord (Spec.starredRecord []) = Some []
  /\ Reader.readStarredRecord (Spec.starredRecord ["a"; String dquote "b"; String backslash "n"])
     = Some ["a"; String dquote "b"; String backslash "n"]
  /\ Reader.readStarredRecord "{}" = None.
Proof. repeat split. Qed.

Example encode_escapes : Sample.encode "p 1/x_y" = "p%201%2Fx_y".
Proof. reflexivity. Qed.

Example matchCookie_leftmost :
  Cookie.matchCookie "a" "a=1; a=2" = Some "1"
  /\ Cookie.matchCookie "a" "ba=1; a=2; a=3" = Some "2"
  /\ Cookie.matchCookie "csrf-token" "xcsrf-token=1" = None
  /\ Cookie.matchCookie "a" "b=1; a=" = Some "".
Proof. repeat split. Qed.

Example getCookie_swallows_decode_error :
  @Cookie.getCookie Sample.page (Ok "csrfToken=%") "csrfToken" = None
  /\ @Cookie.getCookie Sample.page Throw "csrfToken" = None.
Proof. repeat split. Qed.

Example bootstrap_read_request :
  Reconcile.calls (@Reconcile.startBootstrap Sample.page Sample.session (Reconcile.mounted JNull))
  = [Fetch {| url := "https://api.example/api/projects/p%201/boards/default";
              method := "GET"; credentials := "include"; headers := ∅; body := None |}].
Proof. reflexivity. Qed.

Example catalogue_shapes :
  Catalog.normalizedLibraries JNull "" [] = Ok []
  /\ Catalog.normalizedLibraries (JObj []) "" [] = Throw
  /\ Catalog.normalizedLibraries (JArr [JNull]) "" [] = Throw
  /\ Catalog.normalizedLibraries (JArr [JNum "5"]) "" ["0"]
     = Ok [{| Catalog.id := "0"; Catalog.label := "Item 1";
              Catalog.haystack := "item 1"; Catalog.isStarred := true |}].
Proof. repeat split. Qed.

Example sort_keeps_catalogue_order :
  map Catalog.id
    (Catalog.sort Catalog.compareFn
       [ {| Catalog.id := "1"; Catalog.label := ""; Catalog.haystack := ""; Catalog.isStarred := false |};
         {| Catalog.id := "2"; Catalog.label := ""; Catalog.haystack := ""; Catalog.isStarred := true |};
         {| Catalog.id := "3"; Catalog.label := ""; Catalog.haystack := ""; Catalog.isStarred := false |};
         {| Catalog.id := "4"; Catalog.label := ""; Catalog.haystack := ""; Catalog.isStarred := true |} ])
  = ["2"; "4"; "1"; "3"].
Proof. reflexivity. Qed.

Example toggled_samples :
  Catalog.toggled "a" ["b"] = ["b"; "a"]
  /\ Catalog.toggled "b" ["b"; "c"; "b"] = ["c"]
  /\ Catalog.toggled "b" (Catalog.toggled "b" ["b"; "c"]) = ["c"; "b"].
Proof. repeat split. Qed.

Example save_without_project :
  Autosave.writes
    (@Autosave.run Sample.page
       {| Autosave.session := {| projectId := None; boardId := "default";
                                 apiBase := "https://api.example" |};
          Autosave.cookie := Ok "" |}
       (Autosave.idle false)
       [Autosave.Change (Sample.args 1); Autosave.Elapse 1000]) = [].
Proof. reflexivity. Qed.

End Examples.

(** * Further properties of the code *)

(** ** Autosave: whole runs *)

Section AutosaveRuns.

Import Autosave.
Context `{Host}.
Local Open Scope N_scope.

Lemma fire_fields (env : Env) (a : Args) (st : State) :
  let st' := fire env a st in
  timers st' = timers st
  /\ viewModeEnabled st' = viewModeEnabled st
  /\ now st' = now st
  /\ nextHandle st' = nextHandle st
  /\ lastUpdated st' = lastUpdated st
  /\ saveTimer st' = None
  /\ writes st'
     = writes st ++ match Trace.bound env with
                    | Some pid => [writeRequest env pid a]
                    | None => []
                    end.
Proof.
  unfold fire, Trace.bound. destruct (projectId (session env)) as [pid|].
  - destruct (isEmpty pid); unfold writes; cbn; rewrite ?omap_app; cbn;
      rewrite ?app_nil_r; repeat split; reflexivity.
  - unfold writes. cbn. rewrite app_nil_r. repeat split; reflexivity.
Qed.

Lemma fire_all (env : Env) (ready : list Timer) :
  forall st,
    let st' := fold_left (fun s x => fire env (payload x) s) ready st in
    timers st' = timers st
    /\ viewModeEnabled st' = viewModeEnabled st
    /\ now st' = now st
    /\ nextHandle st' = nextHandle st
    /\ saveTimer st' = match ready with [] => saveTimer st | _ :: _ => None end
    /\ writes st' = writes st ++ Trace.firedWrites env ready.
Proof.
  induction ready as [|t ready IH]; intros st; cbv zeta.
  - simpl. unfold Trace.firedWrites. destruct (Trace.bound env); simpl;
      rewrite app_nil_r; repeat split; reflexivity.
  - simpl fold_left.
    destruct (IH (fire env (payload t) st)) as (Ht & Hv & Hn & Hh & Hs & Hw).
    destruct (fire_fields env (payload t) st) as (Ht' & Hv' & Hn' & Hh' & _ & Hs' & Hw').
    rewrite Ht, Hv, Hn, Hh, Hw, Ht', Hv', Hn', Hh', Hw'.
    repeat split.
    + rewrite Hs. destruct ready; [exact Hs' | reflexivity].
    + unfold Trace.firedWrites. destruct (Trace.bound env); simpl;
        rewrite <- app_assoc; reflexivity.
Qed.

(** What a wait does: the tickets that are due fire, the others stay. *)
Lemma elapse_fields (env : Env) (dt : N) (st : State) :
  let ready := List.filter (fun x => due x <=? now st + dt) (timers st) in
  let st' := elapse env dt st in
  timers st' = List.filter (fun x => negb (due x <=? now st + dt)) (timers st)
  /\ viewModeEnabled st' = viewModeEnabled st
  /\ now st' = now st + dt
  /\ nextHandle st' = nextHandle st
  /\ saveTimer st' = match ready with [] => saveTimer st | _ :: _ => None end
  /\ writes st' = writes st ++ Trace.firedWrites env ready.
Proof.
  cbv zeta. unfold elapse.
  match goal with
  | |- context [fold_left ?f ?l ?s0] => pose proof (fire_all env l s0) as Hall
  end.
  cbv zeta in Hall. destruct Hall as (Ht & Hv & Hn & Hh & Hs & Hw).
  rewrite Ht, Hv, Hn, Hh, Hs, Hw. repeat split.
Qed.

Lemma handleChange_fields (a : Args) (st : State) :
  viewModeEnabled st = false ->
  let st' := handleChange a st in
  timers st'
  = match saveTimer st with
    | Some h => List.filter (fun t => negb (Nat.eqb (handle t) h)) (timers st)
    | None => timers st
    end ++ [{| handle := nextHandle st; due := now st + quietPeriod; payload := a |}]
  /\ saveTimer st' = Some (nextHandle st)
  /\ viewModeEnabled st' = false
  /\ now st' = now st
  /\ writes st' = writes st.
Proof.
  intros Hview. cbv zeta. unfold handleChange. rewrite Hview.
  destruct (saveTimer st); cbn; repeat split; assumption.
Qed.

Lemma saveSettled_fields (r : FetchResult) (clock : string) (st : State) :
  let st' := saveSettled r clock st in
  timers st' = timers st
  /\ saveTimer st' = saveTimer st
  /\ viewModeEnabled st' = viewModeEnabled st
  /\ now st' = now st
  /\ writes st' = writes st
  /\ isSaving st' = false.
Proof.
  cbv zeta. unfold saveSettled.
  destruct r as [|[|] decoded]; cbn; try (repeat split; reflexivity).
  destruct (getOpt (catch decoded JNull) "updatedAt") as [u|];
    [destruct (truthy u); [destruct (toStr u)|]|]; cbn; repeat split; reflexivity.
Qed.

Lemma singleTicket_ticketed (st : State) : Trace.singleTicket st -> Inv.ticketed st.
Proof.
  intros [Hnone | (t & Hone & Hsave)] x Hx.
  - rewrite Hnone in Hx. destruct Hx.
  - rewrite Hone in Hx. destruct Hx as [<- | []]. exact Hsave.
Qed.

Lemma step_singleTicket (env : Env) (st : State) (e : Event) :
  Trace.singleTicket st -> Trace.singleTicket (step env st e).
Proof.
  intros Hst. destruct e as [a | dt | | r clock]; simpl.
  - destruct (viewModeEnabled st) eqn:Hview.
    + rewrite handleChange_view_only by exact Hview. exact Hst.
    + destruct (handleChange_arms a st Hview (singleTicket_ticketed st Hst))
        as (h & Ht & Hs & _).
      right. eexists. split; [exact Ht | exact Hs].
  - pose proof (elapse_fields env dt st) as Hel. cbv zeta in Hel.
    destruct Hel as (Ht & _ & _ & _ & Hs & _).
    destruct Hst as [Hnone | (t & Hone & Hsave)].
    + left. rewrite Hnone in Ht. exact Ht.
    + rewrite Hone in Ht, Hs. simpl in Ht, Hs.
      destruct (due t <=? now st + dt); simpl in Ht, Hs.
      * left. exact Ht.
      * right. exists t. rewrite Ht, Hs. auto.
  - exact Hst.
  - pose proof (saveSettled_fields r clock st) as Hset. cbv zeta in Hset.
    destruct Hset as (Ht & Hs & _).
    unfold Trace.singleTicket. rewrite Ht, Hs. exact Hst.
Qed.

(** X1: at most one save ticket is outstanding at any time: whatever the
    sequence of notifications, waits, mode switches and settled saves, a
    state with no ticket or a single one referred to by [saveTimer] leads to
    such a state again. *)
Theorem at_most_one_ticket (env : Env) (es : list Event) (st : State) :
  Trace.singleTicket st ->
  Trace.singleTicket (run env st es)
  /\ (length (timers (run env st es)) <= 1)%nat.
Proof.
  revert st. induction es as [|e es IH]; intros st Hst.
  - split; [exact Hst|]. change (run env st []) with st.
    destruct Hst as [-> | (t & -> & _)]; simpl; lia.
  - change (run env st (e :: es)) with (run env (step env st e) es).
    apply IH. apply step_singleTicket. exact Hst.
Qed.

Lemma bound_Some (env : Env) (pid : string) :
  Trace.bound env = Some pid ->
  projectId (session env) = Some pid /\ isEmpty pid = false.
Proof.
  unfold Trace.bound. destruct (projectId (session env)) as [p|]; [|discriminate].
  destruct (isEmpty p) eqn:Hp; [discriminate|]. intros [= <-]. auto.
Qed.

Lemma step_no_project (env : Env) (st : State) (e : Event) :
  Trace.bound env = None -> writes (step env st e) = writes st.
Proof.
  intros Hnone. destruct e as [a | dt | | r clock]; simpl.
  - destruct (viewModeEnabled st) eqn:Hview.
    + rewrite handleChange_view_only by exact Hview. reflexivity.
    + apply (handleChange_fields a st Hview).
  - pose proof (elapse_fields env dt st) as Hel. cbv zeta in Hel.
    destruct Hel as (_ & _ & _ & _ & _ & ->).
    unfold Trace.firedWrites. rewrite Hnone. apply app_nil_r.
  - reflexivity.
  - apply (saveSettled_fields r clock st).
Qed.

(** X2: with no project identifier (absent or empty) no write is ever
    issued, whatever happens. *)
Theorem no_project_no_write (env : Env) (es : list Event) (st : State) :
  Trace.bound env = None -> writes (run env st es) = writes st.
Proof.
  intros Hnone. revert st. induction es as [|e es IH]; intros st; [reflexivity|].
  change (run env st (e :: es)) with (run env (step env st e) es).
  rewrite IH. apply step_no_project. exact Hnone.
Qed.

(** X3: notifications that are each followed by a full quiet period are
    not coalesced: every one of them is written, in order. *)
Theorem spaced_notifications_all_saved (env : Env) (pid : string)
    (l : list (Args * N)) (st : State) :
  Trace.bound env = Some pid ->
  viewModeEnabled st = false ->
  Inv.ticketed st ->
  Forall (fun p => quietPeriod <= snd p) l ->
  writes (run env st (Trace.spaced l))
  = writes st ++ map (fun p => writeRequest env pid (fst p)) l
  /\ (l <> [] -> timers (run env st (Trace.spaced l)) = []).
Proof.
  intros Hbound. destruct (bound_Some env pid Hbound) as [Hpid Hne].
  revert st. induction l as [|[a dt] l IH]; intros st Hview Hticket Hl.
  - simpl. rewrite app_nil_r. split; [reflexivity | congruence].
  - inversion Hl as [|? ? Hdt Hl']; subst. simpl in Hdt.
    change (run env st (Trace.spaced ((a, dt) :: l)))
      with (run env (elapse env dt (handleChange a st)) (Trace.spaced l)).
    pose proof (handleChange_arms a st Hview Hticket) as Harmed.
    destruct (elapse_fires env pid _ _ dt _ Hpid Hne Harmed Hdt) as (Ht & Hs & _ & Hw).
    pose proof (elapse_fields env dt (handleChange a st)) as Hel. cbv zeta in Hel.
    destruct Hel as (_ & Hv & _).
    destruct (IH (elapse env dt (handleChange a st))) as [IHw IHt].
    + rewrite Hv. destruct Harmed as (h & _ & _ & Hv' & _). exact Hv'.
    + intros t Hin. rewrite Ht in Hin. destruct Hin.
    + exact Hl'.
    + split.
      * rewrite IHw, Hw. simpl. rewrite <- app_assoc. reflexivity.
      * intros _. destruct l as [|p l]; [exact Ht | apply IHt; discriminate].
Qed.


End AutosaveRuns.

Section AutosaveRunsWitnesses.

Import Autosave.
Local Open Scope N_scope.

Lemma at_most_one_ticket_witness :
  (length (timers (@run Sample.page (Sample.env (Ok "")) (idle false)
                     [Change (Sample.args 1); Elapse 400; Change (Sample.args 2);
                      ToggleViewMode; Change (Sample.args 3); Elapse 100])) <= 1)%nat.
Proof.
  apply (@at_most_one_ticket Sample.page (Sample.env (Ok ""))
           [Change (Sample.args 1); Elapse 400; Change (Sample.args 2);
            ToggleViewMode; Change (Sample.args 3); Elapse 100] (idle false)).
  left. reflexivity.
Defined.

Lemma no_project_no_write_witness :
  writes (@run Sample.page
            {| session := {| projectId := Some ""; boardId := "default";
                             apiBase := "https://api.example" |};
               cookie := Ok "csrfToken=tok" |}
            (idle false)
            [Change (Sample.args 1); Elapse 1000; Change (Sample.args 2); Elapse 5000])
  = [].
Proof.
  apply (@no_project_no_write Sample.page
           {| session := {| projectId := Some ""; boardId := "default";
                            apiBase := "https://api.example" |};
              cookie := Ok "csrfToken=tok" |}
           [Change (Sample.args 1); Elapse 1000; Change (Sample.args 2); Elapse 5000]
           (idle false)).
  reflexivity.
Defined.

Lemma spaced_notifications_all_saved_witness :
  writes (@run Sample.page (Sample.env (Ok "")) (idle false)
            (Trace.spaced [(Sample.args 1, 1000); (Sample.args 2, 2500)]))
  = [@writeRequest Sample.page (Sample.env (Ok "")) "p 1" (Sample.args 1);
     @writeRequest Sample.page (Sample.env (Ok "")) "p 1" (Sample.args 2)].
Proof.
  apply (@spaced_notifications_all_saved Sample.page (Sample.env (Ok "")) "p 1"
           [(Sample.args 1, 1000); (Sample.args 2, 2500)] (idle false)).
  - reflexivity.
  - reflexivity.
  - intros t [].
  - repeat constructor; discriminate.
Defined.


End AutosaveRunsWitnesses.

Section AutosaveAccounts.

Import Autosave.
Context `{Host}.
Local Open Scope N_scope.

Lemma filter_split_length {A} (f : A -> bool) (l : list A) :
  (length (List.filter f l) + length (List.filter (fun x => negb (f x)) l)
   = length l)%nat.
Proof.
  induction l as [|x l IH]; simpl; [reflexivity|].
  destruct (f x); simpl; lia.
Qed.

Lemma Forall_filter_keep {A} (P : A -> Prop) (f : A -> bool) (l : list A) :
  Forall P l -> Forall P (List.filter f l).
Proof.
  intros Hl. apply List.Forall_forall. intros x Hx.
  apply List.filter_In in Hx. destruct Hx as [Hx _].
  revert x Hx. apply List.Forall_forall. exact Hl.
Qed.

Lemma accounted_more (seen more : list Args) (st : State) :
  Trace.accounted seen st -> Trace.accounted (seen ++ more) st.
Proof.
  intros (Ht & Hw & Hn). split; [|split].
  - eapply List.Forall_impl; [|exact Ht]. intros t Hin. apply List.in_or_app. left. exact Hin.
  - eapply List.Forall_impl; [|exact Hw]. intros r (a & Ha & Hr).
    exists a. split; [apply List.in_or_app; left; exact Ha | exact Hr].
  - rewrite length_app. lia.
Qed.

Lemma firedWrites_accounted (env : Env) (seen : list Args) (ready : list Timer) :
  Forall (fun t => In (payload t) seen) ready ->
  Forall (fun r => exists a, In a seen /\ method r = "POST"
                             /\ credentials r = "include"
                             /\ body r = Some (bodyOf a))
    (Trace.firedWrites env ready)
  /\ (length (Trace.firedWrites env ready) <= length ready)%nat.
Proof.
  intros Hready. unfold Trace.firedWrites. destruct (Trace.bound env) as [pid|].
  - split; [|rewrite length_map; lia].
    induction Hready as [|t ready Ht Hready IH]; simpl; constructor; [|exact IH].
    exists (payload t). repeat split. exact Ht.
  - split; [constructor | simpl; lia].
Qed.

Lemma step_accounted (env : Env) (seen : list Args) (st : State) (e : Event) :
  Trace.accounted seen st ->
  Trace.accounted (seen ++ Trace.notified [e]) (step env st e).
Proof.
  intros Hst. destruct e as [a | dt | | r clock]; simpl step;
    unfold Trace.notified; simpl omap.
  - destruct (viewModeEnabled st) eqn:Hview.
    + rewrite handleChange_view_only by exact Hview. apply accounted_more. exact Hst.
    + pose proof (handleChange_fields a st Hview) as Hch. cbv zeta in Hch.
      destruct Hch as (Ht' & _ & _ & _ & Hw').
      destruct Hst as (Ht & Hw & Hn).
      set (kept := match saveTimer st with
                   | Some h => List.filter (fun t => negb (Nat.eqb (handle t) h)) (timers st)
                   | None => timers st
                   end) in Ht'.
      assert (Hkept : Forall (fun t => In (payload t) seen) kept
                      /\ (length kept <= length (timers st))%nat).
      { subst kept. destruct (saveTimer st) as [h|]; [|split; [exact Ht | lia]].
        split; [apply Forall_filter_keep; exact Ht | apply List.filter_length_le]. }
      destruct Hkept as [Hkept Hlen].
      unfold Trace.accounted. rewrite Ht', Hw'. split; [|split].
      * apply List.Forall_app. split.
        -- eapply List.Forall_impl; [|exact Hkept].
           intros t Hin. apply List.in_or_app. left. exact Hin.
        -- constructor; [|constructor]. apply List.in_or_app. right. left. reflexivity.
      * eapply List.Forall_impl; [|exact Hw]. intros r (a0 & Ha & Hr).
        exists a0. split; [apply List.in_or_app; left; exact Ha | exact Hr].
      * rewrite !length_app. simpl. lia.
  - rewrite app_nil_r.
    pose proof (elapse_fields env dt st) as Hel. cbv zeta in Hel.
    destruct Hel as (Ht' & _ & _ & _ & _ & Hw').
    destruct Hst as (Ht & Hw & Hn).
    destruct (firedWrites_accounted env seen
                (List.filter (fun x => due x <=? now st + dt) (timers st))
                (Forall_filter_keep _ _ _ Ht)) as [Hfw Hfl].
    pose proof (filter_split_length (fun x => due x <=? now st + dt) (timers st)) as Hsplit.
    unfold Trace.accounted. rewrite Ht', Hw'. split; [|split].
    + apply Forall_filter_keep. exact Ht.
    + apply List.Forall_app. split; assumption.
    + rewrite length_app. lia.
  - rewrite app_nil_r. exact Hst.
  - rewrite app_nil_r.
    pose proof (saveSettled_fields r clock st) as Hset. cbv zeta in Hset.
    destruct Hset as (Ht' & _ & _ & _ & Hw' & _).
    unfold Trace.accounted. rewrite Ht', Hw'. exact Hst.
Qed.

Lemma run_accounted (env : Env) (es : list Event) :
  forall (seen : list Args) (st : State),
    Trace.accounted seen st ->
    Trace.accounted (seen ++ Trace.notified es) (run env st es).
Proof.
  induction es as [|e es IH]; intros seen st Hst.
  - unfold Trace.notified. simpl. rewrite app_nil_r. exact Hst.
  - change (run env st (e :: es)) with (run env (step env st e) es).
    replace (seen ++ Trace.notified (e :: es))
      with ((seen ++ Trace.notified [e]) ++ Trace.notified es).
    + apply IH. apply step_accounted. exact Hst.
    + rewrite <- app_assoc. f_equal. unfold Trace.notified.
      change (e :: es) with ([e] ++ es). rewrite omap_app. reflexivity.
Qed.

(** X5: in every run from the idle state, each write that was issued is a
    POST with credentials whose body is built from the arguments of one of
    the notifications of the run, and there are never more writes than
    notifications. *)
Theorem writes_come_from_notifications (env : Env) (es : list Event) (viewMode : bool) :
  let st := run env (idle viewMode) es in
  Forall (fun r => exists a, In (Change a) es
                             /\ method r = "POST"
                             /\ credentials r = "include"
                             /\ body r = Some (bodyOf a))
    (writes st)
  /\ (length (writes st) <= length (Trace.notified es))%nat.
Proof.
  cbv zeta.
  destruct (run_accounted env es [] (idle viewMode)) as (_ & Hw & Hn).
  { repeat split; simpl; try constructor. }
  simpl in Hw, Hn. split; [|lia].
  eapply List.Forall_impl; [|exact Hw]. intros r (a & Ha & Hr).
  exists a. split; [|exact Hr].
  unfold Trace.notified in Ha. apply list_elem_of_In in Ha.
  apply list_elem_of_omap in Ha. destruct Ha as (e & He & Hea).
  destruct e; try discriminate. injection Hea as ->.
  apply list_elem_of_In. exact He.
Qed.

(** X6: when a write settles the saving flag is cleared whatever the
    outcome, and nothing is scheduled or written.  An OK response with a
    truthy [updatedAt] sets the last-saved timestamp to what [String]
    makes of it; when [String] throws on it (an object with a member
    called [toString], or an array holding one) the rejection is absorbed
    by line 207 and the timestamp stays as it was.  An OK response whose
    [updatedAt] is absent or falsy, or whose body is undecodable, sets it
    to the local clock; a rejection or a response that is not OK leaves it
    as it was. *)
Theorem save_settles (r : FetchResult) (clock : string) (st : State) :
  let st' := saveSettled r clock st in
  isSaving st' = false
  /\ timers st' = timers st
  /\ saveTimer st' = saveTimer st
  /\ writes st' = writes st
  /\ (forall decoded u,
        r = Responded true decoded ->
        getOpt (catch decoded JNull) "updatedAt" = Some u ->
        truthy u = true ->
        lastUpdated st'
        = match toStr u with
          | Ok s => Some s
          | Throw => lastUpdated st
          end
        /\ (toStr u = Throw <-> Spec.printable u = false)
        /\ (forall s, u = JStr s -> lastUpdated st' = Some s)
        /\ (forall text, u = JNum text -> lastUpdated st' = Some text))
  /\ (forall decoded,
        r = Responded true decoded ->
        truthy' (getOpt (catch decoded JNull) "updatedAt") = false ->
        lastUpdated st' = Some clock)
  /\ (r = Responded true Throw -> lastUpdated st' = Some clock)
  /\ (r = Rejected \/ (exists decoded, r = Responded false decoded) ->
      lastUpdated st' = lastUpdated st).
Proof.
  cbv zeta.
  pose proof (saveSettled_fields r clock st) as Hset. cbv zeta in Hset.
  destruct Hset as (Ht & Hs & _ & _ & Hw & Hsaving).
  split; [exact Hsaving|]. split; [exact Ht|]. split; [exact Hs|]. split; [exact Hw|].
  unfold saveSettled. split; [|split; [|split]].
  - intros decoded u -> Hu Htruthy. rewrite Hu, Htruthy.
    split; [destruct (toStr u); reflexivity|].
    split; [apply toStr_throws|].
    split; intros x ->; reflexivity.
  - intros decoded -> Hfalsy.
    destruct (getOpt (catch decoded JNull) "updatedAt") as [u|]; [|reflexivity].
    simpl in Hfalsy. rewrite Hfalsy. reflexivity.
  - intros ->. reflexivity.
  - intros [-> | [decoded ->]]; reflexivity.
Qed.

End AutosaveAccounts.

Section AutosaveAccountsWitnesses.

Import Autosave.
Local Open Scope N_scope.

Lemma writes_come_from_notifications_witness :
  (length (writes (@run Sample.page (Sample.env (Ok "")) (idle false)
                     [Change (Sample.args 1); Elapse 10; Change (Sample.args 2);
                      Elapse 1000; Change (Sample.args 3); Elapse 1000]))
   <= 3)%nat.
Proof.
  apply (proj2 (@writes_come_from_notifications Sample.page (Sample.env (Ok ""))
                  [Change (Sample.args 1); Elapse 10; Change (Sample.args 2);
                   Elapse 1000; Change (Sample.args 3); Elapse 1000] false)).
Defined.

Lemma save_settles_witness :
  let saving := @fire Sample.page (Sample.env (Ok "")) (Sample.args 1) (idle false) in
  isSaving saving = true
  /\ lastUpdated (saveSettled (Responded true (Ok (JObj [])))
                    "2024-05-01T10:00:00.000Z" saving)
     = Some "2024-05-01T10:00:00.000Z"
  /\ lastUpdated (saveSettled (Responded true (Ok (JObj [("updatedAt", JStr "t1")])))
                    "2024-05-01T10:00:00.000Z" saving)
     = Some "t1"
  /\ lastUpdated (saveSettled
                    (Responded true (Ok (JObj [("updatedAt", JObj [("toString", JNull)])])))
                    "2024-05-01T10:00:00.000Z" saving)
     = None
  /\ lastUpdated (saveSettled (Responded false Throw)
                    "2024-05-01T10:00:00.000Z" saving)
     = None.
Proof.
  cbv zeta. split; [reflexivity|].
  pose proof (save_settles (Responded true (Ok (JObj []))) "2024-05-01T10:00:00.000Z"
                (@fire Sample.page (Sample.env (Ok "")) (Sample.args 1) (idle false)))
    as Hplain.
  pose proof (save_settles (Responded true (Ok (JObj [("updatedAt", JStr "t1")])))
                "2024-05-01T10:00:00.000Z"
                (@fire Sample.page (Sample.env (Ok "")) (Sample.args 1) (idle false)))
    as Hserver.
  pose proof (save_settles
                (Responded true (Ok (JObj [("updatedAt", JObj [("toString", JNull)])])))
                "2024-05-01T10:00:00.000Z"
                (@fire Sample.page (Sample.env (Ok "")) (Sample.args 1) (idle false)))
    as Hthrow.
  pose proof (save_settles (Responded false Throw) "2024-05-01T10:00:00.000Z"
                (@fire Sample.page (Sample.env (Ok "")) (Sample.args 1) (idle false)))
    as Hfail.
  cbv zeta in Hplain, Hserver, Hthrow, Hfail.
  destruct Hplain as (_ & _ & _ & _ & _ & Hclock & _).
  destruct Hserver as (_ & _ & _ & _ & Hu & _).
  destruct Hthrow as (_ & _ & _ & _ & Hobj & _).
  destruct Hfail as (_ & _ & _ & _ & _ & _ & _ & Hkeep).
  split; [apply (Hclock (Ok (JObj []))); reflexivity|].
  split; [exact (proj1 (Hu (Ok (JObj [("updatedAt", JStr "t1")])) (JStr "t1")
                          eq_refl eq_refl eq_refl))|].
  split; [exact (proj1 (Hobj (Ok (JObj [("updatedAt", JObj [("toString", JNull)])]))
                          (JObj [("toString", JNull)]) eq_refl eq_refl eq_refl))|].
  rewrite Hkeep; [reflexivity|]. right. eexists. reflexivity.
Defined.

End AutosaveAccountsWitnesses.

(** ** Scene reconciliation: whole runs *)

Section ReconcileRuns.

Import Reconcile.
Context `{Host}.

Lemma last_sublist {A} (docs : list A) (d : A) :
  last docs = Some d -> [d] `sublist_of` docs.
Proof.
  intros Hlast. apply last_Some in Hlast. destruct Hlast as [l' ->].
  apply sublist_inserts_l. reflexivity.
Qed.

Lemma step_following (ready : bool) (docs : list JSON) (st : State) (e : Event) :
  Trace.following ready docs st ->
  Trace.following (ready || Inv.isReady e) (docs ++ Trace.documents [e]) (step st e).
Proof.
  intros Hst. unfold Trace.documents. simpl omap.
  destruct (Spec.delivered e) as [d|] eqn:Hd.
  - (* the event delivers a Document *)
    destruct e as [[|] [|[|] [body|]] | |]; try discriminate.
    simpl Inv.isReady. rewrite orb_false_r.
    simpl in Hd. unfold step, bootstrapSettled. simpl catch.
    destruct (getOpt body "data") as [d'|]; [|discriminate].
    destruct (truthy d' && isObjectType d'); [|discriminate].
    injection Hd as ->.
    destruct Hst as (Hdoc & Hclean & Hready & Href & Hsub & Hlast & Hnone).
    assert (Hgoal : forall st', (st' = setInitialData d st
                                 \/ exists s, st' = setLastUpdated s (setInitialData d st)) ->
                                Trace.following ready (docs ++ [d]) (commit st')).
    { intros st' Hst'.
      pose proof (commit_fields st') as Hcom. cbv zeta in Hcom.
      destruct Hcom as (Hi' & _ & Hr' & Hy' & Hc' & _ & Hl').
      unfold Trace.following. rewrite Hi', Hr', Hy', Hc', Hl', last_snoc.
      destruct Hst' as [-> | [s ->]]; cbn;
        fold (sceneLoads st); rewrite Hready, Href;
        (destruct ready; simpl;
         [ repeat split; try (intros; discriminate);
           [ apply sublist_app; [exact Hsub | reflexivity]
           | intros _; apply last_snoc ]
         | rewrite (Hnone eq_refl); simpl;
           repeat split; try (intros; discriminate); apply sublist_nil_l ]). }
    destruct (getOpt body "updatedAt") as [u|];
      [destruct (truthy u); [destruct (toStr u) as [s|]; simpl|]|];
      apply Hgoal; eauto.
  - (* the event delivers nothing *)
    rewrite app_nil_r.
    destruct Hst as (Hdoc & Hclean & Hready & Href & Hsub & Hlast & Hnone).
    destruct e as [c r | |]; simpl Inv.isReady;
      rewrite ?orb_false_r, ?orb_true_r; unfold step.
    + destruct (bootstrapSettled_quiet c r st Hd) as [-> | [s ->]];
        (rewrite commit_clean; [|exact Hclean]);
        repeat split; assumption.
    + pose proof (onExcalidrawAPI_fields st) as Hapi. cbv zeta in Hapi.
      destruct Hapi as (Hi & _ & Hr & Hy & Hc & Hl & _).
      pose proof (commit_fields (onExcalidrawAPI st)) as Hcom. cbv zeta in Hcom.
      destruct Hcom as (Hi' & _ & Hr' & Hy' & Hc' & _ & Hl').
      unfold Trace.following.
      rewrite Hi', Hi, Hr', Hr, Hy', Hy, Hc', Hl', Hl, Hi, Hr, Hy, Hc, Hdoc, Hclean, Hready.
      destruct ready; simpl.
      * assert (Hsame : sceneLoads st ++ match last docs with
                                         | Some _ => []
                                         | None => []
                                         end = sceneLoads st)
          by (destruct (last docs); apply app_nil_r).
        rewrite Hsame. repeat split; auto; intros; discriminate.
      * rewrite (Hnone eq_refl). simpl.
        destruct (last docs) as [d|] eqn:Hl0; simpl;
          repeat split; try (intros; discriminate); try reflexivity.
        -- apply last_sublist. exact Hl0.
        -- apply sublist_nil_l.
    + rewrite commit_clean; [|exact Hclean]. repeat split; assumption.
Qed.

Lemma run_following (es : list Event) :
  forall (ready : bool) (docs : list JSON) (st : State),
    Trace.following ready docs st ->
    Trace.following (ready || existsb Inv.isReady es) (docs ++ Trace.documents es)
      (run st es).
Proof.
  induction es as [|e es IH]; intros ready docs st Hst.
  - simpl. rewrite orb_false_r, app_nil_r. exact Hst.
  - change (run st (e :: es)) with (run (step st e) es).
    replace (docs ++ Trace.documents (e :: es))
      with ((docs ++ Trace.documents [e]) ++ Trace.documents es).
    + simpl existsb. rewrite orb_assoc. apply IH. apply step_following. exact Hst.
    + rewrite <- app_assoc. f_equal. unfold Trace.documents.
      change (e :: es) with ([e] ++ es). rewrite omap_app. reflexivity.
Qed.

Lemma mounted_following (items : JSON) : Trace.following false [] (mounted items).
Proof.
  repeat split; try reflexivity; try (intros; discriminate).
Qed.

Lemma existsb_isReady_false (es : list Event) :
  ~ In CanvasReady es -> existsb Inv.isReady es = false.
Proof.
  intros Hnot. destruct (existsb Inv.isReady es) eqn:Hex; [|reflexivity].
  apply existsb_exists in Hex. destruct Hex as (e & He & Hready).
  destruct e; try discriminate. contradiction.
Qed.

(** X7: in every run from the mounted component, the scenes handed to the
    canvas are Documents that the bootstrap read delivered, in the order of
    delivery and each delivery at most once; the Document held is the latest
    one delivered; once the canvas has reported ready the latest Document is
    the last scene loaded, and before that nothing is loaded. *)
Theorem scenes_follow_deliveries (items : JSON) (es : list Event) :
  let st := run (mounted items) es in
  sceneLoads st `sublist_of` Trace.documents es
  /\ initialData st = last (Trace.documents es)
  /\ (In CanvasReady es -> last (sceneLoads st) = last (Trace.documents es))
  /\ (~ In CanvasReady es -> sceneLoads st = []).
Proof.
  cbv zeta.
  destruct (run_following es false [] (mounted items) (mounted_following items))
    as (Hdoc & _ & _ & _ & Hsub & Hlast & Hnone).
  simpl in Hdoc, Hsub, Hlast, Hnone.
  split; [exact Hsub|]. split; [exact Hdoc|]. split.
  - intros Hin. apply Hlast. apply existsb_isReady. exact Hin.
  - intros Hnot. apply Hnone. apply existsb_isReady_false. exact Hnot.
Qed.

End ReconcileRuns.

Section ReconcileRunsWitnesses.

Import Reconcile.

Lemma scenes_follow_deliveries_witness :
  let doc n := BootstrapSettled false (Responded true (Ok (JObj [("data", Sample.scene n)]))) in
  last (sceneLoads (@run Sample.page (mounted JNull) [doc 1; doc 2; CanvasReady; Rerender]))
  = Some (Sample.scene 2)
  /\ sceneLoads (@run Sample.page (mounted JNull) [doc 1; doc 2; Rerender]) = [].
Proof.
  cbv zeta. split.
  - apply (@scenes_follow_deliveries Sample.page JNull
             [BootstrapSettled false (Responded true (Ok (JObj [("data", Sample.scene 1)])));
              BootstrapSettled false (Responded true (Ok (JObj [("data", Sample.scene 2)])));
              CanvasReady; Rerender]).
    right. right. left. reflexivity.
  - apply (@scenes_follow_deliveries Sample.page JNull
             [BootstrapSettled false (Responded true (Ok (JObj [("data", Sample.scene 1)])));
              BootstrapSettled false (Responded true (Ok (JObj [("data", Sample.scene 2)])));
              Rerender]).
    intros [Hin | [Hin | [Hin | []]]]; discriminate.
Defined.

End ReconcileRunsWitnesses.

(** ** The catalogue view: further properties *)

Section CatalogViews.

Import Catalog.

Lemma normalizeItem_throws (ids : list string) (index : nat) (item : JSON) :
  normalizeItem ids index item = Throw <-> View.unusable item.
Proof.
  unfold normalizeItem, View.unusable.
  destruct item as [| b | n | s | l | fields]; simpl;
    try (split; [discriminate | intros [Hn | (v & Hv & _)]; discriminate]).
  - split; [left; reflexivity | reflexivity].
  - destruct (lookupField "id" fields) as [v|]; simpl.
    + assert (Hid : match v with
                    | JNull => Ok (pretty index)
                    | _ => toStr v
                    end = Throw <-> Spec.printable v = false).
      { destruct v; try apply toStr_throws. split; discriminate. }
      destruct (match v with
                | JNull => Ok (pretty index)
                | _ => toStr v
                end) as [i|]; simpl.
      * split; [discriminate|]. intros [Hn | (v' & [= <-] & Hv)]; [discriminate|].
        apply Hid in Hv. discriminate.
      * split; [|reflexivity]. intros _. right. exists v.
        split; [reflexivity | apply Hid; reflexivity].
    + split; [discriminate | intros [Hn | (v & Hv & _)]; discriminate].
Qed.

Lemma mapItems_throws (ids : list string) (items : list JSON) :
  forall start,
    mapItems ids start items = Throw <-> exists item, In item items /\ View.unusable item.
Proof.
  induction items as [|x items IH]; intros start; simpl.
  - split; [discriminate | intros (item & [] & _)].
  - destruct (normalizeItem ids start x) as [e|] eqn:He; simpl.
    + assert (Hx : ~ View.unusable x).
      { intros Hx. apply (normalizeItem_throws ids start) in Hx. congruence. }
      destruct (mapItems ids (S start) items) as [es|] eqn:Hes; simpl.
      * split; [discriminate|]. intros (item & [<- | Hin] & Hbad); [contradiction|].
        assert (Hthrow : mapItems ids (S start) items = Throw)
          by (apply IH; exists item; split; assumption).
        congruence.
      * split; [|reflexivity]. intros _.
        apply (IH (S start)) in Hes. destruct Hes as (item & Hin & Hbad).
        exists item. split; [right; exact Hin | exact Hbad].
    + apply normalizeItem_throws in He. split; [|reflexivity].
      intros _. exists x. split; [left; reflexivity | exact He].
Qed.

(** X8: the view computation throws exactly when the catalogue holds an
    entry that is [null] or whose id [String] does not convert (an object
    with a member called [toString], or an array holding such an object),
    or when the catalogue is a truthy value that is not an array; a falsy
    catalogue gives the empty view.  Of a malformed entry only these two
    defects matter: any other entry is taken. *)
Theorem view_throws_on_malformed_catalogue (query : string) (ids : list string) :
  (forall items,
     normalizedLibraries (JArr items) query ids = Throw
     <-> exists item,
           In item items
           /\ (item = JNull
               \/ exists v, getOpt item "id" = Some v /\ Spec.printable v = false))
  /\ (forall v, toStr v = Throw <-> Spec.printable v = false)
  /\ (forall v, truthy v = false -> normalizedLibraries v query ids = Ok [])
  /\ (forall v, truthy v = true -> (forall items, v <> JArr items) ->
        normalizedLibraries v query ids = Throw).
Proof.
  split; [|split; [|split]].
  - intros items. rewrite normalizedLibraries_view.
    etransitivity; [|apply (mapItems_throws ids items 0)].
    destruct (mapItems ids 0 items); simpl; split; congruence.
  - apply toStr_throws.
  - intros v Hv. unfold normalizedLibraries. rewrite Hv. reflexivity.
  - intros v Hv Hnot. unfold normalizedLibraries. rewrite Hv. simpl.
    destruct v; try reflexivity. exfalso. eapply Hnot. reflexivity.
Qed.

Lemma view_throws_on_malformed_catalogue_witness :
  normalizedLibraries (JArr [Sample.item "a" "Cat"; JNull]) "" [] = Throw
  /\ normalizedLibraries
       (JArr [Sample.item "a" "Cat"; JObj [("id", JObj [("toString", JStr "x")])]]) "" []
     = Throw
  /\ normalizedLibraries (JStr "") "cat" ["a"] = Ok []
  /\ normalizedLibraries (JNum "3") "cat" ["a"] = Throw.
Proof.
  split; [|split; [|split]].
  - apply (proj1 (view_throws_on_malformed_catalogue "" [])).
    exists JNull. split; [right; left; reflexivity | left; reflexivity].
  - apply (proj1 (view_throws_on_malformed_catalogue "" [])).
    exists (JObj [("id", JObj [("toString", JStr "x")])]).
    split; [right; left; reflexivity|].
    right. exists (JObj [("toString", JStr "x")]). split; reflexivity.
  - apply (proj1 (proj2 (proj2 (view_throws_on_malformed_catalogue "cat" ["a"])))).
    reflexivity.
  - apply (proj2 (proj2 (proj2 (view_throws_on_malformed_catalogue "cat" ["a"])))).
    + reflexivity.
    + intros items. discriminate.
Defined.

Lemma mapItems_length (ids : list string) (items : list JSON) :
  forall start entries,
    mapItems ids start items = Ok entries -> length entries = length items.
Proof.
  induction items as [|x items IH]; intros start entries Hmap; simpl in Hmap.
  - injection Hmap as <-. reflexivity.
  - destruct (normalizeItem ids start x) as [e|]; [|discriminate]. simpl in Hmap.
    destruct (mapItems ids (S start) items) as [es|] eqn:Hes; [|discriminate].
    simpl in Hmap. injection Hmap as <-. simpl. f_equal. eapply IH. exact Hes.
Qed.

Lemma starredFirst_length (l : list Entry) : length (Spec.starredFirst l) = length l.
Proof. unfold Spec.starredFirst. rewrite length_app. apply filter_split_length. Qed.

Lemma matching_blank (l : list Entry) : Spec.matching "" l = l.
Proof.
  unfold Spec.matching. induction l as [|e l IH]; simpl; [reflexivity|].
  rewrite includes_empty. f_equal. exact IH.
Qed.

(** X9: the view never has more entries than the catalogue, and under a
    blank query (empty or white space only) it has exactly as many: the
    count shown in the panel header is then the size of the catalogue. *)
Theorem view_size (items : list JSON) (query : string) (ids : list string)
    (view : list Entry) :
  normalizedLibraries (JArr items) query ids = Ok view ->
  (length view <= length items)%nat
  /\ (Spec.allWhite query = true -> length view = length items).
Proof.
  rewrite normalizedLibraries_view.
  destruct (mapItems ids 0 items) as [entries|] eqn:Hmap; [|discriminate].
  simpl. intros [= <-]. apply mapItems_length in Hmap.
  unfold Spec.presentationView. rewrite starredFirst_length. split.
  - rewrite <- Hmap. unfold Spec.matching. apply List.filter_length_le.
  - intros Hblank. rewrite (trim_allWhite _ Hblank), matching_blank. exact Hmap.
Qed.

Lemma view_size_witness :
  (length [Sample.entryCat] <= 2)%nat
  /\ length [Sample.entryDog; Sample.entryCat] = 2%nat.
Proof.
  split.
  - apply (proj1 (view_size [Sample.item "a" "Cat"; Sample.item "b" "Dog"] "at" ["b"]
                    [Sample.entryCat] eq_refl)).
  - apply (proj2 (view_size [Sample.item "a" "Cat"; Sample.item "b" "Dog"] "  " ["b"]
                    [Sample.entryDog; Sample.entryCat] eq_refl)).
    reflexivity.
Defined.

End CatalogViews.

Section CatalogStars.

Import Catalog.

Lemma normalizeItem_restar (ids ids' : list string) (index : nat) (item : JSON) (e : Entry) :
  normalizeItem ids index item = Ok e ->
  normalizeItem ids' index item = Ok (View.restar ids' e).
Proof.
  unfold normalizeItem. destruct (getProp item "id") as [idv|]; simpl; [|discriminate].
  destruct (match idv with
            | Some JNull | None => Ok (pretty index)
            | Some v => toStr v
            end) as [i|]; simpl; [|discriminate].
  intros [= <-]. reflexivity.
Qed.

Lemma mapItems_restar (ids ids' : list string) (items : list JSON) :
  forall start entries,
    mapItems ids start items = Ok entries ->
    mapItems ids' start items = Ok (map (View.restar ids') entries).
Proof.
  induction items as [|x items IH]; intros start entries Hmap; simpl in Hmap |- *.
  - injection Hmap as <-. reflexivity.
  - destruct (normalizeItem ids start x) as [e|] eqn:He; [|discriminate]. simpl in Hmap.
    destruct (mapItems ids (S start) items) as [es|] eqn:Hes; [|discriminate].
    simpl in Hmap. injection Hmap as <-.
    rewrite (normalizeItem_restar ids ids' _ _ _ He). simpl.
    rewrite (IH _ _ Hes). reflexivity.
Qed.

Lemma matching_restar (ids' : list string) (query : string) (l : list Entry) :
  Spec.matching query (map (View.restar ids') l)
  = map (View.restar ids') (Spec.matching query l).
Proof.
  unfold Spec.matching. induction l as [|e l IH]; simpl; [reflexivity|].
  destruct (includes (toLowerCase (label e)) (toLowerCase query)); simpl;
    rewrite IH; reflexivity.
Qed.

Lemma starredFirst_perm (l : list Entry) : Permutation (Spec.starredFirst l) l.
Proof.
  unfold Spec.starredFirst. induction l as [|e l IH]; simpl; [constructor|].
  destruct (isStarred e); simpl.
  - constructor. exact IH.
  - rewrite <- Permutation_middle. constructor. exact IH.
Qed.

Lemma shown_restar (ids' : list string) (l : list Entry) :
  map View.shown (map (View.restar ids') l) = map View.shown l.
Proof. induction l as [|e l IH]; simpl; [reflexivity|]. rewrite IH. reflexivity. Qed.

(** The entries shown do not depend on the starred set, only their order
    and their flags do. *)
Lemma view_independent_of_stars (items : list JSON) (query : string)
    (ids ids' : list string) (view : list Entry) :
  normalizedLibraries (JArr items) query ids = Ok view ->
  exists view',
    normalizedLibraries (JArr items) query ids' = Ok view'
    /\ Permutation (map View.shown view') (map View.shown view)
    /\ Forall (fun e => isStarred e = starred ids' (id e)) view'.
Proof.
  rewrite !normalizedLibraries_view.
  destruct (mapItems ids 0 items) as [entries|] eqn:Hmap; [|discriminate].
  simpl. intros [= <-].
  rewrite (mapItems_restar ids ids' _ _ _ Hmap). simpl.
  eexists. split; [reflexivity|]. unfold Spec.presentationView. split.
  - rewrite matching_restar.
    rewrite (Permutation_map View.shown (starredFirst_perm _)).
    rewrite (Permutation_map View.shown (starredFirst_perm (Spec.matching _ entries))).
    rewrite shown_restar. reflexivity.
  - apply List.Forall_forall. intros e He.
    apply (Permutation_in _ (starredFirst_perm _)) in He.
    unfold Spec.matching in He. apply List.filter_In in He. destruct He as [He _].
    apply List.in_map_iff in He. destruct He as (e0 & <- & _). reflexivity.
Qed.

Lemma starred_toggled (i j : string) (ids : list string) :
  starred (toggled i ids) j
  = if String.eqb j i then negb (starred ids i) else starred ids j.
Proof.
  destruct (String.eqb_spec j i) as [-> | Hji].
  - destruct (starred ids i) eqn:Hs; simpl.
    + destruct (starred (toggled i ids) i) eqn:Hs'; [|reflexivity].
      apply starred_In, toggled_self in Hs'. apply starred_In in Hs. contradiction.
    + apply starred_In, toggled_self. rewrite <- starred_In, Hs. discriminate.
  - destruct (starred ids j) eqn:Hs.
    + apply starred_In, toggled_other; [exact Hji|]. apply starred_In. exact Hs.
    + destruct (starred (toggled i ids) j) eqn:Hs'; [|reflexivity].
      apply starred_In, toggled_other in Hs'; [|exact Hji].
      apply starred_In in Hs'. congruence.
Qed.

(** X10: after a click on the star of the entry with id [i], the panel
    shows the same entries (same ids and labels, possibly reordered); the
    flag of the entries with id [i] is the opposite of what it was and the
    flag of every other entry is what it was. *)
Theorem star_click_flips_one_flag (items : list JSON) (query : string) (i : string)
    (st : State) (view : list Entry) :
  normalizedLibraries (JArr items) query (starredLibraryIds st) = Ok view ->
  exists view',
    normalizedLibraries (JArr items) query (starredLibraryIds (toggleStar i st)) = Ok view'
    /\ Permutation (map View.shown view') (map View.shown view)
    /\ Forall (fun e => isStarred e
                        = if String.eqb (id e) i
                          then negb (starred (starredLibraryIds st) i)
                          else starred (starredLibraryIds st) (id e)) view'.
Proof.
  intros Hview. rewrite toggleStar_ids.
  destruct (view_independent_of_stars items query _ (toggled i (starredLibraryIds st))
              view Hview) as (view' & Hv' & Hperm & Hflags).
  exists view'. split; [exact Hv'|]. split; [exact Hperm|].
  eapply List.Forall_impl; [|exact Hflags].
  intros e He. simpl in He. rewrite He. apply starred_toggled.
Qed.

Lemma star_click_flips_one_flag_witness :
  exists view',
    normalizedLibraries Sample.catDog ""
      (starredLibraryIds (toggleStar "a" (Sample.shelf ["b"] true))) = Ok view'
    /\ Permutation (map View.shown view') (map View.shown [Sample.entryDog; Sample.entryCat])
    /\ Forall (fun e => isStarred e
                        = if String.eqb (id e) "a"
                          then negb (starred ["b"] "a")
                          else starred ["b"] (id e)) view'.
Proof.
  apply (star_click_flips_one_flag [Sample.item "a" "Cat"; Sample.item "b" "Dog"] "" "a"
           (Sample.shelf ["b"] true) [Sample.entryDog; Sample.entryCat]).
  reflexivity.
Defined.

(** *** Searching *)

Lemma startsWith_lower (q : string) :
  forall s, startsWith s q = true -> startsWith (toLowerCase s) (toLowerCase q) = true.
Proof.
  induction q as [|a q IH]; intros s Hs; [destruct s; reflexivity|].
  destruct s as [|b s]; [discriminate|]. simpl in Hs |- *.
  destruct (Ascii.eqb_spec a b) as [-> | Hab]; [|discriminate].
  rewrite Ascii.eqb_refl. apply IH. exact Hs.
Qed.

Lemma includes_lower (s q : string) :
  includes s q = true -> includes (toLowerCase s) (toLowerCase q) = true.
Proof.
  induction s as [|c s IH]; simpl.
  - rewrite !orb_false_r. intros Hq. apply (startsWith_lower q "") in Hq. exact Hq.
  - intros Hq. apply orb_true_iff in Hq. destruct Hq as [Hq | Hq].
    + apply (startsWith_lower q (String c s)) in Hq. simpl in Hq. rewrite Hq. reflexivity.
    + rewrite (IH Hq). apply orb_true_r.
Qed.

Lemma startsWith_app (q y : string) : startsWith (q +:+ y) q = true.
Proof.
  induction q as [|a q IH]; simpl; [destruct y; reflexivity|].
  rewrite Ascii.eqb_refl. exact IH.
Qed.

Lemma includes_start (s q : string) : startsWith s q = true -> includes s q = true.
Proof. intros Hs. destruct s; cbn [includes]; rewrite Hs; reflexivity. Qed.

Lemma includes_app_l (x s q : string) :
  includes s q = true -> includes (x +:+ s) q = true.
Proof.
  intros Hs. induction x as [|c x IH]; simpl; [exact Hs|].
  rewrite IH. apply orb_true_r.
Qed.

Lemma trimStart_suffix (s : string) : exists a, s = a +:+ trimStart s.
Proof.
  induction s as [|c s [a IH]]; simpl.
  - exists "". reflexivity.
  - destruct (isWhite c).
    + exists (String c a). rewrite IH at 1. reflexivity.
    + exists "". reflexivity.
Qed.

Lemma trimEnd_prefix (s : string) : exists b, s = trimEnd s +:+ b.
Proof.
  induction s as [|c s [b IH]]; simpl.
  - exists "". reflexivity.
  - destruct (trimEnd s) as [|c' r'] eqn:Hts.
    + change (s = b) in IH. subst b. destruct (isWhite c).
      * exists (String c s). reflexivity.
      * exists s. reflexivity.
    + exists b. rewrite IH at 1. reflexivity.
Qed.

Lemma includes_trim_self (s : string) : includes s (trim s) = true.
Proof.
  unfold trim. destruct (trimStart_suffix s) as [a Ha].
  destruct (trimEnd_prefix (trimStart s)) as [b Hb].
  rewrite Ha at 1. apply includes_app_l. rewrite Hb at 1.
  apply includes_start. apply startsWith_app.
Qed.

(** X11: the view holds every entry whose lowercase label contains the
    lowercase trimmed query, whatever the starred set.  For labels and
    queries made of code units up to U+00FF, the range covered here, on
    which [toLowerCase] maps one code unit at a time, an occurrence
    survives lowercasing: a query then finds every entry in whose label
    its trimmed text occurs as typed, and the label of an entry, typed as
    the query, finds that entry. *)
Theorem query_finds_matching_labels (items : list JSON) (query : string)
    (ids : list string) (entries : list Entry) (e : Entry) :
  mapItems ids 0 items = Ok entries ->
  In e entries ->
  exists view own,
    normalizedLibraries (JArr items) query ids = Ok view
    /\ (includes (toLowerCase (label e)) (toLowerCase (trim query)) = true -> In e view)
    /\ (includes (label e) (trim query) = true -> In e view)
    /\ normalizedLibraries (JArr items) (label e) ids = Ok own
    /\ In e own.
Proof.
  intros Hmap He.
  assert (Hlower : forall q, includes (toLowerCase (label e)) (toLowerCase (trim q)) = true ->
                             In e (Spec.presentationView entries (trim q))).
  { intros q Hq. unfold Spec.presentationView.
    apply (Permutation_in _ (Permutation_sym (starredFirst_perm _))).
    unfold Spec.matching. apply List.filter_In. split; [exact He | exact Hq]. }
  assert (Hfound : forall q, includes (label e) (trim q) = true ->
                             In e (Spec.presentationView entries (trim q))).
  { intros q Hq. apply Hlower. apply includes_lower. exact Hq. }
  rewrite !normalizedLibraries_view, Hmap. simpl.
  eexists. eexists. split; [reflexivity|]. split; [apply Hlower|]. split; [apply Hfound|].
  split; [reflexivity|]. apply Hfound. apply includes_trim_self.
Qed.

Lemma query_finds_matching_labels_witness :
  exists view own,
    normalizedLibraries Sample.catDog " OG " [] = Ok view
    /\ In (View.restar [] Sample.entryDog) view
    /\ normalizedLibraries Sample.catDog "Dog" [] = Ok own
    /\ In (View.restar [] Sample.entryDog) own.
Proof.
  destruct (query_finds_matching_labels [Sample.item "a" "Cat"; Sample.item "b" "Dog"]
              " OG " [] [View.restar [] Sample.entryCat; View.restar [] Sample.entryDog]
              (View.restar [] Sample.entryDog) eq_refl (or_intror (or_introl eq_refl)))
    as (view & own & Hview & Hin & _ & Hown & Hself).
  exists view, own. split; [exact Hview|]. split; [apply Hin; reflexivity|].
  split; [exact Hown | exact Hself].
Defined.

End CatalogStars.

Section CatalogIds.

Import Catalog.

(** X12: an entry whose raw item carries no id is identified by its
    position: its id is the decimal index, so a star given to it at one
    position is lost when the same item sits at another position. *)
Theorem idless_entry_is_identified_by_position (ids : list string) (k k' : nat)
    (item : JSON) (e e' : Entry) :
  View.noId item ->
  normalizeItem ids k item = Ok e ->
  normalizeItem [id e] k' item = Ok e' ->
  id e = pretty k
  /\ label e' = deriveLabel k' item
  /\ (k' = k -> isStarred e' = true)
  /\ (k' <> k -> isStarred e' = false).
Proof.
  intros Hno He He'. unfold normalizeItem in He, He'.
  destruct Hno as [Hno | Hno]; rewrite Hno in He, He'; simpl in He, He';
    injection He as <-; simpl in He'; injection He' as <-; simpl;
    (split; [reflexivity|]; split; [reflexivity|];
     unfold starred; simpl; rewrite orb_false_r; split;
     [ intros ->; apply String.eqb_refl
     | intros Hne; apply String.eqb_neq; intros Heq; apply Hne;
       apply (inj (pretty : nat -> string)) in Heq; exact Heq ]).
Qed.

Lemma idless_entry_is_identified_by_position_witness :
  let item := JObj [("elements", JArr [Sample.text "Cat"])] in
  let first := {| id := "0"; label := "Cat"; haystack := "cat"; isStarred := false |} in
  let moved := {| id := "1"; label := "Cat"; haystack := "cat"; isStarred := false |} in
  normalizeItem [] 0 item = Ok first
  /\ normalizeItem [id first] 1 item = Ok moved
  /\ id first = pretty 0%nat
  /\ isStarred moved = false.
Proof.
  cbv zeta. split; [reflexivity|]. split; [reflexivity|].
  destruct (idless_entry_is_identified_by_position [] 0 1
              (JObj [("elements", JArr [Sample.text "Cat"])])
              {| id := "0"; label := "Cat"; haystack := "cat"; isStarred := false |}
              {| id := "1"; label := "Cat"; haystack := "cat"; isStarred := false |}
              (or_introl eq_refl) eq_refl eq_refl) as (Hid & _ & _ & Hlost).
  split; [exact Hid | apply Hlost; discriminate].
Defined.

(** *** The starred set *)

(** X13: a toggle removes every copy of an id that is present, and a
    starred set without duplicates stays without duplicates. *)
Theorem toggle_keeps_set_clean (i : string) (l : list string) :
  (In i l -> ~ In i (toggled i l))
  /\ (List.NoDup l -> List.NoDup (toggled i l)).
Proof.
  split.
  - intros Hin Hstill. apply toggled_self in Hstill. contradiction.
  - intros Hnd. unfold toggled. destruct (starred l i) eqn:Hs.
    + apply List.NoDup_filter. exact Hnd.
    + apply List.NoDup_app; [exact Hnd | repeat constructor; intros [] |].
      intros x Hx [<- | []]. apply starred_In in Hx. congruence.
Qed.

Lemma toggle_keeps_set_clean_witness :
  ~ In "b" (toggled "b" ["b"; "c"; "b"]) /\ List.NoDup (toggled "a" ["b"; "c"]).
Proof.
  destruct (toggle_keeps_set_clean "b" ["b"; "c"; "b"]) as [Hgone _].
  destruct (toggle_keeps_set_clean "a" ["b"; "c"]) as [_ Hnd].
  split; [apply Hgone; left; reflexivity|].
  apply Hnd. repeat constructor; simpl; intuition discriminate.
Defined.

(** X14: toggles of two ids commute as far as membership goes: the starred
    set after both does not depend on their order. *)
Theorem toggles_commute (i j : string) (l : list string) (x : string) :
  In x (toggled i (toggled j l)) <-> In x (toggled j (toggled i l)).
Proof.
  rewrite <- !starred_In, !starred_toggled.
  destruct (String.eqb_spec x i) as [Hxi | Hxi];
    destruct (String.eqb_spec x j) as [Hxj | Hxj];
    destruct (String.eqb_spec i j) as [Hij | Hij];
    destruct (String.eqb_spec j i) as [Hji | Hji];
    try (exfalso; congruence); subst; try reflexivity.
Qed.

Lemma toggles_commute_witness :
  In "a" (toggled "b" (toggled "a" ["c"; "b"])).
Proof.
  apply (proj1 (toggles_commute "a" "b" ["c"; "b"] "a")).
  right. left. reflexivity.
Defined.

(** X15: a toggle writes the starred record and nothing else: every other
    key of local storage keeps its value, the catalogue in memory is
    untouched, and exactly one storage write is attempted. *)
Theorem toggle_writes_only_starred_record (i : string) (st : State) (k : string) :
  k <> libraryMetaStorageKey ->
  area (localStorage (toggleStar i st)) !! k = area (localStorage st) !! k
  /\ libraryItems (toggleStar i st) = libraryItems st
  /\ View.storageWrites (toggleStar i st)
     = View.storageWrites st
       ++ [(libraryMetaStorageKey, metaRecord (starredLibraryIds (toggleStar i st)))].
Proof.
  intros Hk. rewrite toggleStar_ids. unfold View.storageWrites.
  rewrite toggleStar_calls, omap_app. simpl.
  unfold toggleStar, setItem. simpl.
  destruct (writable (localStorage st)); simpl; repeat split.
  apply lookup_insert_ne. congruence.
Qed.

Lemma toggle_writes_only_starred_record_witness :
  area (localStorage (toggleStar "a" (Sample.shelf ["b"] true))) !! libraryStorageKey
  = None.
Proof.
  rewrite (proj1 (toggle_writes_only_starred_record "a" (Sample.shelf ["b"] true)
                    libraryStorageKey ltac:(discriminate))).
  reflexivity.
Defined.

End CatalogIds.

Section CatalogStartup.

Import Catalog.
Context `{Host}.

Lemma storageWrites_record (c : Call) (st : State) :
  View.storageWrites (record c st)
  = View.storageWrites st ++ match c with SetItem k v => [(k, v)] | _ => [] end.
Proof. unfold View.storageWrites. simpl. rewrite omap_app. destruct c; reflexivity. Qed.

(** What the start-up read leaves behind, field by field. *)
Lemma loadLibraryCache_fields (parse : string -> result JSON) (st : State) :
  let st' := loadLibraryCache parse st in
  localStorage st' = localStorage st
  /\ View.storageWrites st' = View.storageWrites st
  /\ libraryItems st'
     = match getItem libraryStorageKey (localStorage st) with
       | Ok (Some r) => if isEmpty r then libraryItems st
                        else catch (parse r) (libraryItems st)
       | _ => libraryItems st
       end
  /\ starredLibraryIds st'
     = match getItem libraryMetaStorageKey (localStorage st) with
       | Ok (Some r) =>
           if isEmpty r then starredLibraryIds st
           else match parse r with
                | Ok meta =>
                    match getProp meta "starredIds" with
                    | Ok (Some (JArr l)) => catch (coerceIds l) (starredLibraryIds st)
                    | _ => starredLibraryIds st
                    end
                | Throw => starredLibraryIds st
                end
       | _ => starredLibraryIds st
       end.
Proof.
  cbv zeta. unfold loadLibraryCache.
  set (st1 := record (GetItem libraryStorageKey) st).
  set (st2 := catch _ st1).
  assert (H2 : localStorage st2 = localStorage st
               /\ View.storageWrites st2 = View.storageWrites st
               /\ starredLibraryIds st2 = starredLibraryIds st
               /\ libraryItems st2
                  = match getItem libraryStorageKey (localStorage st) with
                    | Ok (Some r) => if isEmpty r then libraryItems st
                                     else catch (parse r) (libraryItems st)
                    | _ => libraryItems st
                    end).
  { assert (H1 : View.storageWrites st1 = View.storageWrites st)
      by (subst st1; rewrite storageWrites_record; apply app_nil_r).
    subst st2. change (localStorage st1) with (localStorage st).
    destruct (getItem libraryStorageKey (localStorage st)) as [[r|]|];
      simpl; try (repeat split; exact H1).
    destruct (isEmpty r); simpl; [repeat split; exact H1|].
    destruct (parse r) as [parsed|]; simpl; [|repeat split; exact H1].
    destruct (excalidrawRef st); simpl; [|repeat split; exact H1].
    rewrite catch_same. repeat split.
    rewrite storageWrites_record, app_nil_r. exact H1. }
  destruct H2 as (Hs2 & Hw2 & Hi2 & Hl2).
  set (st3 := record (GetItem libraryMetaStorageKey) st2).
  assert (Hw3 : View.storageWrites st3 = View.storageWrites st)
    by (subst st3; rewrite storageWrites_record, app_nil_r; exact Hw2).
  change (localStorage st3) with (localStorage st2). rewrite Hs2.
  destruct (getItem libraryMetaStorageKey (localStorage st)) as [[r|]|];
    simpl; try (repeat split; assumption).
  destruct (isEmpty r); simpl; [repeat split; assumption|].
  destruct (parse r) as [meta|]; simpl; [|repeat split; assumption].
  destruct (getProp meta "starredIds") as [[[| | | | l |]|]|]; simpl;
    try (repeat split; assumption).
  destruct (coerceIds l); simpl; repeat split; assumption.
Qed.

Lemma coerceIds_strings (l : list string) : coerceIds (map JStr l) = Ok l.
Proof. induction l as [|x l IH]; simpl; [reflexivity|]. rewrite IH. reflexivity. Qed.

Lemma coerceIds_throws (l : list JSON) :
  coerceIds l = Throw <-> exists v, In v l /\ Spec.printable v = false.
Proof.
  induction l as [|x l IH]; simpl.
  - split; [discriminate | intros (v & [] & _)].
  - destruct (toStr x) as [s|] eqn:Hx; simpl.
    + assert (Hp : Spec.printable x <> false).
      { intros Hp. apply toStr_throws in Hp. congruence. }
      destruct (coerceIds l) as [ss|]; simpl.
      * split; [discriminate|]. intros (v & [<- | Hin] & Hv); [contradiction|].
        assert (Hthrow : @Ok (list string) ss = Throw)
          by (apply IH; exists v; split; assumption).
        discriminate.
      * split; [|reflexivity]. intros _.
        destruct (proj1 IH eq_refl) as (v & Hin & Hv).
        exists v. split; [right; exact Hin | exact Hv].
    + split; [|reflexivity]. intros _. exists x.
      split; [left; reflexivity | apply toStr_throws; exact Hx].
Qed.

(** X16: at start-up the two catalogue keys are read, once each and in
    that order, whatever the storage holds and whatever the parser and the
    canvas do; the key of the board's own cache is neither of them; local
    storage is left as it was and no write to it is attempted. *)
Theorem startup_reads_catalogue_keys_only (parse : string -> result JSON)
    (st : State) (s : Session) :
  storageReads (loadLibraryCache parse st)
  = storageReads st ++ [libraryStorageKey; libraryMetaStorageKey]
  /\ storageKey s <> libraryStorageKey
  /\ storageKey s <> libraryMetaStorageKey
  /\ localStorage (loadLibraryCache parse st) = localStorage st
  /\ View.storageWrites (loadLibraryCache parse st) = View.storageWrites st.
Proof.
  pose proof (loadLibraryCache_fields parse st) as Hf. cbv zeta in Hf.
  destruct Hf as (Hs & Hw & _).
  split; [apply loadLibraryCache_reads|].
  split; [apply storageKey_not_catalogue|].
  split; [apply storageKey_not_catalogue|].
  split; assumption.
Qed.

(** X17: start-up tolerates a missing or damaged cache: when storage cannot
    be read, or a key is absent or empty, or its text does not parse, the
    corresponding state (catalogue, starred set) stays as it was; a parsed
    record whose [starredIds] is not an array leaves the starred set as it
    was too. *)
Theorem startup_tolerates_bad_cache (parse : string -> result JSON) (st : State) :
  let st' := loadLibraryCache parse st in
  (readable (localStorage st) = false ->
   libraryItems st' = libraryItems st /\ starredLibraryIds st' = starredLibraryIds st)
  /\ (forall key, area (localStorage st) !! key = None
                  \/ area (localStorage st) !! key = Some ""
                  \/ (exists r, area (localStorage st) !! key = Some r /\ parse r = Throw) ->
      (key = libraryStorageKey -> libraryItems st' = libraryItems st)
      /\ (key = libraryMetaStorageKey -> starredLibraryIds st' = starredLibraryIds st))
  /\ (forall r meta,
        area (localStorage st) !! libraryMetaStorageKey = Some r ->
        parse r = Ok meta ->
        (forall l, getProp meta "starredIds" <> Ok (Some (JArr l))) ->
        starredLibraryIds st' = starredLibraryIds st).
Proof.
  cbv zeta. pose proof (loadLibraryCache_fields parse st) as Hf. cbv zeta in Hf.
  destruct Hf as (_ & _ & Hl & Hi). rewrite Hl, Hi. unfold getItem.
  split; [|split].
  - intros ->. split; reflexivity.
  - intros key Hkey. split; intros ->; destruct (readable (localStorage st)); try reflexivity;
      destruct Hkey as [-> | [-> | (r & -> & Hr)]]; try reflexivity;
      destruct (isEmpty r); try reflexivity; rewrite Hr; reflexivity.
  - intros r meta Hr Hmeta Hnot. destruct (readable (localStorage st)); [|reflexivity].
    rewrite Hr. destruct (isEmpty r); [reflexivity|]. rewrite Hmeta.
    destruct (getProp meta "starredIds") as [[[| | | | l |]|]|]; try reflexivity.
    exfalso. apply (Hnot l). reflexivity.
Qed.

(** X18: the starred set survives a reload: after a toggle on readable and
    writable storage, a page view that starts on that storage restores the
    starred set exactly as the toggle left it, provided the page's
    [JSON.parse] reads back the text that [JSON.stringify] wrote; that text
    is a record from which exactly the list of the toggle is read.  In
    general the elements of a stored array are converted with [String]:
    when every one converts, the converted list becomes the starred set,
    strings being taken as they are; when one does not (an object with a
    member called [toString], or an array holding one) the error is
    caught at line 148 and the starred set stays as it was. *)
Theorem starred_set_survives_reload (parse : string -> result JSON) (i : string)
    (st : State) (ref : bool) :
  writable (localStorage st) = true ->
  readable (localStorage st) = true ->
  let saved := toggleStar i st in
  let written (l : list string) := stringify (JObj [("starredIds", JArr (map JStr l))]) in
  parse (written (starredLibraryIds saved))
  = Ok (JObj [("starredIds", JArr (map JStr (starredLibraryIds saved)))]) ->
  area (localStorage saved) !! libraryMetaStorageKey
  = Some (written (starredLibraryIds saved))
  /\ Reader.readStarredRecord (written (starredLibraryIds saved))
     = Some (starredLibraryIds saved)
  /\ starredLibraryIds (loadLibraryCache parse (View.opened ref (localStorage saved)))
     = starredLibraryIds saved
  /\ (forall r meta l,
        area (localStorage st) !! libraryMetaStorageKey = Some r ->
        isEmpty r = false ->
        parse r = Ok meta ->
        getProp meta "starredIds" = Ok (Some (JArr l)) ->
        starredLibraryIds (loadLibraryCache parse st)
        = match coerceIds l with
          | Ok converted => converted
          | Throw => starredLibraryIds st
          end)
  /\ (forall l, coerceIds (map JStr l) = Ok l)
  /\ (forall l, coerceIds l = Throw <-> exists v, In v l /\ Spec.printable v = false).
Proof.
  intros Hw Hr. cbv zeta. intros Hparse.
  destruct (toggleStar_stored i st Hw) as [Hstored _].
  rewrite <- toggleStar_ids in Hstored.
  split; [exact Hstored|].
  split; [apply readStarredRecord_written|].
  split; [|split; [|split]].
  - pose proof (loadLibraryCache_fields parse
                  (View.opened ref (localStorage (toggleStar i st)))) as Hf.
    cbv zeta in Hf. destruct Hf as (_ & _ & _ & ->).
    unfold getItem, View.opened. cbn [localStorage].
    assert (Hread : readable (localStorage (toggleStar i st)) = true).
    { unfold toggleStar, setItem. simpl. rewrite Hw. simpl. exact Hr. }
    rewrite Hread, Hstored.
    assert (Hne : isEmpty (metaRecord (starredLibraryIds (toggleStar i st))) = false)
      by reflexivity.
    rewrite Hne. unfold metaRecord. rewrite Hparse.
    cbn [getProp lookupField String.eqb Ascii.eqb Bool.eqb].
    rewrite coerceIds_strings. reflexivity.
  - intros r meta l Hstored' Hne Hmeta Harr.
    pose proof (loadLibraryCache_fields parse st) as Hf.
    cbv zeta in Hf. destruct Hf as (_ & _ & _ & ->).
    unfold getItem. rewrite Hr, Hstored', Hne, Hmeta, Harr.
    destruct (coerceIds l); reflexivity.
  - apply coerceIds_strings.
  - apply coerceIds_throws.
Qed.

End CatalogStartup.

Section CatalogStartupWitnesses.

Import Catalog.

Lemma startup_reads_catalogue_keys_only_witness :
  storageReads (@loadLibraryCache Sample.page Sample.parseMeta (Sample.shelf ["b"] true))
  = [libraryStorageKey; libraryMetaStorageKey]
  /\ storageKey Sample.session <> libraryStorageKey.
Proof.
  destruct (@startup_reads_catalogue_keys_only Sample.page Sample.parseMeta
              (Sample.shelf ["b"] true) Sample.session) as (Hreads & Hkey & _).
  split; [exact Hreads | exact Hkey].
Defined.

Lemma startup_tolerates_bad_cache_witness :
  let storage := {| area := {[ libraryStorageKey := "[oops" ]}; readable := true;
                    writable := true |} in
  libraryItems (@loadLibraryCache Sample.page Sample.parseMeta (View.opened true storage))
  = JNull
  /\ starredLibraryIds
       (@loadLibraryCache Sample.page Sample.parseMeta (View.opened true storage)) = [].
Proof.
  cbv zeta.
  pose proof (@startup_tolerates_bad_cache Sample.page Sample.parseMeta
                (View.opened true
                   {| area := {[ libraryStorageKey := "[oops" ]}; readable := true;
                      writable := true |})) as Hthm.
  cbv zeta in Hthm. destruct Hthm as (_ & Hkey & _).
  split.
  - apply (Hkey libraryStorageKey); [|reflexivity].
    right. right. exists "[oops". split; reflexivity.
  - apply (Hkey libraryMetaStorageKey); [|reflexivity]. left. reflexivity.
Defined.

Lemma starred_set_survives_reload_witness :
  starredLibraryIds
    (@loadLibraryCache Sample.page Sample.parseMeta
       (View.opened false (localStorage (toggleStar "a" (Sample.shelf ["b"] true)))))
  = ["b"; "a"]
  /\ starredLibraryIds
       (@loadLibraryCache Sample.page Sample.parseMeta
          (View.opened false
             (localStorage (toggleStar (String dquote "x") (Sample.shelf ["b\n"] true)))))
     = ["b\n"; String dquote "x"].
Proof.
  split.
  - apply (@starred_set_survives_reload Sample.page Sample.parseMeta "a"
             (Sample.shelf ["b"] true) false); reflexivity.
  - apply (@starred_set_survives_reload Sample.page Sample.parseMeta (String dquote "x")
             (Sample.shelf ["b\n"] true) false); reflexivity.
Defined.

End CatalogStartupWitnesses.

(** ** Cookies: reading a well-formed cookie string *)

Section CookieJar.

Import Cookie.









End CookieJar.

(** ** The readiness callback and the catalogue *)

Section LibraryPushes.

Import Reconcile.
Context `{Host}.

Lemma commit_library (st : State) :
  libraryItems (commit st) = libraryItems st
  /\ Trace.libraryPushes (commit st) = Trace.libraryPushes st.
Proof.
  unfold commit, sceneEffect, Trace.libraryPushes.
  destruct st as [idata lu li ref rdy dirty cs]. cbn.
  destruct dirty; cbn; [|split; reflexivity].
  destruct idata as [d|]; cbn; [|split; reflexivity].
  destruct rdy, ref; cbn; rewrite ?catch_same; cbn; rewrite ?omap_app; cbn;
    rewrite ?app_nil_r; split; reflexivity.
Qed.

Lemma bootstrapSettled_library (c : bool) (r : FetchResult) (st : State) :
  libraryItems (bootstrapSettled c r st) = libraryItems st
  /\ Trace.libraryPushes (bootstrapSettled c r st) = Trace.libraryPushes st.
Proof.
  unfold bootstrapSettled.
  destruct r as [|ok decoded]; [split; reflexivity|].
  destruct c; [split; reflexivity|]. destruct ok; [|split; reflexivity].
  destruct (getOpt (catch decoded JNull) "data") as [d|];
    [destruct (truthy d && isObjectType d)|];
    (destruct (getOpt (catch decoded JNull) "updatedAt") as [u|];
     [destruct (truthy u); [destruct (toStr u)|]|]); split; reflexivity.
Qed.

Lemma onExcalidrawAPI_library (st : State) :
  libraryItems (onExcalidrawAPI st) = libraryItems st
  /\ Trace.libraryPushes (onExcalidrawAPI st)
     = Trace.libraryPushes st
       ++ (if truthy (libraryItems st) then [libraryItems st] else []).
Proof.
  unfold onExcalidrawAPI, setExcalidrawReady, Trace.libraryPushes.
  destruct st as [idata lu li ref rdy dirty cs]. cbn.
  destruct (truthy li); rewrite ?catch_same; destruct rdy; cbn;
    rewrite ?omap_app; cbn; rewrite ?app_nil_r; split; reflexivity.
Qed.

Lemma step_library (st : State) (e : Event) :
  libraryItems (step st e) = libraryItems st
  /\ Trace.libraryPushes (step st e)
     = Trace.libraryPushes st
       ++ (if Inv.isReady e && truthy (libraryItems st) then [libraryItems st] else []).
Proof.
  unfold step.
  destruct (commit_library
              match e with
              | BootstrapSettled c r => bootstrapSettled c r st
              | CanvasReady => onExcalidrawAPI st
              | Rerender => st
              end) as [-> ->].
  destruct e as [c r | |]; simpl Inv.isReady; simpl andb.
  - rewrite app_nil_r. apply bootstrapSettled_library.
  - apply onExcalidrawAPI_library.
  - rewrite app_nil_r. split; reflexivity.
Qed.

(** X20: every readiness callback of the canvas hands it the catalogue held
    at that moment, when there is one, and nothing else ever does: in a run
    the catalogue has been pushed once per callback, or never when it is
    [null]; a push that throws is swallowed. *)
Theorem library_pushed_on_every_ready (items : JSON) (es : list Event) :
  Trace.libraryPushes (run (mounted items) es)
  = if truthy items then replicate (Trace.readyCount es) items else [].
Proof.
  assert (Hgen : forall st,
             libraryItems (run st es) = libraryItems st
             /\ Trace.libraryPushes (run st es)
                = Trace.libraryPushes st
                  ++ (if truthy (libraryItems st)
                      then replicate (Trace.readyCount es) (libraryItems st) else [])).
  { induction es as [|e es IH]; intros st.
    - simpl. destruct (truthy (libraryItems st)); rewrite app_nil_r; split; reflexivity.
    - change (run st (e :: es)) with (run (step st e) es).
      destruct (IH (step st e)) as [Hi Hp]. destruct (step_library st e) as [Hi' Hp'].
      rewrite Hi, Hp, Hi', Hp'. split; [reflexivity|].
      rewrite <- app_assoc. f_equal. unfold Trace.readyCount. simpl List.filter.
      destruct (Inv.isReady e); destruct (truthy (libraryItems st)); reflexivity. }
  destruct (Hgen (mounted items)) as [_ Hp]. exact Hp.
Qed.

End LibraryPushes.
